(** * crypto-trader: the decision pipeline, embedded and verified

    A shallow embedding of the paper-trading backend:
    - [PortfolioService]  (services/portfolio.ts)  cash, equity, positions;
    - [TraderService]     (services/trader.ts)     trailing stops and exits;
    - [BinanceService]    (services/binance.ts)    candle buffers, reconnects;
    - [StrategyService]   (services/strategy.ts)   the multi-signal detectors;
    - [LLMFilterService]  (services/llm-filter.ts) the approval gate;
    - [TradingEngine]     (services/engine.ts)     the approval step;
    - [IndicatorService]  (services/indicators.ts) the technical indicators;
    - [RegimeService]     (services/regime.ts)     the market regime;
    - [EngineErrors]      (services/engine.ts)     the log of errors.

    Numbers.  A JavaScript [number] is an IEEE double.  The embedding takes
    the finite ones as exact rationals ([Q]): no rounding, no signed zero.
    Where the source divides, the quotient is a [jsnum], which also has
    the three non-finite results of a division by zero, so a comparison
    on it reads as in the source.  Equalities between numbers are stated
    with [==] ([Qeq]).

    Effects.  Every class is a record of its fields and every method takes
    the record and returns the new one.  [randomUUID()] and [Date.now()]
    are arguments ([uuid], [now]).  A [Map] is an association list in
    insertion order, which is the order JavaScript iterates it in. *)

From Stdlib Require Import QArith Qabs Qminmax Lqa Lia ZArith List String Bool Sorted.
Import ListNotations.
Open Scope Q_scope.

(** ** JavaScript numbers *)

(** [a < b] on finite numbers. *)
Definition Qltb (a b : Q) : bool := negb (Qle_bool b a).

(** [!x] is false exactly for a finite number other than 0. *)
Definition truthy (x : Q) : bool := negb (Qeq_bool x 0).

Inductive jsnum : Type :=
| Fin (q : Q)
| PosInf
| NegInf
| NaN.

(** [a / b] as IEEE computes it on finite operands. *)
Definition jsdiv (a b : Q) : jsnum :=
  if Qeq_bool b 0 then
    if Qltb 0 a then PosInf else if Qltb a 0 then NegInf else NaN
  else Fin (a / b).

(** [x * c] for a finite [c]. *)
Definition jsmul (x : jsnum) (c : Q) : jsnum :=
  match x with
  | Fin q => Fin (q * c)
  | PosInf => if Qltb 0 c then PosInf else if Qltb c 0 then NegInf else NaN
  | NegInf => if Qltb 0 c then NegInf else if Qltb c 0 then PosInf else NaN
  | NaN => NaN
  end.

(** [x > c], [x >= c], [x < c]: every comparison with NaN is false. *)
Definition js_gt (x : jsnum) (c : Q) : bool :=
  match x with Fin q => Qltb c q | PosInf => true | NegInf => false | NaN => false end.

Definition js_ge (x : jsnum) (c : Q) : bool :=
  match x with Fin q => Qle_bool c q | PosInf => true | NegInf => false | NaN => false end.

Definition js_lt (x : jsnum) (c : Q) : bool :=
  match x with Fin q => Qltb q c | PosInf => false | NegInf => true | NaN => false end.

(** [Math.max(a, b)] and [Math.min(a, b)]. *)
Definition qmax (a b : Q) : Q := if Qltb a b then b else a.
Definition qmin (a b : Q) : Q := if Qltb b a then b else a.

(** ** Maps keyed by strings

    [Map<string, V>]: [set] keeps the place of a key that is present and
    appends a new one; [delete] removes the key. *)
Section StringMap.
Context {V : Type}.

Fixpoint map_get (k : string) (m : list (string * V)) : option V :=
  match m with
  | [] => None
  | (k', v) :: m' => if String.eqb k' k then Some v else map_get k m'
  end.

Fixpoint map_set (k : string) (v : V) (m : list (string * V)) : list (string * V) :=
  match m with
  | [] => [(k, v)]
  | (k', v') :: m' =>
      if String.eqb k' k then (k, v) :: m' else (k', v') :: map_set k v m'
  end.

Definition map_delete (k : string) (m : list (string * V)) : list (string * V) :=
  filter (fun kv => negb (String.eqb (fst kv) k)) m.

Definition map_values (m : list (string * V)) : list V := map snd m.
End StringMap.

(** ** Shared types (types/index.ts) *)

Inductive Direction : Type := LONG | SHORT.

(** [SignalDirection = 'LONG' | 'SHORT' | 'NEUTRAL']. *)
Inductive SignalDirection : Type :=
| Dir (d : Direction)
| NEUTRAL.

Inductive SignalStrength : Type := weak | moderate | strong.

Inductive VolatilityRegime : Type := vol_low | vol_normal | vol_high | vol_extreme.
Inductive TrendRegime : Type := strong_up | up | neutral | down | strong_down.
Inductive MarketDecision : Type := TRADE_ALLOWED | WAIT | DANGER.

(** [LLMDecision = 'APPROVE' | 'REJECT' | 'DELAY'].  [JSON.parse] checks
    nothing, so the decision [evaluateSignal] copies from the answer of
    the model can be any other truthy value: [Unchecked], with its text. *)
Inductive LLMDecision : Type :=
| APPROVE
| REJECT
| DELAY
| Unchecked (text : string).

Inductive TradeOutcome : Type := win | loss | breakeven.

Inductive TradeExitReason : Type :=
| take_profit | stop_loss | trailing_stop | structure_break | manual | regime_change.

Module Candle.
Record t : Type := mk {
  symbol : string;
  interval : string;
  openTime : Z;
  closeTime : Z;
  open : Q;
  high : Q;
  low : Q;
  close : Q;
  volume : Q;
  isClosed : bool
}.
End Candle.

Module Indicators.
Record t : Type := mk {
  symbol : string;
  timestamp : Z;
  ema9 : Q;
  ema21 : Q;
  ema50 : Q;
  rsi14 : Q;
  atr14 : Q;
  atrPercent : Q;
  adx14 : Q;
  volumeSma20 : Q;
  volumeRatio : Q;
  lastSwingHigh : Q;
  lastSwingLow : Q
}.
End Indicators.

Module RegimeState.
Record t : Type := mk {
  symbol : string;
  timestamp : Z;
  volatility : VolatilityRegime;
  trend : TrendRegime;
  decision : MarketDecision;
  fearGreedIndex : Q;
  fearGreedLabel : string;
  reason : string
}.
End RegimeState.

Module TradeSignal.
(** [reason] holds the fixed head of the source's message (the text
    before the first full stop); the numbers printed after it with
    [toFixed] are left out. *)
Record t : Type := mk {
  id : string;
  symbol : string;
  timestamp : Z;
  direction : SignalDirection;
  strength : SignalStrength;
  entryPrice : Q;
  stopLoss : Q;
  takeProfit : Q;
  riskRewardRatio : jsnum;
  reason : string;
  indicators : Indicators.t;
  regime : RegimeState.t
}.
End TradeSignal.

Module LLMFilterResult.
Record t : Type := mk {
  signalId : string;
  decision : LLMDecision;
  confidence : Q;
  reasoning : string;
  delayMinutes : option Q;
  newsContext : list string;
  timestamp : Z
}.
End LLMFilterResult.

Module Position.
Record t : Type := mk {
  id : string;
  symbol : string;
  direction : Direction;
  entryPrice : Q;
  currentPrice : Q;
  quantity : Q;
  entryTime : Z;
  stopLoss : Q;
  takeProfit : Q;
  unrealizedPnL : Q;
  unrealizedPnLPercent : jsnum;
  signalId : string
}.
End Position.

Module ClosedTrade.
Record t : Type := mk {
  id : string;
  symbol : string;
  direction : Direction;
  entryPrice : Q;
  exitPrice : Q;
  quantity : Q;
  entryTime : Z;
  exitTime : Z;
  pnl : Q;
  pnlPercent : jsnum;
  commission : Q;
  outcome : TradeOutcome;
  exitReason : TradeExitReason;
  signalId : string;
  llmApproval : LLMFilterResult.t
}.
End ClosedTrade.

Module PortfolioState.
Record t : Type := mk {
  totalEquity : Q;
  availableCash : Q;
  positions : list Position.t;
  totalPnL : Q;
  totalPnLPercent : jsnum;
  totalTrades : nat;
  winRate : Q;
  timestamp : Z
}.
End PortfolioState.

Module TradingConfig.
Record t : Type := mk {
  symbols : list string;
  interval : string;
  initialCapital : Q;
  maxPositionPercent : Q;
  maxOpenPositions : Q;
  commissionRate : Q;
  cooldownCandles : Q;
  riskPerTradePercent : Q;
  trailingStopActivation : Q;
  trailingStopDistance : Q
}.
End TradingConfig.

Definition DEFAULT_CONFIG : TradingConfig.t :=
  {| TradingConfig.symbols :=
       ["BTCUSDT"; "ETHUSDT"; "SOLUSDT"; "XRPUSDT"; "BNBUSDT"; "DOGEUSDT";
        "AVAXUSDT"; "ADAUSDT"; "LINKUSDT"; "MATICUSDT"]%string;
     TradingConfig.interval := "5m"%string;
     TradingConfig.initialCapital := 10000;
     TradingConfig.maxPositionPercent := 0.15;
     TradingConfig.maxOpenPositions := 12;
     TradingConfig.commissionRate := 0.001;
     TradingConfig.cooldownCandles := 0;
     TradingConfig.riskPerTradePercent := 0.02;
     TradingConfig.trailingStopActivation := 0.008;
     TradingConfig.trailingStopDistance := 0.005 |}.

(** [Record<string, number>]: a missing key reads as [undefined]. *)
Definition Prices : Type := list (string * Q).

(** ** PortfolioService (services/portfolio.ts) *)

Module PortfolioService.

(** [positions] is the [Map<string, Position>]: its only [set] is
    [set(position.id, position)], so the map is the list of its values,
    in insertion order, with the [id] of a value as its key. *)
Record t : Type := mk {
  config : TradingConfig.t;
  totalEquity : Q;
  availableCash : Q;
  positions : list Position.t;
  closedTrades : list ClosedTrade.t;
  initialCapital : Q
}.

(** [positions.set(position.id, position)]. *)
Fixpoint positions_set (position : Position.t) (m : list Position.t) : list Position.t :=
  match m with
  | [] => [position]
  | p :: m' =>
      if String.eqb (Position.id p) (Position.id position) then position :: m'
      else p :: positions_set position m'
  end.

(** [positions.delete(id)]. *)
Definition positions_delete (id : string) (m : list Position.t) : list Position.t :=
  filter (fun p => negb (String.eqb (Position.id p) id)) m.

Definition constructor (config : TradingConfig.t) : t :=
  {| config := config;
     totalEquity := TradingConfig.initialCapital config;
     availableCash := TradingConfig.initialCapital config;
     positions := [];
     closedTrades := [];
     initialCapital := TradingConfig.initialCapital config |}.

Definition getOpenPositions (this : t) : list Position.t := positions this.

(** Total value of the open positions at their current prices. *)
Definition getPositionsValue (this : t) : Q :=
  fold_left
    (fun sum pos => sum + Position.quantity pos * Position.currentPrice pos)
    (positions this) 0.

Definition canOpenPosition (this : t) (symbol : string) : bool :=
  if Qle_bool (TradingConfig.maxOpenPositions (config this))
              (inject_Z (Z.of_nat (List.length (positions this))))
  then false
  else
    let minCash := totalEquity this * 0.1 in
    if Qltb (availableCash this) minCash then false else true.

(** [quantity = maxQuantity] stores a non-finite number only when the
    quotient is -Infinity: [quantity > +Infinity] and [quantity > NaN]
    are false. *)
Definition calculatePositionSize
    (this : t) (entryPrice stopLoss : Q) (direction : Direction) : jsnum :=
  let riskAmount := totalEquity this * TradingConfig.riskPerTradePercent (config this) in
  let stopDistance := Qabs (entryPrice - stopLoss) in
  if Qeq_bool stopDistance 0 then Fin 0
  else
    let quantity := riskAmount / stopDistance in
    let maxPositionValue :=
      totalEquity this * TradingConfig.maxPositionPercent (config this) in
    match jsdiv maxPositionValue entryPrice with
    | Fin maxQuantity => if Qltb maxQuantity quantity then Fin maxQuantity else Fin quantity
    | PosInf => Fin quantity
    | NaN => Fin quantity
    | NegInf => NegInf
    end.

(** What [openPosition] does: [NotOpened] is the source's [return null]
    (nothing changes); [NonFiniteSize] is a position size of -Infinity,
    where the source goes on with non-finite amounts, which this
    embedding does not follow. *)
Inductive OpenResult : Type :=
| Opened (this' : t) (position : Position.t)
| NotOpened
| NonFiniteSize.

Definition openPosition
    (this : t) (signal : TradeSignal.t) (currentPrice : Q)
    (uuid : string) (now : Z) : OpenResult :=
  if negb (canOpenPosition this (TradeSignal.symbol signal)) then NotOpened
  else
    match TradeSignal.direction signal with
    | NEUTRAL => NotOpened
    | Dir direction =>
        match calculatePositionSize this (TradeSignal.entryPrice signal)
                (TradeSignal.stopLoss signal) direction with
        | Fin positionSize =>
            if Qeq_bool positionSize 0 then NotOpened
            else
              let positionValue := positionSize * currentPrice in
              let entryCommission :=
                positionValue * TradingConfig.commissionRate (config this) in
              let totalCost := positionValue + entryCommission in
              if Qltb (availableCash this) totalCost then NotOpened
              else
                let position :=
                  {| Position.id := uuid;
                     Position.symbol := TradeSignal.symbol signal;
                     Position.direction := direction;
                     Position.entryPrice := currentPrice;
                     Position.currentPrice := currentPrice;
                     Position.quantity := positionSize;
                     Position.entryTime := now;
                     Position.stopLoss := TradeSignal.stopLoss signal;
                     Position.takeProfit := TradeSignal.takeProfit signal;
                     Position.unrealizedPnL := - entryCommission;
                     Position.unrealizedPnLPercent :=
                       jsmul (jsdiv (- entryCommission) positionValue) 100;
                     Position.signalId := TradeSignal.id signal |} in
                Opened
                  {| config := config this;
                     totalEquity := totalEquity this;
                     availableCash := availableCash this - totalCost;
                     positions := positions_set position (positions this);
                     closedTrades := closedTrades this;
                     initialCapital := initialCapital this |}
                  position
        | _ => NonFiniteSize
        end
    end.

Definition closePosition
    (this : t) (positionId : string) (exitPrice : Q)
    (exitReason : TradeExitReason) (now : Z) : t * option ClosedTrade.t :=
  match find (fun p => String.eqb (Position.id p) positionId) (positions this) with
  | None => (this, None)
  | Some position =>
      let positionValue := Position.quantity position * Position.entryPrice position in
      let exitValue := Position.quantity position * exitPrice in
      let grossPnL :=
        match Position.direction position with
        | LONG => exitValue - positionValue
        | SHORT => positionValue - exitValue
        end in
      let entryCommission := positionValue * TradingConfig.commissionRate (config this) in
      let exitCommission := exitValue * TradingConfig.commissionRate (config this) in
      let totalCommission := entryCommission + exitCommission in
      let netPnL := grossPnL - totalCommission in
      let pnlPercent := jsmul (jsdiv netPnL positionValue) 100 in
      let outcome :=
        if Qltb 0 netPnL then win
        else if Qltb netPnL 0 then loss
        else breakeven in
      let closedTrade :=
        {| ClosedTrade.id := Position.id position;
           ClosedTrade.symbol := Position.symbol position;
           ClosedTrade.direction := Position.direction position;
           ClosedTrade.entryPrice := Position.entryPrice position;
           ClosedTrade.exitPrice := exitPrice;
           ClosedTrade.quantity := Position.quantity position;
           ClosedTrade.entryTime := Position.entryTime position;
           ClosedTrade.exitTime := now;
           ClosedTrade.pnl := netPnL;
           ClosedTrade.pnlPercent := pnlPercent;
           ClosedTrade.commission := totalCommission;
           ClosedTrade.outcome := outcome;
           ClosedTrade.exitReason := exitReason;
           ClosedTrade.signalId := Position.signalId position;
           ClosedTrade.llmApproval :=
             {| LLMFilterResult.signalId := Position.signalId position;
                LLMFilterResult.decision := APPROVE;
                LLMFilterResult.confidence := 1;
                LLMFilterResult.reasoning := "Auto-approved"%string;
                LLMFilterResult.delayMinutes := None;
                LLMFilterResult.newsContext := [];
                LLMFilterResult.timestamp := Position.entryTime position |} |} in
      let positions1 := positions_delete (Position.id position) (positions this) in
      let availableCash1 := availableCash this + (exitValue - exitCommission) in
      let this1 :=
        {| config := config this;
           totalEquity := totalEquity this;
           availableCash := availableCash1;
           positions := positions1;
           closedTrades := closedTrades this;
           initialCapital := initialCapital this |} in
      ({| config := config this;
          totalEquity := availableCash1 + getPositionsValue this1;
          availableCash := availableCash1;
          positions := positions1;
          closedTrades := closedTrades this ++ [closedTrade];
          initialCapital := initialCapital this |},
       Some closedTrade)
  end.

(** The body of the loop of [updatePositions] for one position. *)
Definition updatePosition
    (config : TradingConfig.t) (prices : Prices) (position : Position.t) : Position.t :=
  match map_get (Position.symbol position) prices with
  | None => position
  | Some currentPrice =>
      if negb (truthy currentPrice) then position
      else
        let positionValue := Position.quantity position * Position.entryPrice position in
        let currentValue := Position.quantity position * currentPrice in
        let grossPnL :=
          match Position.direction position with
          | LONG => currentValue - positionValue
          | SHORT => positionValue - currentValue
          end in
        let entryCommission := positionValue * TradingConfig.commissionRate config in
        let unrealizedPnL := grossPnL - entryCommission in
        {| Position.id := Position.id position;
           Position.symbol := Position.symbol position;
           Position.direction := Position.direction position;
           Position.entryPrice := Position.entryPrice position;
           Position.currentPrice := currentPrice;
           Position.quantity := Position.quantity position;
           Position.entryTime := Position.entryTime position;
           Position.stopLoss := Position.stopLoss position;
           Position.takeProfit := Position.takeProfit position;
           Position.unrealizedPnL := unrealizedPnL;
           Position.unrealizedPnLPercent := jsmul (jsdiv unrealizedPnL positionValue) 100;
           Position.signalId := Position.signalId position |}
  end.

Definition updatePositions (this : t) (prices : Prices) : t :=
  let positions1 := map (updatePosition (config this) prices) (positions this) in
  let this1 :=
    {| config := config this;
       totalEquity := totalEquity this;
       availableCash := availableCash this;
       positions := positions1;
       closedTrades := closedTrades this;
       initialCapital := initialCapital this |} in
  {| config := config this;
     totalEquity := availableCash this + getPositionsValue this1;
     availableCash := availableCash this;
     positions := positions1;
     closedTrades := closedTrades this;
     initialCapital := initialCapital this |}.


(** The mutations of a portfolio, and a portfolio driven through a
    sequence of them.  [None]: an [openPosition] met the non-finite
    position size. *)
Inductive Op : Type :=
| Open (signal : TradeSignal.t) (currentPrice : Q) (uuid : string) (now : Z)
| Update (prices : Prices)
| Close (positionId : string) (exitPrice : Q) (exitReason : TradeExitReason) (now : Z).

Definition apply (this : t) (op : Op) : option t :=
  match op with
  | Open signal currentPrice uuid now =>
      match openPosition this signal currentPrice uuid now with
      | Opened this' _ => Some this'
      | NotOpened => Some this
      | NonFiniteSize => None
      end
  | Update prices => Some (updatePositions this prices)
  | Close positionId exitPrice exitReason now =>
      Some (fst (closePosition this positionId exitPrice exitReason now))
  end.

Fixpoint run (this : t) (ops : list Op) : option t :=
  match ops with
  | [] => Some this
  | op :: ops' =>
      match apply this op with
      | Some this' => run this' ops'
      | None => None
      end
  end.

End PortfolioService.

(** ** TraderService (services/trader.ts) *)

Module TrailingStopState.
Record t : Type := mk {
  isActive : bool;
  activationPrice : Q;
  highestPrice : Q;
  lowestPrice : Q;
  currentStop : Q
}.
End TrailingStopState.

Module TraderService.

Record t : Type := mk {
  portfolio : PortfolioService.t;
  config : TradingConfig.t;
  trailingStops : list (string * TrailingStopState.t)
}.

Definition constructor (portfolio : PortfolioService.t) (config : TradingConfig.t) : t :=
  {| portfolio := portfolio; config := config; trailingStops := [] |}.

(** [None] is the non-finite position size of [openPosition]. *)
Definition executeTrade
    (this : t) (signal : TradeSignal.t) (currentPrice : Q)
    (uuid : string) (now : Z) : option (t * option Position.t) :=
  match PortfolioService.openPosition (portfolio this) signal currentPrice uuid now with
  | PortfolioService.Opened portfolio1 position =>
      Some ({| portfolio := portfolio1;
               config := config this;
               trailingStops :=
                 map_set (Position.id position)
                   {| TrailingStopState.isActive := false;
                      TrailingStopState.activationPrice := 0;
                      TrailingStopState.highestPrice := currentPrice;
                      TrailingStopState.lowestPrice := currentPrice;
                      TrailingStopState.currentStop := Position.stopLoss position |}
                   (trailingStops this) |},
            Some position)
  | PortfolioService.NotOpened => Some (this, None)
  | PortfolioService.NonFiniteSize => None
  end.

(** What [updateTrailingStop] does to the state object it found in the
    map: the activation, then the ratchet. *)
Definition trail
    (config : TradingConfig.t) (position : Position.t) (currentPrice : Q)
    (trailingState : TrailingStopState.t) : TrailingStopState.t :=
  let positionValue := Position.quantity position * Position.entryPrice position in
  let grossPnL :=
    match Position.direction position with
    | LONG =>
        let currentValue := Position.quantity position * currentPrice in
        currentValue - positionValue
    | SHORT =>
        let currentValue := Position.quantity position * currentPrice in
        positionValue - currentValue
    end in
  let profitPercent := jsdiv grossPnL positionValue in
  let trailingState1 :=
    if negb (TrailingStopState.isActive trailingState)
       && js_gt profitPercent (TradingConfig.trailingStopActivation config)
    then
      {| TrailingStopState.isActive := true;
         TrailingStopState.activationPrice := currentPrice;
         TrailingStopState.highestPrice := TrailingStopState.highestPrice trailingState;
         TrailingStopState.lowestPrice := TrailingStopState.lowestPrice trailingState;
         TrailingStopState.currentStop := TrailingStopState.currentStop trailingState |}
    else trailingState in
  if TrailingStopState.isActive trailingState1 then
    match Position.direction position with
    | LONG =>
        if Qltb (TrailingStopState.highestPrice trailingState1) currentPrice then
          let newStop := currentPrice * (1 - TradingConfig.trailingStopDistance config) in
          {| TrailingStopState.isActive := TrailingStopState.isActive trailingState1;
             TrailingStopState.activationPrice :=
               TrailingStopState.activationPrice trailingState1;
             TrailingStopState.highestPrice := currentPrice;
             TrailingStopState.lowestPrice := TrailingStopState.lowestPrice trailingState1;
             TrailingStopState.currentStop :=
               if Qltb (TrailingStopState.currentStop trailingState1) newStop
               then newStop
               else TrailingStopState.currentStop trailingState1 |}
        else trailingState1
    | SHORT =>
        if Qltb currentPrice (TrailingStopState.lowestPrice trailingState1) then
          let newStop := currentPrice * (1 + TradingConfig.trailingStopDistance config) in
          {| TrailingStopState.isActive := TrailingStopState.isActive trailingState1;
             TrailingStopState.activationPrice :=
               TrailingStopState.activationPrice trailingState1;
             TrailingStopState.highestPrice := TrailingStopState.highestPrice trailingState1;
             TrailingStopState.lowestPrice := currentPrice;
             TrailingStopState.currentStop :=
               if Qltb newStop (TrailingStopState.currentStop trailingState1)
               then newStop
               else TrailingStopState.currentStop trailingState1 |}
        else trailingState1
    end
  else trailingState1.

Definition updateTrailingStop (this : t) (position : Position.t) (currentPrice : Q) : t :=
  match map_get (Position.id position) (trailingStops this) with
  | None => this
  | Some trailingState =>
      {| portfolio := portfolio this;
         config := config this;
         trailingStops :=
           map_set (Position.id position)
             (trail (config this) position currentPrice trailingState)
             (trailingStops this) |}
  end.

Definition checkExitConditions
    (position : Position.t) (currentPrice : Q)
    (trailingState : TrailingStopState.t) : option TradeExitReason :=
  match Position.direction position with
  | LONG =>
      if Qle_bool (Position.takeProfit position) currentPrice then Some take_profit
      else if TrailingStopState.isActive trailingState
              && Qle_bool currentPrice (TrailingStopState.currentStop trailingState)
      then Some trailing_stop
      else if Qle_bool currentPrice (Position.stopLoss position) then Some stop_loss
      else None
  | SHORT =>
      if Qle_bool currentPrice (Position.takeProfit position) then Some take_profit
      else if TrailingStopState.isActive trailingState
              && Qle_bool (TrailingStopState.currentStop trailingState) currentPrice
      then Some trailing_stop
      else if Qle_bool (Position.stopLoss position) currentPrice then Some stop_loss
      else None
  end.

(** The body of the loop of [checkExits] for one position of the
    snapshot [getOpenPositions()]. *)
Definition checkExit
    (prices : Prices) (now : Z) (acc : t * list ClosedTrade.t)
    (position : Position.t) : t * list ClosedTrade.t :=
  let (this, closedTrades) := acc in
  match map_get (Position.symbol position) prices with
  | None => acc
  | Some currentPrice =>
      if negb (truthy currentPrice) then acc
      else
        let this1 := updateTrailingStop this position currentPrice in
        match map_get (Position.id position) (trailingStops this1) with
        | None => (this1, closedTrades)
        | Some trailingState =>
            match checkExitConditions position currentPrice trailingState with
            | None => (this1, closedTrades)
            | Some exitReason =>
                match PortfolioService.closePosition (portfolio this1)
                        (Position.id position) currentPrice exitReason now with
                | (portfolio1, Some closedTrade) =>
                    ({| portfolio := portfolio1;
                        config := config this1;
                        trailingStops :=
                          map_delete (Position.id position) (trailingStops this1) |},
                     closedTrades ++ [closedTrade])
                | (portfolio1, None) =>
                    ({| portfolio := portfolio1;
                        config := config this1;
                        trailingStops := trailingStops this1 |},
                     closedTrades)
                end
            end
        end
  end.

Definition checkExits (this : t) (prices : Prices) (now : Z) : t * list ClosedTrade.t :=
  let openPositions := PortfolioService.getOpenPositions (portfolio this) in
  let (this1, closedTrades) := fold_left (checkExit prices now) openPositions (this, []) in
  ({| portfolio := PortfolioService.updatePositions (portfolio this1) prices;
      config := config this1;
      trailingStops := trailingStops this1 |},
   closedTrades).

Definition getTrailingStopState (this : t) (positionId : string)
  : option TrailingStopState.t :=
  map_get positionId (trailingStops this).

(** A trader driven through a sequence of price updates, each one a
    call of [checkExits]. *)
Definition tick (this : t) (update : Prices * Z) : t :=
  fst (checkExits this (fst update) (snd update)).

Definition ticks (this : t) (updates : list (Prices * Z)) : t :=
  fold_left tick updates this.

End TraderService.

(** ** BinanceService (services/binance.ts) *)

(** The kline of a WebSocket message ([data.k]); the prices are the
    values [parseFloat] reads. *)
Module Kline.
Record msg : Type := mk {
  t : Z;
  T : Z;
  s : string;
  i : string;
  o : Q;
  c : Q;
  h : Q;
  l : Q;
  v : Q;
  x : bool
}.
End Kline.

(** A row of the REST answer: [k0] is [k[0]], ..., [k6] is [k[6]]. *)
Module KlineRest.
Record row : Type := mk {
  k0 : Z;
  k1 : Q;
  k2 : Q;
  k3 : Q;
  k4 : Q;
  k5 : Q;
  k6 : Z
}.
End KlineRest.

(** What one REST request of the polling loop comes to. *)
Inductive PollResponse : Type :=
| FetchThrows
| HttpNotOk
| Klines (data : list KlineRest.row).

Module BinanceService.

Definition maxReconnectAttempts : Z := 10.
Definition baseReconnectDelay : Z := 1000.
Definition symbols : list string := ["BTCUSDT"; "ETHUSDT"]%string.
Definition interval : string := "15m"%string.
Definition bufferSize : nat := 200.

(** The fields of the class, and below them what the class does to its
    environment: the interval timer of the polling loop ([pollingLive]:
    registered and not cleared), the delays of the pending reconnect
    timeouts, the number of WebSockets created, and the calls made to
    the registered callbacks, [(callback, candle)], oldest first.
    Callbacks are numbered by the caller of [onCandle]. *)
Record t : Type := mk {
  ws : bool;
  candleBuffers : list (string * list Candle.t);
  candleCallbacks : list nat;
  reconnectAttempts : Z;
  isRunning : bool;
  pollingInterval : bool;
  pollingLive : bool;
  reconnectTimers : list Z;
  connections : nat;
  delivered : list (nat * Candle.t)
}.

Definition constructor : t :=
  {| ws := false;
     candleBuffers := fold_left (fun m symbol => map_set symbol [] m) symbols [];
     candleCallbacks := [];
     reconnectAttempts := 0%Z;
     isRunning := false;
     pollingInterval := false;
     pollingLive := false;
     reconnectTimers := [];
     connections := 0%nat;
     delivered := [] |}.

Definition set_candleBuffers (this : t) (m : list (string * list Candle.t)) : t :=
  {| ws := ws this; candleBuffers := m; candleCallbacks := candleCallbacks this;
     reconnectAttempts := reconnectAttempts this; isRunning := isRunning this;
     pollingInterval := pollingInterval this; pollingLive := pollingLive this;
     reconnectTimers := reconnectTimers this; connections := connections this;
     delivered := delivered this |}.

Definition set_isRunning (this : t) (b : bool) : t :=
  {| ws := ws this; candleBuffers := candleBuffers this;
     candleCallbacks := candleCallbacks this;
     reconnectAttempts := reconnectAttempts this; isRunning := b;
     pollingInterval := pollingInterval this; pollingLive := pollingLive this;
     reconnectTimers := reconnectTimers this; connections := connections this;
     delivered := delivered this |}.

Definition set_reconnectAttempts (this : t) (n : Z) : t :=
  {| ws := ws this; candleBuffers := candleBuffers this;
     candleCallbacks := candleCallbacks this;
     reconnectAttempts := n; isRunning := isRunning this;
     pollingInterval := pollingInterval this; pollingLive := pollingLive this;
     reconnectTimers := reconnectTimers this; connections := connections this;
     delivered := delivered this |}.

Definition onCandle (this : t) (callback : nat) : t :=
  {| ws := ws this; candleBuffers := candleBuffers this;
     candleCallbacks := candleCallbacks this ++ [callback];
     reconnectAttempts := reconnectAttempts this; isRunning := isRunning this;
     pollingInterval := pollingInterval this; pollingLive := pollingLive this;
     reconnectTimers := reconnectTimers this; connections := connections this;
     delivered := delivered this |}.

(** [candleCallbacks.forEach(cb => cb(candle))]; what a callback throws
    is caught and logged. *)
Definition notify (this : t) (candle : Candle.t) : t :=
  {| ws := ws this; candleBuffers := candleBuffers this;
     candleCallbacks := candleCallbacks this;
     reconnectAttempts := reconnectAttempts this; isRunning := isRunning this;
     pollingInterval := pollingInterval this; pollingLive := pollingLive this;
     reconnectTimers := reconnectTimers this; connections := connections this;
     delivered :=
       delivered this ++ map (fun callback => (callback, candle)) (candleCallbacks this) |}.

(** [this.candleBuffers.get(symbol) || []]. *)
Definition getBuffer (this : t) (symbol : string) : list Candle.t :=
  match map_get symbol (candleBuffers this) with
  | Some buffer => buffer
  | None => []
  end.

(** [buffer.some(c => c.openTime === openTime)], and
    [buffer.findIndex(...) !== -1]. *)
Definition hasOpenTime (buffer : list Candle.t) (openTime : Z) : bool :=
  existsb (fun c => Z.eqb (Candle.openTime c) openTime) buffer.

(** [buffer.push(candle)], then [buffer.shift()] when the buffer is
    longer than [bufferSize]. *)
Definition push (buffer : list Candle.t) (candle : Candle.t) : list Candle.t :=
  let buffer1 := buffer ++ [candle] in
  if Nat.ltb bufferSize (List.length buffer1) then tl buffer1 else buffer1.

(** [buffer[buffer.length - 1] = candle] on a buffer that is not empty. *)
Definition replaceLast (buffer : list Candle.t) (candle : Candle.t) : list Candle.t :=
  removelast buffer ++ [candle].

(** [buffer.length > 0 && buffer[buffer.length - 1].openTime === openTime]. *)
Definition lastHasOpenTime (buffer : list Candle.t) (openTime : Z) : bool :=
  match rev buffer with
  | [] => false
  | c :: _ => Z.eqb (Candle.openTime c) openTime
  end.

(** [buffer.slice(-limit)]; [-0] is [0], so a limit of 0 slices from
    the start. *)
Definition getRecentCandles (this : t) (symbol : string) (limit : nat) : list Candle.t :=
  let buffer := getBuffer this symbol in
  match limit with
  | O => buffer
  | S _ => skipn (List.length buffer - limit) buffer
  end.

Definition getCurrentPrice (this : t) (symbol : string) : Q :=
  match rev (getBuffer this symbol) with
  | [] => 0
  | c :: _ => Candle.close c
  end.

(** The candle [handleKlineMessage] builds from a message. *)
Definition candleOfKline (data : Kline.msg) : Candle.t :=
  {| Candle.symbol := Kline.s data;
     Candle.interval := Kline.i data;
     Candle.openTime := Kline.t data;
     Candle.closeTime := Kline.T data;
     Candle.open := Kline.o data;
     Candle.high := Kline.h data;
     Candle.low := Kline.l data;
     Candle.close := Kline.c data;
     Candle.volume := Kline.v data;
     Candle.isClosed := Kline.x data |}.

(** The candle the REST paths build from a row. *)
Definition candleOfRow (symbol : string) (isClosed : bool) (k : KlineRest.row)
  : Candle.t :=
  {| Candle.symbol := symbol;
     Candle.interval := interval;
     Candle.openTime := KlineRest.k0 k;
     Candle.closeTime := KlineRest.k6 k;
     Candle.open := KlineRest.k1 k;
     Candle.high := KlineRest.k2 k;
     Candle.low := KlineRest.k3 k;
     Candle.close := KlineRest.k4 k;
     Candle.volume := KlineRest.k5 k;
     Candle.isClosed := isClosed |}.

Definition handleKlineMessage (this : t) (data : Kline.msg) : t :=
  let candle := candleOfKline data in
  let buffer := getBuffer this (Candle.symbol candle) in
  if Candle.isClosed candle then
    if negb (hasOpenTime buffer (Candle.openTime candle)) then
      let buffer1 := push buffer candle in
      notify
        (set_candleBuffers this
           (map_set (Candle.symbol candle) buffer1 (candleBuffers this)))
        candle
    else this
  else
    let buffer1 :=
      if lastHasOpenTime buffer (Candle.openTime candle)
      then replaceLast buffer candle
      else push buffer candle in
    set_candleBuffers this (map_set (Candle.symbol candle) buffer1 (candleBuffers this)).

(** The body of [for (const k of data)] in the polling loop; [buffer]
    is the array read before the loop, which the loop keeps changing. *)
Definition pollKline
    (symbol : string) (now : Z) (acc : t * list Candle.t) (k : KlineRest.row)
  : t * list Candle.t :=
  let (this, buffer) := acc in
  let candle := candleOfRow symbol (Z.ltb (KlineRest.k6 k) now) k in
  if Candle.isClosed candle then
    if negb (hasOpenTime buffer (Candle.openTime candle)) then
      let buffer1 := push buffer candle in
      (notify
         (set_candleBuffers this (map_set symbol buffer1 (candleBuffers this)))
         candle,
       buffer1)
    else (this, buffer)
  else
    let buffer1 :=
      if lastHasOpenTime buffer (Candle.openTime candle)
      then replaceLast buffer candle
      else if negb (hasOpenTime buffer (Candle.openTime candle))
           then push buffer candle
           else buffer in
    (set_candleBuffers this (map_set symbol buffer1 (candleBuffers this)), buffer1).

(** The polling loop for one symbol, from the answer of its request on:
    this part runs without a suspension point. *)
Definition pollSymbol
    (this : t) (symbol : string) (response : PollResponse) (now : Z) : t :=
  match response with
  | FetchThrows => this
  | HttpNotOk => this
  | Klines data =>
      fst (fold_left (pollKline symbol now) data (this, getBuffer this symbol))
  end.

(** The callback of [setInterval] in [startPollingFallback]. *)
Definition pollingTick (this : t) (responses : string -> PollResponse) (now : Z) : t :=
  if negb (isRunning this) then
    if pollingInterval this then
      {| ws := ws this; candleBuffers := candleBuffers this;
         candleCallbacks := candleCallbacks this;
         reconnectAttempts := reconnectAttempts this; isRunning := isRunning this;
         pollingInterval := pollingInterval this; pollingLive := false;
         reconnectTimers := reconnectTimers this; connections := connections this;
         delivered := delivered this |}
    else this
  else
    fold_left (fun this1 symbol => pollSymbol this1 symbol (responses symbol) now)
              symbols this.

Definition startPollingFallback (this : t) : t :=
  {| ws := ws this; candleBuffers := candleBuffers this;
     candleCallbacks := candleCallbacks this;
     reconnectAttempts := reconnectAttempts this; isRunning := isRunning this;
     pollingInterval := true; pollingLive := true;
     reconnectTimers := reconnectTimers this; connections := connections this;
     delivered := delivered this |}.

(** [this.ws = new WebSocket(wsUrl)]; the handlers it registers are
    [onOpen], [onMessage] and [onClose] below. *)
Definition connectWebSocket (this : t) : t :=
  {| ws := true; candleBuffers := candleBuffers this;
     candleCallbacks := candleCallbacks this;
     reconnectAttempts := reconnectAttempts this; isRunning := isRunning this;
     pollingInterval := pollingInterval this; pollingLive := pollingLive this;
     reconnectTimers := reconnectTimers this; connections := S (connections this);
     delivered := delivered this |}.

Definition scheduleReconnect (this : t) : t :=
  if Z.leb maxReconnectAttempts (reconnectAttempts this) then set_isRunning this false
  else
    let attempts := (reconnectAttempts this + 1)%Z in
    let delay := Z.min (baseReconnectDelay * 2 ^ (attempts - 1)) 30000 in
    {| ws := ws this; candleBuffers := candleBuffers this;
       candleCallbacks := candleCallbacks this;
       reconnectAttempts := attempts; isRunning := isRunning this;
       pollingInterval := pollingInterval this; pollingLive := pollingLive this;
       reconnectTimers := reconnectTimers this ++ [delay];
       connections := connections this;
       delivered := delivered this |}.

(** [ws.on('open')]. *)
Definition onOpen (this : t) : t := set_reconnectAttempts this 0%Z.

(** [ws.on('message')]: [None] is a message that does not parse or is
    not a kline event. *)
Definition onMessage (this : t) (message : option Kline.msg) : t :=
  match message with
  | Some data => handleKlineMessage this data
  | None => this
  end.

(** [ws.on('close')]. *)
Definition onClose (this : t) : t :=
  if isRunning this then scheduleReconnect this else this.

(** The callback of [setTimeout] in [scheduleReconnect]. *)
Definition reconnectTimeout (this : t) : t :=
  if isRunning this then connectWebSocket this else this.

(** [fetchHistoricalWithRetry] per symbol leaves either the candles of
    an answer ([Some]) or, after the last failed attempt, nothing. *)
Definition fetchHistorical
    (this : t) (symbol : string) (answer : option (list KlineRest.row)) : t :=
  match answer with
  | None => this
  | Some data =>
      let candles := map (candleOfRow symbol true) data in
      set_candleBuffers this (map_set symbol candles (candleBuffers this))
  end.

Definition start (this : t) (historical : string -> option (list KlineRest.row)) : t :=
  if isRunning this then this
  else
    let this1 := set_isRunning this true in
    let this2 :=
      fold_left (fun this' symbol => fetchHistorical this' symbol (historical symbol))
                symbols this1 in
    startPollingFallback (connectWebSocket this2).

Definition stop (this : t) : t :=
  if negb (isRunning this) then this
  else
    {| ws := false; candleBuffers := candleBuffers this;
       candleCallbacks := candleCallbacks this;
       reconnectAttempts := reconnectAttempts this; isRunning := false;
       pollingInterval := false;
       pollingLive := if pollingInterval this then false else pollingLive this;
       reconnectTimers := reconnectTimers this; connections := connections this;
       delivered := delivered this |}.

(** What can happen to a started service. *)
Inductive Event : Type :=
| WsOpen
| WsMessage (message : option Kline.msg)
| WsClose
| ReconnectTimer
| PollTimer (responses : string -> PollResponse) (now : Z).

(** A timer that is not pending does not fire. *)
Definition step (this : t) (e : Event) : t :=
  match e with
  | WsOpen => onOpen this
  | WsMessage message => onMessage this message
  | WsClose => onClose this
  | ReconnectTimer =>
      match reconnectTimers this with
      | [] => this
      | _ :: timers =>
          reconnectTimeout
            {| ws := ws this; candleBuffers := candleBuffers this;
               candleCallbacks := candleCallbacks this;
               reconnectAttempts := reconnectAttempts this; isRunning := isRunning this;
               pollingInterval := pollingInterval this; pollingLive := pollingLive this;
               reconnectTimers := timers; connections := connections this;
               delivered := delivered this |}
      end
  | PollTimer responses now =>
      if pollingLive this then pollingTick this responses now else this
  end.

Definition run (this : t) (events : list Event) : t := fold_left step events this.

End BinanceService.

(** ** StrategyService (services/strategy.ts, the multi-signal version) *)

Module StrategyService.

Record t : Type := mk {
  config : TradingConfig.t;
  lastSignalTime : list (string * Z)
}.

Definition constructor (config : TradingConfig.t) : t :=
  {| config := config; lastSignalTime := [] |}.

Definition noCandle : Candle.t :=
  {| Candle.symbol := ""%string; Candle.interval := ""%string;
     Candle.openTime := 0%Z; Candle.closeTime := 0%Z;
     Candle.open := 0; Candle.high := 0; Candle.low := 0; Candle.close := 0;
     Candle.volume := 0; Candle.isClosed := false |}.

(** [candles[candles.length - k]].  Every use below comes after a test
    that the array is long enough: [evaluate] throws on an empty array
    before any detector runs, and the detectors that read further back
    test [candles.length] first. *)
Definition fromEnd (candles : list Candle.t) (k : nat) : Candle.t :=
  nth (List.length candles - k) candles noCandle.

(** [Math.max(...xs)] and [Math.min(...xs)], used on ten values. *)
Definition maxOf (xs : list Q) : Q :=
  match xs with [] => 0 | x :: xs' => fold_left qmax xs' x end.
Definition minOf (xs : list Q) : Q :=
  match xs with [] => 0 | x :: xs' => fold_left qmin xs' x end.

(** [candles.slice(-10)] and [candles.slice(-20, -10)]. *)
Definition lastTen (candles : list Candle.t) : list Candle.t :=
  skipn (List.length candles - 10) candles.
Definition previousTen (candles : list Candle.t) : list Candle.t :=
  firstn 10 (skipn (List.length candles - 20) candles).

(** Zero cooldown - always ready to trade. *)
Definition canTrade (this : t) (symbol : string) (candles : list Candle.t) : bool :=
  true.

Definition updateLastSignalTime
    (this : t) (symbol : string) (candles : list Candle.t) : t :=
  {| config := config this;
     lastSignalTime :=
       map_set symbol (Candle.openTime (fromEnd candles 1)) (lastSignalTime this) |}.

Definition calculateStrength (indicators : Indicators.t) : SignalStrength :=
  let adx14 := Indicators.adx14 indicators in
  let volumeRatio := Indicators.volumeRatio indicators in
  let ema9 := Indicators.ema9 indicators in
  let ema21 := Indicators.ema21 indicators in
  let ema50 := Indicators.ema50 indicators in
  let emasAligned :=
    (Qltb ema21 ema9 && Qltb ema50 ema21) || (Qltb ema9 ema21 && Qltb ema21 ema50) in
  if Qltb 25 adx14 && Qltb 1.5 volumeRatio && emasAligned then strong
  else if Qltb 15 adx14 || Qltb 1.2 volumeRatio then moderate
  else weak.

Definition createSignal
    (uuid : string) (symbol : string) (candles : list Candle.t)
    (indicators : Indicators.t) (regime : RegimeState.t) (direction : Direction)
    (stopLoss takeProfit : Q) (rr : jsnum) (reason : string) : TradeSignal.t :=
  let currentPrice := Candle.close (fromEnd candles 1) in
  {| TradeSignal.id := uuid;
     TradeSignal.symbol := symbol;
     TradeSignal.timestamp := Candle.closeTime (fromEnd candles 1);
     TradeSignal.direction := Dir direction;
     TradeSignal.strength := calculateStrength indicators;
     TradeSignal.entryPrice := currentPrice;
     TradeSignal.stopLoss := stopLoss;
     TradeSignal.takeProfit := takeProfit;
     TradeSignal.riskRewardRatio := rr;
     TradeSignal.reason := reason;
     TradeSignal.indicators := indicators;
     TradeSignal.regime := regime |}.

(** A detector: [null] or a signal. *)
Definition Detector : Type :=
  string -> string -> list Candle.t -> Indicators.t -> RegimeState.t
  -> option TradeSignal.t.

(** STRATEGY 1: EMA crossover. *)
Definition checkEMACrossover : Detector :=
  fun uuid symbol candles indicators regime =>
  if Nat.ltb (List.length candles) 3 then None
  else
    let currentPrice := Candle.close (fromEnd candles 1) in
    let prevClose := Candle.close (fromEnd candles 2) in
    let ema9 := Indicators.ema9 indicators in
    let ema21 := Indicators.ema21 indicators in
    let atr14 := Indicators.atr14 indicators in
    if Qltb ema21 ema9 && Qltb prevClose ema21 && Qltb ema21 currentPrice then
      let stopLoss := currentPrice - atr14 * 1.5 in
      let takeProfit := currentPrice + atr14 * 3 in
      let rr := jsdiv (takeProfit - currentPrice) (currentPrice - stopLoss) in
      Some (createSignal uuid symbol candles indicators regime LONG stopLoss takeProfit rr
              "EMA crossover bullish")
    else if Qltb ema9 ema21 && Qltb ema21 prevClose && Qltb currentPrice ema21 then
      let stopLoss := currentPrice + atr14 * 1.5 in
      let takeProfit := currentPrice - atr14 * 3 in
      let rr := jsdiv (currentPrice - takeProfit) (stopLoss - currentPrice) in
      Some (createSignal uuid symbol candles indicators regime SHORT stopLoss takeProfit rr
              "EMA crossover bearish")
    else None.

(** STRATEGY 2: RSI reversal. *)
Definition checkRSIReversal : Detector :=
  fun uuid symbol candles indicators regime =>
  let currentPrice := Candle.close (fromEnd candles 1) in
  let rsi14 := Indicators.rsi14 indicators in
  let atr14 := Indicators.atr14 indicators in
  if Qltb rsi14 48 then
    let stopLoss := currentPrice - atr14 * 1.5 in
    let takeProfit := currentPrice + atr14 * 2.5 in
    let rr := jsdiv (takeProfit - currentPrice) (currentPrice - stopLoss) in
    Some (createSignal uuid symbol candles indicators regime LONG stopLoss takeProfit rr
            "RSI oversold reversal")
  else if Qltb 52 rsi14 then
    let stopLoss := currentPrice + atr14 * 1.5 in
    let takeProfit := currentPrice - atr14 * 2.5 in
    let rr := jsdiv (currentPrice - takeProfit) (stopLoss - currentPrice) in
    Some (createSignal uuid symbol candles indicators regime SHORT stopLoss takeProfit rr
            "RSI overbought reversal")
  else None.

(** The two sides of the later detectors have one shape: a condition,
    then a signal when the risk:reward reaches a floor; the short side
    is tried when the long side gives nothing. *)
Definition side
    (condition : bool) (rr : jsnum) (floor : Q) (signal : TradeSignal.t)
  : option TradeSignal.t :=
  if condition then (if js_ge rr floor then Some signal else None) else None.

Definition orElse (a b : option TradeSignal.t) : option TradeSignal.t :=
  match a with Some signal => Some signal | None => b end.

(** STRATEGY 3: momentum breakout. *)
Definition checkMomentumBreakout : Detector :=
  fun uuid symbol candles indicators regime =>
  if Nat.ltb (List.length candles) 5 then None
  else
    let current := fromEnd candles 1 in
    let atr14 := Indicators.atr14 indicators in
    let volumeRatio := Indicators.volumeRatio indicators in
    let ema9 := Indicators.ema9 indicators in
    if Qltb volumeRatio 0.8 then None
    else
      let bodySize := Qabs (Candle.close current - Candle.open current) in
      let candleRange := Candle.high current - Candle.low current in
      let bodyRatio := if Qltb 0 candleRange then bodySize / candleRange else 0 in
      if Qltb bodyRatio 0.3 then None
      else
        orElse
          (let stopLoss := Candle.low current - atr14 * 0.5 in
           let takeProfit := Candle.close current + atr14 * 2 in
           let rr := jsdiv (takeProfit - Candle.close current)
                           (Candle.close current - stopLoss) in
           side (Qltb (Candle.open current) (Candle.close current)
                 && Qltb ema9 (Candle.close current))
                rr 0.5
                (createSignal uuid symbol candles indicators regime LONG
                   stopLoss takeProfit rr "Momentum breakout LONG"))
          (let stopLoss := Candle.high current + atr14 * 0.5 in
           let takeProfit := Candle.close current - atr14 * 2 in
           let rr := jsdiv (Candle.close current - takeProfit)
                           (stopLoss - Candle.close current) in
           side (Qltb (Candle.close current) (Candle.open current)
                 && Qltb (Candle.close current) ema9)
                rr 0.5
                (createSignal uuid symbol candles indicators regime SHORT
                   stopLoss takeProfit rr "Momentum breakout SHORT")).

(** STRATEGY 4: structure break. *)
Definition checkStructureBreak : Detector :=
  fun uuid symbol candles indicators regime =>
  if Nat.ltb (List.length candles) 20 then None
  else
    let currentPrice := Candle.close (fromEnd candles 1) in
    let ema21 := Indicators.ema21 indicators in
    let atr14 := Indicators.atr14 indicators in
    let rsi14 := Indicators.rsi14 indicators in
    let recent := lastTen candles in
    let previous := previousTen candles in
    let recentHigh := maxOf (map Candle.high recent) in
    let recentLow := minOf (map Candle.low recent) in
    let prevHigh := maxOf (map Candle.high previous) in
    let prevLow := minOf (map Candle.low previous) in
    orElse
      (let stopLoss := recentLow - atr14 * 0.3 in
       let takeProfit := currentPrice + atr14 * 2.5 in
       let rr := jsdiv (takeProfit - currentPrice) (currentPrice - stopLoss) in
       side (Qltb prevHigh recentHigh && Qltb ema21 currentPrice && Qltb rsi14 72)
            rr 0.5
            (createSignal uuid symbol candles indicators regime LONG
               stopLoss takeProfit rr "Structure break bullish"))
      (let stopLoss := recentHigh + atr14 * 0.3 in
       let takeProfit := currentPrice - atr14 * 2.5 in
       let rr := jsdiv (currentPrice - takeProfit) (stopLoss - currentPrice) in
       side (Qltb recentLow prevLow && Qltb currentPrice ema21 && Qltb 28 rsi14)
            rr 0.5
            (createSignal uuid symbol candles indicators regime SHORT
               stopLoss takeProfit rr "Structure break bearish")).

(** STRATEGY 5: EMA bounce. *)
Definition checkEMABounce : Detector :=
  fun uuid symbol candles indicators regime =>
  if Nat.ltb (List.length candles) 5 then None
  else
    let current := fromEnd candles 1 in
    let prev := fromEnd candles 2 in
    let ema21 := Indicators.ema21 indicators in
    let atr14 := Indicators.atr14 indicators in
    let rsi14 := Indicators.rsi14 indicators in
    if Qltb rsi14 20 || Qltb 80 rsi14 then None
    else
      let distanceToEMA := Qabs (Candle.close current - ema21) in
      let proximityThreshold := atr14 * 1.5 in
      if Qltb proximityThreshold distanceToEMA then None
      else
        orElse
          (let stopLoss := Candle.low current - atr14 * 0.8 in
           let takeProfit := Candle.close current + atr14 * 1.8 in
           let rr := jsdiv (takeProfit - Candle.close current)
                           (Candle.close current - stopLoss) in
           side (Qltb (Candle.close prev) ema21
                 && Qle_bool (ema21 * 0.999) (Candle.close current))
                rr 0.5
                (createSignal uuid symbol candles indicators regime LONG
                   stopLoss takeProfit rr "EMA bounce bullish"))
          (let stopLoss := Candle.high current + atr14 * 0.8 in
           let takeProfit := Candle.close current - atr14 * 1.8 in
           let rr := jsdiv (Candle.close current - takeProfit)
                           (stopLoss - Candle.close current) in
           side (Qltb ema21 (Candle.close prev)
                 && Qle_bool (Candle.close current) (ema21 * 1.001))
                rr 0.5
                (createSignal uuid symbol candles indicators regime SHORT
                   stopLoss takeProfit rr "EMA bounce bearish")).

(** STRATEGY 6: mean reversion. *)
Definition checkMeanReversion : Detector :=
  fun uuid symbol candles indicators regime =>
  if Nat.ltb (List.length candles) 10 then None
  else
    let current := fromEnd candles 1 in
    let ema50 := Indicators.ema50 indicators in
    let atr14 := Indicators.atr14 indicators in
    let rsi14 := Indicators.rsi14 indicators in
    let deviation := Candle.close current - ema50 in
    let deviationATR := jsdiv (Qabs deviation) atr14 in
    if js_lt deviationATR 1.0 then None
    else
      let targetDistance := Qabs deviation * 0.5 in
      orElse
        (let stopLoss := Candle.close current - atr14 * 1.2 in
         let takeProfit := Candle.close current + targetDistance in
         let rr := jsdiv targetDistance (Candle.close current - stopLoss) in
         side (Qltb deviation 0 && Qltb rsi14 45
               && Qltb (Candle.close (fromEnd candles 2)) (Candle.close current))
              rr 0.5
              (createSignal uuid symbol candles indicators regime LONG
                 stopLoss takeProfit rr "Mean reversion LONG"))
        (let stopLoss := Candle.close current + atr14 * 1.2 in
         let takeProfit := Candle.close current - targetDistance in
         let rr := jsdiv targetDistance (stopLoss - Candle.close current) in
         side (Qltb 0 deviation && Qltb 55 rsi14
               && Qltb (Candle.close current) (Candle.close (fromEnd candles 2)))
              rr 0.5
              (createSignal uuid symbol candles indicators regime SHORT
                 stopLoss takeProfit rr "Mean reversion SHORT")).

(** STRATEGY 7: candle trend. *)
Definition checkCandleTrend : Detector :=
  fun uuid symbol candles indicators regime =>
  if Nat.ltb (List.length candles) 3 then None
  else
    let current := fromEnd candles 1 in
    let prev := fromEnd candles 2 in
    let prev2 := fromEnd candles 3 in
    let atr14 := Indicators.atr14 indicators in
    let rsi14 := Indicators.rsi14 indicators in
    let bullish :=
      (Qltb (Candle.open current) (Candle.close current)
       && Qltb (Candle.open prev) (Candle.close prev))
      || (Qltb (Candle.close prev) (Candle.close current)
          && Qltb (Candle.close prev) (Candle.close prev2)) in
    let bearish :=
      (Qltb (Candle.close current) (Candle.open current)
       && Qltb (Candle.close prev) (Candle.open prev))
      || (Qltb (Candle.close current) (Candle.close prev)
          && Qltb (Candle.close prev2) (Candle.close prev)) in
    orElse
      (let stopLoss := qmin (Candle.low current) (Candle.low prev) - atr14 * 0.3 in
       let takeProfit := Candle.close current + atr14 * 1.5 in
       let rr := jsdiv (takeProfit - Candle.close current)
                       (Candle.close current - stopLoss) in
       side (bullish && Qltb rsi14 70) rr 0.5
            (createSignal uuid symbol candles indicators regime LONG
               stopLoss takeProfit rr "Candle trend LONG"))
      (let stopLoss := qmax (Candle.high current) (Candle.high prev) + atr14 * 0.3 in
       let takeProfit := Candle.close current - atr14 * 1.5 in
       let rr := jsdiv (Candle.close current - takeProfit)
                       (stopLoss - Candle.close current) in
       side (bearish && Qltb 30 rsi14) rr 0.5
            (createSignal uuid symbol candles indicators regime SHORT
               stopLoss takeProfit rr "Candle trend SHORT")).

(** STRATEGY 8: quick scalp. *)
Definition checkQuickScalp : Detector :=
  fun uuid symbol candles indicators regime =>
  if Nat.ltb (List.length candles) 2 then None
  else
    let current := fromEnd candles 1 in
    let ema9 := Indicators.ema9 indicators in
    let atr14 := Indicators.atr14 indicators in
    let bodySize := Qabs (Candle.close current - Candle.open current) in
    let minBody := atr14 * 0.15 in
    if Qltb bodySize minBody then None
    else
      orElse
        (let stopLoss := Candle.low current - atr14 * 0.3 in
         let takeProfit := Candle.close current + atr14 * 1.0 in
         let rr := jsdiv (takeProfit - Candle.close current)
                         (Candle.close current - stopLoss) in
         side (Qltb (Candle.open current) (Candle.close current)
               && Qle_bool (ema9 * 0.998) (Candle.close current))
              rr 0.4
              (createSignal uuid symbol candles indicators regime LONG
                 stopLoss takeProfit rr "Quick scalp LONG"))
        (let stopLoss := Candle.high current + atr14 * 0.3 in
         let takeProfit := Candle.close current - atr14 * 1.0 in
         let rr := jsdiv (Candle.close current - takeProfit)
                         (stopLoss - Candle.close current) in
         side (Qltb (Candle.close current) (Candle.open current)
               && Qle_bool (Candle.close current) (ema9 * 1.002))
              rr 0.4
              (createSignal uuid symbol candles indicators regime SHORT
                 stopLoss takeProfit rr "Quick scalp SHORT")).

(** The detectors in the order of the [||] chain of [evaluate]. *)
Definition detectors : list Detector :=
  [checkEMACrossover; checkRSIReversal; checkMomentumBreakout; checkStructureBreak;
   checkEMABounce; checkMeanReversion; checkCandleTrend; checkQuickScalp].

(** [d1(...) || d2(...) || ...]: the first signal, and no later
    detector is run. *)
Fixpoint firstSignal
    (ds : list Detector) (uuid symbol : string) (candles : list Candle.t)
    (indicators : Indicators.t) (regime : RegimeState.t) : option TradeSignal.t :=
  match ds with
  | [] => None
  | d :: ds' =>
      match d uuid symbol candles indicators regime with
      | Some signal => Some signal
      | None => firstSignal ds' uuid symbol candles indicators regime
      end
  end.

(** What [evaluate] does: it returns ([null] or a signal), or it throws,
    which it does on an empty [candles]. *)
Inductive Evaluated : Type :=
| Returned (this' : t) (signal : option TradeSignal.t)
| Threw.

Definition evaluate
    (this : t) (uuid symbol : string) (candles : list Candle.t)
    (indicators : Indicators.t) (regime : RegimeState.t) : Evaluated :=
  match RegimeState.decision regime with
  | DANGER => Returned this None
  | _ =>
      if negb (canTrade this symbol candles) then Returned this None
      else
        match candles with
        | [] => Threw
        | _ :: _ =>
            match firstSignal detectors uuid symbol candles indicators regime with
            | Some signal =>
                Returned (updateLastSignalTime this symbol candles) (Some signal)
            | None => Returned this None
            end
        end
  end.

End StrategyService.

(** ** LLMFilterService (services/llm-filter.ts) *)

Module NewsItem.
Inductive Sentiment : Type := positive | negative | neutral.
Record t : Type := mk {
  title : string;
  source : string;
  url : string;
  publishedAt : string;
  sentiment : Sentiment
}.
End NewsItem.

Module LLMFilterService.

(** The object [JSON.parse] returns.  A field is [None] when the test
    of the validation fails on it: [decision] and [reasoning] when they
    are missing or falsy, [confidence] when it is not a number.
    [decision] is kept as the text the model wrote. *)
Record LLMResponse : Type := mkResponse {
  decision : option string;
  confidence : option Q;
  reasoning : option string;
  delayMinutes : option Q
}.

(** What is thrown: an [Error] with its message, or another value. *)
Inductive Thrown : Type :=
| AnError (message : string)
| NotAnError.

(** What the request to the model and the reading of its answer come
    to, inside the [try] of [evaluateSignal]. *)
Inductive Completion : Type :=
| CreateRejects (error : Thrown)
| NoContent
| ParseThrows (error : Thrown)
| Parsed (llmResponse : LLMResponse).

Definition readDecision (text : string) : LLMDecision :=
  if String.eqb text "APPROVE" then APPROVE
  else if String.eqb text "REJECT" then REJECT
  else if String.eqb text "DELAY" then DELAY
  else Unchecked text.

Definition errorMessage (error : Thrown) : string :=
  match error with
  | AnError message => message
  | NotAnError => "Unknown error"%string
  end.

(** The [catch] of [evaluateSignal]. *)
Definition onError
    (signal : TradeSignal.t) (news : list NewsItem.t) (now : Z) (error : Thrown)
  : LLMFilterResult.t :=
  {| LLMFilterResult.signalId := TradeSignal.id signal;
     LLMFilterResult.decision := APPROVE;
     LLMFilterResult.confidence := 0.5;
     LLMFilterResult.reasoning :=
       ("LLM evaluation failed: " ++ errorMessage error ++ ". Proceeding with caution.")%string;
     LLMFilterResult.delayMinutes := None;
     LLMFilterResult.newsContext := map NewsItem.title (firstn 10 news);
     LLMFilterResult.timestamp := now |}.

(** [Math.max(0, Math.min(1, confidence))]. *)
Definition clamp01 (confidence : Q) : Q :=
  qmax 0 (qmin 1 confidence).

(** [rateLimit] only delays the call and is left out. *)
Definition evaluateSignal
    (signal : TradeSignal.t) (news : list NewsItem.t)
    (completion : Completion) (now : Z) : LLMFilterResult.t :=
  match completion with
  | CreateRejects error => onError signal news now error
  | NoContent => onError signal news now (AnError "Empty response from OpenAI")
  | ParseThrows error => onError signal news now error
  | Parsed llmResponse =>
      match decision llmResponse, confidence llmResponse, reasoning llmResponse with
      | Some d, Some c, Some r =>
          {| LLMFilterResult.signalId := TradeSignal.id signal;
             LLMFilterResult.decision := readDecision d;
             LLMFilterResult.confidence := clamp01 c;
             LLMFilterResult.reasoning := r;
             LLMFilterResult.delayMinutes := delayMinutes llmResponse;
             LLMFilterResult.newsContext := map NewsItem.title (firstn 10 news);
             LLMFilterResult.timestamp := now |}
      | _, _, _ =>
          onError signal news now (AnError "Invalid LLM response structure")
      end
  end.

(** The completions on which the [try] block throws. *)
Definition fails (completion : Completion) : bool :=
  match completion with
  | CreateRejects _ => true
  | NoContent => true
  | ParseThrows _ => true
  | Parsed llmResponse =>
      match decision llmResponse, confidence llmResponse, reasoning llmResponse with
      | Some _, Some _, Some _ => false
      | _, _, _ => true
      end
  end.

End LLMFilterService.

(** ** TradingEngine (services/engine.ts): steps 9 and 10 of [onCandleClosed] *)

Module TradingEngine.

(** Step 10: execute the trade if the LLM approves.  [None] is the
    non-finite position size of [openPosition]. *)
Definition executeIfApproved
    (trader : TraderService.t) (signal : TradeSignal.t) (currentPrice : Q)
    (llmDecision : LLMFilterResult.t) (uuid : string) (now : Z)
  : option (TraderService.t * option Position.t) :=
  match LLMFilterResult.decision llmDecision with
  | APPROVE =>
      TraderService.executeTrade trader signal currentPrice uuid now
  | _ => Some (trader, None)
  end.

(** Steps 9 and 10: ask the approval gate, then act on its answer. *)
Definition filterAndExecute
    (trader : TraderService.t) (signal : TradeSignal.t) (currentPrice : Q)
    (news : list NewsItem.t) (completion : LLMFilterService.Completion)
    (uuid : string) (now : Z)
  : option (TraderService.t * option Position.t) :=
  executeIfApproved trader signal currentPrice
    (LLMFilterService.evaluateSignal signal news completion now) uuid now.

End TradingEngine.

(** ** Scenarios: the concrete inputs of the examples below *)

Module Scenario.

Definition indicators : Indicators.t :=
  {| Indicators.symbol := "BTCUSDT"%string; Indicators.timestamp := 0%Z;
     Indicators.ema9 := 100; Indicators.ema21 := 100; Indicators.ema50 := 100;
     Indicators.rsi14 := 40; Indicators.atr14 := 2; Indicators.atrPercent := 2;
     Indicators.adx14 := 20; Indicators.volumeSma20 := 10;
     Indicators.volumeRatio := 1;
     Indicators.lastSwingHigh := 105; Indicators.lastSwingLow := 95 |}.

Definition regime : RegimeState.t :=
  {| RegimeState.symbol := "BTCUSDT"%string; RegimeState.timestamp := 0%Z;
     RegimeState.volatility := vol_normal; RegimeState.trend := neutral;
     RegimeState.decision := TRADE_ALLOWED;
     RegimeState.fearGreedIndex := 50;
     RegimeState.fearGreedLabel := "Neutral"%string;
     RegimeState.reason := ""%string |}.

(** A LONG signal: entry 100, stop 98, target 104. *)
Definition signal : TradeSignal.t :=
  {| TradeSignal.id := "signal-1"%string;
     TradeSignal.symbol := "BTCUSDT"%string;
     TradeSignal.timestamp := 0%Z;
     TradeSignal.direction := Dir LONG;
     TradeSignal.strength := moderate;
     TradeSignal.entryPrice := 100;
     TradeSignal.stopLoss := 98;
     TradeSignal.takeProfit := 104;
     TradeSignal.riskRewardRatio := Fin 2;
     TradeSignal.reason := "RSI oversold reversal"%string;
     TradeSignal.indicators := indicators;
     TradeSignal.regime := regime |}.


(** A new portfolio under [DEFAULT_CONFIG]: capital 10000, risk 2%,
    at most 15% per position, commission 0.1%. *)
Definition portfolio : PortfolioService.t :=
  PortfolioService.constructor DEFAULT_CONFIG.

(** A LONG position: entry 100, quantity 10. *)
Definition position : Position.t :=
  {| Position.id := "position-1"%string;
     Position.symbol := "BTCUSDT"%string;
     Position.direction := LONG;
     Position.entryPrice := 100;
     Position.currentPrice := 100;
     Position.quantity := 10;
     Position.entryTime := 0%Z;
     Position.stopLoss := 98;
     Position.takeProfit := 110;
     Position.unrealizedPnL := - 1;
     Position.unrealizedPnLPercent := Fin (- 0.1);
     Position.signalId := "signal-1"%string |}.

(** A portfolio that holds [position]: 10000 of capital, 1001 paid. *)
Definition holding : PortfolioService.t :=
  {| PortfolioService.config := DEFAULT_CONFIG;
     PortfolioService.totalEquity := 10000;
     PortfolioService.availableCash := 8999;
     PortfolioService.positions := [position];
     PortfolioService.closedTrades := [];
     PortfolioService.initialCapital := 10000 |}.

(** A trader that holds [position] (target 110) with its trailing stop
    active at 111.44 = 112 * 0.995: a price of 110.5 is at the target
    and under the trailing stop at once. *)
Definition trader : TraderService.t :=
  {| TraderService.portfolio := holding;
     TraderService.config := DEFAULT_CONFIG;
     TraderService.trailingStops :=
       [("position-1"%string,
         {| TrailingStopState.isActive := true;
            TrailingStopState.activationPrice := 101;
            TrailingStopState.highestPrice := 112;
            TrailingStopState.lowestPrice := 100;
            TrailingStopState.currentStop := 111.44 |})] |}.

(** The price that meets both rules, for every symbol of [position]. *)
Definition atTarget : Prices := [("BTCUSDT"%string, 110.5)].

(** A trader that holds [position] with its trailing stop not yet
    active, as [executeTrade] leaves it, and three price updates: up to
    102 (the stop activates and moves to 101.49), up to 104 (103.48),
    back to 103.7 (the stop stays). *)
Definition armed : TraderService.t :=
  {| TraderService.portfolio := holding;
     TraderService.config := DEFAULT_CONFIG;
     TraderService.trailingStops :=
       [("position-1"%string,
         {| TrailingStopState.isActive := false;
            TrailingStopState.activationPrice := 0;
            TrailingStopState.highestPrice := 100;
            TrailingStopState.lowestPrice := 100;
            TrailingStopState.currentStop := 98 |})] |}.

Definition rise : list (Prices * Z) := [([("BTCUSDT"%string, 102)], 1%Z)].

Definition riseAndFall : list (Prices * Z) :=
  [([("BTCUSDT"%string, 104)], 2%Z); ([("BTCUSDT"%string, 103.7)], 3%Z)].

(** Open at 100, mark at 103, close at 110, then close again. *)
Definition operations : list PortfolioService.Op :=
  [PortfolioService.Open signal 100 "position-1"%string 0%Z;
   PortfolioService.Update [("BTCUSDT"%string, 103)];
   PortfolioService.Close "position-1"%string 110 take_profit 1%Z;
   PortfolioService.Close "position-1"%string 110 manual 2%Z].

(** A trader with a new portfolio. *)
Definition idle : TraderService.t :=
  TraderService.constructor portfolio DEFAULT_CONFIG.

(** *** The strategy *)

(** [DEFAULT_CONFIG] with a cooldown of two candles. *)
Definition cooldownConfig : TradingConfig.t :=
  {| TradingConfig.symbols := TradingConfig.symbols DEFAULT_CONFIG;
     TradingConfig.interval := TradingConfig.interval DEFAULT_CONFIG;
     TradingConfig.initialCapital := TradingConfig.initialCapital DEFAULT_CONFIG;
     TradingConfig.maxPositionPercent := TradingConfig.maxPositionPercent DEFAULT_CONFIG;
     TradingConfig.maxOpenPositions := TradingConfig.maxOpenPositions DEFAULT_CONFIG;
     TradingConfig.commissionRate := TradingConfig.commissionRate DEFAULT_CONFIG;
     TradingConfig.cooldownCandles := 2;
     TradingConfig.riskPerTradePercent := TradingConfig.riskPerTradePercent DEFAULT_CONFIG;
     TradingConfig.trailingStopActivation :=
       TradingConfig.trailingStopActivation DEFAULT_CONFIG;
     TradingConfig.trailingStopDistance :=
       TradingConfig.trailingStopDistance DEFAULT_CONFIG |}.

Definition strategy : StrategyService.t := StrategyService.constructor cooldownConfig.

(** One closed candle; with [indicators] (RSI 40, ATR 2) the RSI
    reversal fires on it. *)
Definition candle : Candle.t :=
  {| Candle.symbol := "BTCUSDT"%string; Candle.interval := "5m"%string;
     Candle.openTime := 0%Z; Candle.closeTime := 299999%Z;
     Candle.open := 99; Candle.high := 101; Candle.low := 98; Candle.close := 100;
     Candle.volume := 10; Candle.isClosed := true |}.

(** *** The market feed *)

(** A started service with one registered callback; the historical
    fetch found nothing. *)
Definition feed : BinanceService.t :=
  BinanceService.onCandle
    (BinanceService.start BinanceService.constructor (fun _ => None)) 0%nat.

(** The candle that opens at 0 and closes at 899999, while it is in
    progress and once it is closed, as the stream sends it. *)
Definition inProgress : Kline.msg :=
  {| Kline.t := 0%Z; Kline.T := 899999%Z;
     Kline.s := "BTCUSDT"%string; Kline.i := "15m"%string;
     Kline.o := 100; Kline.c := 101; Kline.h := 102; Kline.l := 99;
     Kline.v := 5; Kline.x := false |}.

Definition closed : Kline.msg :=
  {| Kline.t := 0%Z; Kline.T := 899999%Z;
     Kline.s := "BTCUSDT"%string; Kline.i := "15m"%string;
     Kline.o := 100; Kline.c := 103; Kline.h := 104; Kline.l := 99;
     Kline.v := 12; Kline.x := true |}.

(** The same closed candle as a row of the REST answer, read at
    [pollTime], after it closed. *)
Definition closedRow : KlineRest.row :=
  {| KlineRest.k0 := 0%Z; KlineRest.k1 := 100; KlineRest.k2 := 104;
     KlineRest.k3 := 99; KlineRest.k4 := 103; KlineRest.k5 := 12;
     KlineRest.k6 := 899999%Z |}.

Definition pollTime : Z := 930000%Z.

Definition answers : string -> PollResponse :=
  fun symbol =>
    if String.eqb symbol "BTCUSDT" then Klines [closedRow] else Klines [].

(** Ten reconnects, each one closed again, and the close after them. *)
Definition outage : list BinanceService.Event :=
  List.concat (repeat [BinanceService.WsClose; BinanceService.ReconnectTimer] 10)
  ++ [BinanceService.WsClose].

End Scenario.

(** ** What a call of [evaluate] produced *)

Module Produced.

(** The signal of a call that returned; [None] for a call that threw. *)
Definition signal (e : StrategyService.Evaluated) : option (option TradeSignal.t) :=
  match e with
  | StrategyService.Returned _ s => Some s
  | StrategyService.Threw => None
  end.

End Produced.

(** ** Well-formed inputs of the portfolio *)

Module WellFormed.

(** The capital is not negative, the commission rate is at most 1, the
    risk and position fractions are not negative. *)
Definition configOk (config : TradingConfig.t) : bool :=
  Qle_bool 0 (TradingConfig.initialCapital config)
  && Qle_bool (TradingConfig.commissionRate config) 1
  && Qle_bool 0 (TradingConfig.riskPerTradePercent config)
  && Qle_bool 0 (TradingConfig.maxPositionPercent config).

(** Every price an operation brings is not negative. *)
Definition opOk (op : PortfolioService.Op) : bool :=
  match op with
  | PortfolioService.Open signal currentPrice _ _ =>
      Qle_bool 0 (TradeSignal.entryPrice signal) && Qle_bool 0 currentPrice
  | PortfolioService.Update prices => forallb (fun kv => Qle_bool 0 (snd kv)) prices
  | PortfolioService.Close _ exitPrice _ _ => Qle_bool 0 exitPrice
  end.

End WellFormed.

(** ** The exit rules in the words of the specification

    "Exit evaluation priority, checked in this fixed order, first match
    wins: take-profit hit, trailing stop hit (only if trailing is
    active), static stop-loss hit." *)

Module ExitSpec.

Definition takeProfitHit (position : Position.t) (currentPrice : Q) : bool :=
  match Position.direction position with
  | LONG => Qle_bool (Position.takeProfit position) currentPrice
  | SHORT => Qle_bool currentPrice (Position.takeProfit position)
  end.

Definition trailingStopHit
    (position : Position.t) (currentPrice : Q) (trailingState : TrailingStopState.t)
  : bool :=
  TrailingStopState.isActive trailingState
  && match Position.direction position with
     | LONG => Qle_bool currentPrice (TrailingStopState.currentStop trailingState)
     | SHORT => Qle_bool (TrailingStopState.currentStop trailingState) currentPrice
     end.

Definition stopLossHit (position : Position.t) (currentPrice : Q) : bool :=
  match Position.direction position with
  | LONG => Qle_bool currentPrice (Position.stopLoss position)
  | SHORT => Qle_bool (Position.stopLoss position) currentPrice
  end.

(** The reason of the first rule that matches. *)
Fixpoint firstMatch (rules : list (bool * TradeExitReason)) : option TradeExitReason :=
  match rules with
  | [] => None
  | (true, reason) :: _ => Some reason
  | (false, _) :: rules' => firstMatch rules'
  end.

Definition exitReason
    (position : Position.t) (currentPrice : Q) (trailingState : TrailingStopState.t)
  : option TradeExitReason :=
  firstMatch
    [(takeProfitHit position currentPrice, take_profit);
     (trailingStopHit position currentPrice trailingState, trailing_stop);
     (stopLossHit position currentPrice, stop_loss)].

End ExitSpec.

(** ** Properties of the portfolio *)

Module PortfolioSpec.
Import PortfolioService.

Definition value (pos : Position.t) : Q :=
  Position.quantity pos * Position.currentPrice pos.

Definition sumValue (m : list Position.t) : Q :=
  fold_left (fun sum pos => sum + Position.quantity pos * Position.currentPrice pos) m 0.

(** The identity of the portfolio: cash plus the value of the open
    positions is the total equity. *)
Definition identity (this : t) : Prop :=
  availableCash this + getPositionsValue this == totalEquity this.

(** What every portfolio reached under well-formed inputs satisfies. *)
Definition sound (this : t) : Prop :=
  WellFormed.configOk (config this) = true
  /\ 0 <= availableCash this
  /\ 0 <= totalEquity this
  /\ Forall (fun p => 0 <= Position.quantity p /\ 0 <= Position.currentPrice p)
            (positions this).

End PortfolioSpec.

(** ** Properties of the trailing stops *)

Module TrailingSpec.
Import TraderService.

(** [tighter d s1 s2]: the stop of [s2] is where the stop of [s1] is or
    on its favourable side: not lower for LONG, not higher for SHORT. *)
Definition tighter (d : Direction) (s1 s2 : TrailingStopState.t) : Prop :=
  match d with
  | LONG => TrailingStopState.currentStop s1 <= TrailingStopState.currentStop s2
  | SHORT => TrailingStopState.currentStop s2 <= TrailingStopState.currentStop s1
  end.

(** Every open position with this id is on side [d]. *)
Definition sides (this : t) (id : string) (d : Direction) : Prop :=
  forall p, In p (PortfolioService.positions (portfolio this)) ->
            Position.id p = id -> Position.direction p = d.

End TrailingSpec.

(** ** IndicatorService (services/indicators.ts)

    Every [period] is 9, 21, 50, 14 or 20 in the calls of [calculate];
    the source divides by it, so what is proved of these functions takes
    [period] positive.  [calculateATR], [calculateATRPercent] and
    [calculateADX] get three arrays mapped from one list of candles, so
    of one length, and [calculateATRPercent] a list that is not empty. *)

Module IndicatorService.

(** [data.reduce((sum, val) => sum + val, 0)]. *)
Definition total (data : list Q) : Q := fold_left Qplus data 0.

(** [data[data.length - 1]] of an array that is not empty. *)
Definition lastOf (data : list Q) : Q := List.last data 0.

Definition Qnat (n : nat) : Q := inject_Z (Z.of_nat n).

Definition getDefaultIndicators (symbol : string) (timestamp : Z) : Indicators.t :=
  {| Indicators.symbol := symbol; Indicators.timestamp := timestamp;
     Indicators.ema9 := 0; Indicators.ema21 := 0; Indicators.ema50 := 0;
     Indicators.rsi14 := 50; Indicators.atr14 := 0; Indicators.atrPercent := 0;
     Indicators.adx14 := 0; Indicators.volumeSma20 := 0; Indicators.volumeRatio := 1;
     Indicators.lastSwingHigh := 0; Indicators.lastSwingLow := 0 |}.

Definition calculateEMA (data : list Q) (period : nat) : Q :=
  if Nat.ltb (List.length data) period then
    if Nat.ltb 0 (List.length data) then lastOf data else 0
  else
    let multiplier := 2 / (Qnat period + 1) in
    let ema := total (firstn period data) / Qnat period in
    fold_left (fun ema x => (x - ema) * multiplier + ema) (skipn period data) ema.

Definition calculateSMA (data : list Q) (period : nat) : Q :=
  let period := if Nat.ltb (List.length data) period then List.length data else period in
  if Nat.eqb period 0 then 0
  else
    let slice := skipn (List.length data - period) data in
    total slice / Qnat period.

(** [closes[i] - closes[i - 1]] for [i] from 1. *)
Fixpoint changesOf (closes : list Q) : list Q :=
  match closes with
  | a :: (b :: _) as rest => (b - a) :: changesOf rest
  | _ => []
  end.

(** Wilder's smoothing of an average over the values that follow. *)
Definition wilder (period : nat) (avg : Q) (values : list Q) : Q :=
  fold_left (fun avg x => (avg * (Qnat period - 1) + x) / Qnat period) values avg.

Definition calculateRSI (closes : list Q) (period : nat) : Q :=
  if Nat.ltb (List.length closes) (period + 1) then 50
  else
    let changes := changesOf closes in
    let gains := map (fun c => if Qltb 0 c then c else 0) changes in
    let losses := map (fun c => if Qltb c 0 then Qabs c else 0) changes in
    let avgGain :=
      wilder period (total (firstn period gains) / Qnat period) (skipn period gains) in
    let avgLoss :=
      wilder period (total (firstn period losses) / Qnat period) (skipn period losses) in
    if Qeq_bool avgLoss 0 then 100
    else
      let rs := avgGain / avgLoss in
      100 - 100 / (1 + rs).

(** The true ranges, for [i] from 1:
    [max(high - low, |high - prevClose|, |low - prevClose|)]. *)
Fixpoint trueRangesOf (highs lows closes : list Q) : list Q :=
  match highs, lows, closes with
  | _ :: ((high :: _) as highs'), _ :: ((low :: _) as lows'), prevClose :: closes' =>
      qmax (qmax (high - low) (Qabs (high - prevClose))) (Qabs (low - prevClose))
      :: trueRangesOf highs' lows' closes'
  | _, _, _ => []
  end.

Definition calculateATR (highs lows closes : list Q) (period : nat) : Q :=
  if Nat.ltb (List.length highs) (period + 1) then 0
  else
    let trueRanges := trueRangesOf highs lows closes in
    wilder period (total (firstn period trueRanges) / Qnat period)
           (skipn period trueRanges).

Definition calculateATRPercent (highs lows closes : list Q) (period : nat) : Q :=
  let atr := calculateATR highs lows closes period in
  let currentPrice := lastOf closes in
  if Qeq_bool currentPrice 0 then 0 else atr / currentPrice * 100.

(** [+DM] and [-DM], for [i] from 1. *)
Fixpoint plusDMOf (highs lows : list Q) : list Q :=
  match highs, lows with
  | prevHigh :: ((high :: _) as highs'), prevLow :: ((low :: _) as lows') =>
      let highDiff := high - prevHigh in
      let lowDiff := prevLow - low in
      (if Qltb lowDiff highDiff && Qltb 0 highDiff then highDiff else 0)
      :: plusDMOf highs' lows'
  | _, _ => []
  end.

Fixpoint minusDMOf (highs lows : list Q) : list Q :=
  match highs, lows with
  | prevHigh :: ((high :: _) as highs'), prevLow :: ((low :: _) as lows') =>
      let highDiff := high - prevHigh in
      let lowDiff := prevLow - low in
      (if Qltb highDiff lowDiff && Qltb 0 lowDiff then lowDiff else 0)
      :: minusDMOf highs' lows'
  | _, _ => []
  end.

(** [smooth = smooth - smooth / period + value] over the values that
    follow. *)
Definition smoothed (period : nat) (start : Q) (values : list Q) : Q :=
  fold_left (fun smooth x => smooth - smooth / Qnat period + x) values start.

Definition calculateADX (highs lows closes : list Q) (period : nat) : Q :=
  if Nat.ltb (List.length highs) (period + 1) then 0
  else
    let plusDM := plusDMOf highs lows in
    let minusDM := minusDMOf highs lows in
    let trueRanges := trueRangesOf highs lows closes in
    let smoothPlusDM := smoothed period (total (firstn period plusDM)) (skipn period plusDM) in
    let smoothMinusDM :=
      smoothed period (total (firstn period minusDM)) (skipn period minusDM) in
    let smoothTR :=
      smoothed period (total (firstn period trueRanges)) (skipn period trueRanges) in
    let plusDI := if Qeq_bool smoothTR 0 then 0 else smoothPlusDM / smoothTR * 100 in
    let minusDI := if Qeq_bool smoothTR 0 then 0 else smoothMinusDM / smoothTR * 100 in
    let diSum := plusDI + minusDI in
    if Qeq_bool diSum 0 then 0 else Qabs (plusDI - minusDI) / diSum * 100.

Definition calculateVolumeRatio (volumes : list Q) (period : nat) : Q :=
  if Nat.ltb (List.length volumes) 2 then 1
  else
    let sma := calculateSMA volumes period in
    let currentVolume := lastOf volumes in
    if Qeq_bool sma 0 then 1 else currentVolume / sma.

(** The test of a pivot at index [i] of [values]: [beats v other] for
    every value of the [lookback] places on its left and on its right
    (the source breaks at the first that fails). *)
Definition isPivot
    (beats : Q -> Q -> bool) (values : list Q) (lookback i : nat) : bool :=
  let current := nth i values 0 in
  forallb (fun j => beats current (nth j values 0)) (seq (i - lookback) lookback)
  && forallb (fun j => beats current (nth j values 0)) (seq (i + 1) lookback).

(** The indices of the loop, from [length - 1 - lookback] down to
    [lookback]. *)
Definition pivotIndices (length lookback : nat) : list nat :=
  rev (seq lookback (length - 2 * lookback)).

Definition findLastSwingHigh (candles : list Candle.t) (lookback : nat) : Q :=
  let highs := map Candle.high candles in
  if Nat.ltb (List.length candles) (lookback * 2 + 1) then
    if Nat.ltb 0 (List.length candles) then StrategyService.maxOf highs else 0
  else
    match find (isPivot (fun current other => Qltb other current) highs lookback)
               (pivotIndices (List.length candles) lookback) with
    | Some i => nth i highs 0
    | None => StrategyService.maxOf highs
    end.

Definition findLastSwingLow (candles : list Candle.t) (lookback : nat) : Q :=
  let lows := map Candle.low candles in
  if Nat.ltb (List.length candles) (lookback * 2 + 1) then
    if Nat.ltb 0 (List.length candles) then StrategyService.minOf lows else 0
  else
    match find (isPivot (fun current other => Qltb current other) lows lookback)
               (pivotIndices (List.length candles) lookback) with
    | Some i => nth i lows 0
    | None => StrategyService.minOf lows
    end.

Definition calculate (symbol : string) (candles : list Candle.t) (now : Z)
  : Indicators.t :=
  let timestamp := now in
  if Nat.ltb (List.length candles) 2 then getDefaultIndicators symbol timestamp
  else
    let closes := map Candle.close candles in
    let highs := map Candle.high candles in
    let lows := map Candle.low candles in
    let volumes := map Candle.volume candles in
    {| Indicators.symbol := symbol;
       Indicators.timestamp := timestamp;
       Indicators.ema9 := calculateEMA closes 9;
       Indicators.ema21 := calculateEMA closes 21;
       Indicators.ema50 := calculateEMA closes 50;
       Indicators.rsi14 := calculateRSI closes 14;
       Indicators.atr14 := calculateATR highs lows closes 14;
       Indicators.atrPercent := calculateATRPercent highs lows closes 14;
       Indicators.adx14 := calculateADX highs lows closes 14;
       Indicators.volumeSma20 := calculateSMA volumes 20;
       Indicators.volumeRatio := calculateVolumeRatio volumes 20;
       Indicators.lastSwingHigh := findLastSwingHigh candles 5;
       Indicators.lastSwingLow := findLastSwingLow candles 5 |}.

End IndicatorService.

(** ** Vocabulary of the statements about the indicators *)

Module IndicatorSpec.


(** No close is below the one before it. *)
Definition neverFalls (closes : list Q) : Prop := Sorted Qle closes.

(** Every close is below the one before it. *)
Definition alwaysFalls (closes : list Q) : Prop :=
  Sorted (fun previous next => next < previous) closes.

End IndicatorSpec.

(** ** RegimeService (services/regime.ts)

    [toFixed] and the printing of a number in a template string are
    arguments: the texts of [generateReason] are built around them. *)

Module RegimeService.

Definition classifyVolatility (atrPercent : Q) : VolatilityRegime :=
  if Qltb atrPercent (1 # 2) then vol_low
  else if Qltb atrPercent (5 # 2) then vol_normal
  else if Qltb atrPercent 5 then vol_high
  else vol_extreme.

(** [price ?? indicators.ema9]: [None] is the argument left out. *)
Definition classifyTrend (indicators : Indicators.t) (price : option Q) : TrendRegime :=
  let ema9 := Indicators.ema9 indicators in
  let ema21 := Indicators.ema21 indicators in
  let ema50 := Indicators.ema50 indicators in
  let adx14 := Indicators.adx14 indicators in
  let currentPrice := match price with Some p => p | None => Indicators.ema9 indicators end in
  if Qltb ema9 currentPrice && Qltb ema21 ema9 && Qltb ema50 ema21 && Qltb 25 adx14
  then strong_up
  else if Qltb ema21 currentPrice && Qltb ema21 ema9 then up
  else if Qltb currentPrice ema9 && Qltb ema9 ema21 && Qltb ema21 ema50 && Qltb 25 adx14
  then strong_down
  else if Qltb currentPrice ema21 && Qltb ema9 ema21 then down
  else
    let emaAlignment := jsdiv (Qabs (ema9 - ema21)) ema21 in
    if js_lt emaAlignment (3 # 1000) || Qltb adx14 15 then neutral
    else neutral.

Definition makeDecision
    (volatility : VolatilityRegime) (trend : TrendRegime) (fearGreedIndex : Q)
  : MarketDecision :=
  match volatility with
  | vol_extreme => if Qltb fearGreedIndex 10 then DANGER else TRADE_ALLOWED
  | _ => TRADE_ALLOWED
  end.

Definition getFearGreedLabel (index : Q) : string :=
  if Qle_bool index 20 then "Extreme Fear"
  else if Qle_bool index 40 then "Fear"
  else if Qle_bool index 60 then "Neutral"
  else if Qle_bool index 80 then "Greed"
  else "Extreme Greed".

Section Texts.

Variable toFixed : nat -> Q -> string.
Variable toString : Q -> string.

Definition generateReason
    (volatility : VolatilityRegime) (trend : TrendRegime) (decision : MarketDecision)
    (indicators : Indicators.t) (fearGreedIndex : Q) : string :=
  let atr := toFixed 2 (Indicators.atrPercent indicators) in
  let adx := toFixed 1 (Indicators.adx14 indicators) in
  let rsi := toFixed 1 (Indicators.rsi14 indicators) in
  let parts : list string := [] in
  let parts :=
    parts ++
    [match volatility with
     | vol_extreme => "Extreme volatility (ATR " ++ atr ++ "%)"
     | vol_high => "High volatility (ATR " ++ atr ++ "%)"
     | vol_low => "Low volatility (ATR " ++ atr ++ "%)"
     | vol_normal => "Normal volatility (ATR " ++ atr ++ "%)"
     end%string] in
  let parts :=
    parts ++
    [match trend with
     | strong_up => "strong uptrend (ADX " ++ adx ++ ")"
     | up => "uptrend"
     | strong_down => "strong downtrend (ADX " ++ adx ++ ")"
     | down => "downtrend"
     | neutral => "no clear trend (ADX " ++ adx ++ ")"
     end%string] in
  let parts :=
    if Qltb 70 (Indicators.rsi14 indicators)
    then parts ++ ["overbought (RSI " ++ rsi ++ ")"]%string
    else if Qltb (Indicators.rsi14 indicators) 30
    then parts ++ ["oversold (RSI " ++ rsi ++ ")"]%string
    else parts in
  let parts :=
    if Qltb fearGreedIndex 20
    then parts ++ ["extreme fear (" ++ toString fearGreedIndex ++ ")"]%string
    else if Qltb 80 fearGreedIndex
    then parts ++ ["extreme greed (" ++ toString fearGreedIndex ++ ")"]%string
    else parts in
  let decisionReason :=
    match decision with
    | DANGER => "DANGER - Risk too high to trade"
    | WAIT => "WAIT - No clear edge"
    | TRADE_ALLOWED => "TRADE_ALLOWED - Conditions acceptable"
    end%string in
  (decisionReason ++ ". " ++ String.concat ", " parts ++ ".")%string.

Definition evaluate
    (symbol : string) (indicators : Indicators.t) (fearGreedIndex : Q)
    (currentPrice : option Q) (now : Z) : RegimeState.t :=
  let timestamp := now in
  let volatility := classifyVolatility (Indicators.atrPercent indicators) in
  let trend := classifyTrend indicators currentPrice in
  let decision := makeDecision volatility trend fearGreedIndex in
  let reason := generateReason volatility trend decision indicators fearGreedIndex in
  let fearGreedLabel := getFearGreedLabel fearGreedIndex in
  {| RegimeState.symbol := symbol;
     RegimeState.timestamp := timestamp;
     RegimeState.volatility := volatility;
     RegimeState.trend := trend;
     RegimeState.decision := decision;
     RegimeState.fearGreedIndex := fearGreedIndex;
     RegimeState.fearGreedLabel := fearGreedLabel;
     RegimeState.reason := reason |}.

End Texts.

End RegimeService.

(** ** Market situations used as examples *)

Module Market.

(** A market in panic: the ATR is 6% of the price; the averages are
    stacked downwards under a strong ADX. *)
Definition panic : Indicators.t :=
  {| Indicators.symbol := "BTCUSDT"%string; Indicators.timestamp := 0%Z;
     Indicators.ema9 := 95; Indicators.ema21 := 100; Indicators.ema50 := 105;
     Indicators.rsi14 := 20; Indicators.atr14 := 6; Indicators.atrPercent := 6;
     Indicators.adx14 := 40; Indicators.volumeSma20 := 10;
     Indicators.volumeRatio := 3;
     Indicators.lastSwingHigh := 110; Indicators.lastSwingLow := 90 |}.

(** A SHORT signal: entry 100, stop 102, target 96. *)
Definition shortSignal : TradeSignal.t :=
  {| TradeSignal.id := "signal-3"%string;
     TradeSignal.symbol := "BTCUSDT"%string;
     TradeSignal.timestamp := 0%Z;
     TradeSignal.direction := Dir SHORT;
     TradeSignal.strength := moderate;
     TradeSignal.entryPrice := 100;
     TradeSignal.stopLoss := 102;
     TradeSignal.takeProfit := 96;
     TradeSignal.riskRewardRatio := Fin 2;
     TradeSignal.reason := "RSI overbought reversal"%string;
     TradeSignal.indicators := Scenario.indicators;
     TradeSignal.regime := Scenario.regime |}.

(** Printing left out: every number prints as the empty text. *)
Definition silentFixed (digits : nat) (x : Q) : string := EmptyString.
Definition silent (x : Q) : string := EmptyString.

End Market.

(** ** Vocabulary of the statements about the trader over its life *)

Module TraderSpec.
Import TraderService.

(** The two calls the engine makes on the trader, and a trader driven
    through a sequence of them.  [None]: an [executeTrade] met the
    non-finite position size. *)
Inductive Call : Type :=
| Execute (signal : TradeSignal.t) (currentPrice : Q) (uuid : string) (now : Z)
| Check (prices : Prices) (now : Z).

Definition call (this : t) (c : Call) : option t :=
  match c with
  | Execute signal currentPrice uuid now =>
      match executeTrade this signal currentPrice uuid now with
      | Some (this', _) => Some this'
      | None => None
      end
  | Check prices now => Some (fst (checkExits this prices now))
  end.

Fixpoint calls (this : t) (cs : list Call) : option t :=
  match cs with
  | [] => Some this
  | c :: cs' =>
      match call this c with
      | Some this' => calls this' cs'
      | None => None
      end
  end.

(** Every open position has a trailing stop state under its id. *)
Definition covered (this : t) : Prop :=
  forall p, In p (PortfolioService.getOpenPositions (portfolio this)) ->
            getTrailingStopState this (Position.id p) <> None.

(** [prices] has no usable price for the position: none at all, or 0
    ([!currentPrice]). *)
Definition unpriced (prices : Prices) (p : Position.t) : Prop :=
  match map_get (Position.symbol p) prices with
  | None => True
  | Some currentPrice => currentPrice == 0
  end.

(** From [s] to [s']: an active stop is still active, and the highest
    and lowest prices have only moved outwards. *)
Definition widened (s s' : TrailingStopState.t) : Prop :=
  (TrailingStopState.isActive s = true -> TrailingStopState.isActive s' = true)
  /\ TrailingStopState.highestPrice s <= TrailingStopState.highestPrice s'
  /\ TrailingStopState.lowestPrice s' <= TrailingStopState.lowestPrice s.

End TraderSpec.

(** ** Vocabulary of the statements about the market feed *)

Module FeedSpec.
Import BinanceService.


(** The reconnect counter is between 0 and the maximum, and every
    reconnect delay scheduled so far is between the base delay and 30
    seconds. *)
Definition backoff (this : t) : Prop :=
  (0 <= reconnectAttempts this <= maxReconnectAttempts)%Z
  /\ Forall (fun delay => (baseReconnectDelay <= delay <= 30000)%Z) (reconnectTimers this).

End FeedSpec.

(** ** Vocabulary of the statements about the signals *)

Module SignalSpec.

(** The geometry of a signal made on [candles]: it enters at the close
    of the last candle, its stop and its target are on the two sides
    of the entry that fit its direction, and its risk:reward ratio is
    a finite number of at least 0.4. *)
Definition geometry (candles : list Candle.t) (signal : TradeSignal.t) : Prop :=
  TradeSignal.entryPrice signal = Candle.close (StrategyService.fromEnd candles 1)
  /\ match TradeSignal.direction signal with
     | Dir LONG =>
         TradeSignal.stopLoss signal < TradeSignal.entryPrice signal
         /\ TradeSignal.entryPrice signal < TradeSignal.takeProfit signal
     | Dir SHORT =>
         TradeSignal.takeProfit signal < TradeSignal.entryPrice signal
         /\ TradeSignal.entryPrice signal < TradeSignal.stopLoss signal
     | NEUTRAL => False
     end
  /\ exists ratio, TradeSignal.riskRewardRatio signal = Fin ratio /\ 0.4 <= ratio.

(** A rising market: twenty candles 99/101/98/100 and a last one
    that opens at 100 and closes at 103. *)
Definition lastCandle : Candle.t :=
  {| Candle.symbol := "BTCUSDT"%string; Candle.interval := "5m"%string;
     Candle.openTime := 300000%Z; Candle.closeTime := 599999%Z;
     Candle.open := 100; Candle.high := 104; Candle.low := 99; Candle.close := 103;
     Candle.volume := 20; Candle.isClosed := true |}.

Definition candles : list Candle.t := repeat Scenario.candle 20 ++ [lastCandle].

End SignalSpec.

(** ** TradingEngine (services/engine.ts): the log of errors

    The two fields [handleError] works on, [status] and [errors].  The
    time stamp [new Date().toISOString()] and the message of the error
    ([error.message] or [String(error)]) are arguments. *)

Module EngineErrors.

Inductive EngineStatus : Type := starting | running | paused | error.

Record t : Type := mk {
  status : EngineStatus;
  errors : list string
}.

(** What [handleError] is called with. *)
Record Failure : Type := mkFailure {
  stamp : string;
  message : string;
  errorMsg : string
}.

(** [`${new Date().toISOString()}: ${message} - ${errorMsg}`]. *)
Definition line (failure : Failure) : string :=
  (stamp failure ++ ": " ++ message failure ++ " - " ++ errorMsg failure)%string.

(** [xs.slice(-n)] for a positive [n]. *)
Definition lastOnes (n : nat) (xs : list string) : list string :=
  skipn (List.length xs - n) xs.

Definition handleError (this : t) (failure : Failure) : t :=
  let errors1 := errors this ++ [line failure] in
  let errors2 :=
    if Nat.ltb 100 (List.length errors1) then lastOnes 100 errors1 else errors1 in
  {| status := if Nat.ltb 50 (List.length errors2) then error else status this;
     errors := errors2 |}.

(** The [errors] of [getState]: the last 10. *)
Definition shownErrors (this : t) : list string := lastOnes 10 (errors this).

(** An engine that meets one failure after the other. *)
Definition handleErrors (this : t) (failures : list Failure) : t :=
  fold_left handleError failures this.

(** A running engine with an empty log, and a failure. *)
Definition healthy : t := {| status := running; errors := [] |}.

Definition timeout : Failure :=
  {| stamp := "2026-01-01T00:00:00.000Z"; message := "Error processing candle for BTCUSDT";
     errorMsg := "timeout" |}.

End EngineErrors.

(** * Proofs *)

(** ** Numbers *)

Lemma Qltb_true (a b : Q) : Qltb a b = true <-> a < b.
Proof.
  unfold Qltb. rewrite negb_true_iff.
  split; intro H.
  - apply Qnot_le_lt. intro Hle. apply Qle_bool_iff in Hle. congruence.
  - destruct (Qle_bool b a) eqn:E; [|reflexivity].
    apply Qle_bool_iff in E. exfalso. apply (Qlt_not_le _ _ H E).
Qed.

Lemma Qltb_false (a b : Q) : Qltb a b = false <-> b <= a.
Proof.
  unfold Qltb. rewrite negb_false_iff. apply Qle_bool_iff.
Qed.

Lemma Qeq_bool_false (a b : Q) : Qeq_bool a b = false <-> ~ a == b.
Proof.
  split.
  - intros H Heq. apply Qeq_bool_iff in Heq. congruence.
  - intro H. destruct (Qeq_bool a b) eqn:E; [|reflexivity].
    apply Qeq_bool_iff in E. contradiction.
Qed.

Lemma truthy_true (x : Q) : truthy x = true <-> ~ x == 0.
Proof. unfold truthy. rewrite negb_true_iff. apply Qeq_bool_false. Qed.

Lemma Qle_bool_false (a b : Q) : Qle_bool a b = false <-> b < a.
Proof.
  rewrite <- Qltb_true. unfold Qltb. rewrite negb_true_iff. reflexivity.
Qed.

Ltac qbool :=
  repeat match goal with
    | H : Qltb _ _ = true |- _ => apply Qltb_true in H
    | H : Qltb _ _ = false |- _ => apply Qltb_false in H
    | H : Qle_bool _ _ = true |- _ => apply Qle_bool_iff in H
    | H : Qle_bool _ _ = false |- _ => apply Qle_bool_false in H
    | H : Qeq_bool _ _ = true |- _ => apply Qeq_bool_iff in H
    | H : Qeq_bool _ _ = false |- _ => apply Qeq_bool_false in H
    end.

(** ** The value of the open positions *)

Module PortfolioFacts.
Import PortfolioService PortfolioSpec.

Lemma fold_value_from (m : list Position.t) (a : Q) :
  fold_left (fun sum pos => sum + Position.quantity pos * Position.currentPrice pos) m a
  == a + sumValue m.
Proof.
  unfold sumValue. revert a.
  induction m as [|p m IH]; intro a; simpl.
  - lra.
  - rewrite (IH (a + _)), (IH (0 + _)). unfold value. lra.
Qed.

Lemma sumValue_cons (p : Position.t) (m : list Position.t) :
  sumValue (p :: m) == value p + sumValue m.
Proof.
  unfold sumValue at 1. simpl. rewrite fold_value_from. unfold value. lra.
Qed.

Lemma sumValue_app (m1 m2 : list Position.t) :
  sumValue (m1 ++ m2) == sumValue m1 + sumValue m2.
Proof.
  induction m1 as [|p m1 IH]; simpl.
  - unfold sumValue at 2. simpl. lra.
  - rewrite !sumValue_cons, IH. lra.
Qed.

Lemma getPositionsValue_sum (this : t) :
  getPositionsValue this = sumValue (positions this).
Proof. reflexivity. Qed.

Lemma positions_set_fresh (position : Position.t) (m : list Position.t) :
  (forall p, In p m -> Position.id p <> Position.id position) ->
  positions_set position m = m ++ [position].
Proof.
  induction m as [|p m IH]; intro Hfresh; simpl.
  - reflexivity.
  - destruct (String.eqb (Position.id p) (Position.id position)) eqn:E.
    + apply String.eqb_eq in E. exfalso. apply (Hfresh p); [left; reflexivity|exact E].
    + rewrite IH; [reflexivity|]. intros q Hq. apply Hfresh. right. exact Hq.
Qed.

Lemma sumValue_nonneg (m : list Position.t) :
  Forall (fun p => 0 <= Position.quantity p /\ 0 <= Position.currentPrice p) m ->
  0 <= sumValue m.
Proof.
  induction 1 as [|p m [Hq Hc] _ IH].
  - unfold sumValue. simpl. lra.
  - rewrite sumValue_cons. unfold value.
    pose proof (Qmult_le_0_compat _ _ Hq Hc). lra.
Qed.

Lemma updatePositions_identity (this : t) (prices : Prices) :
  identity (updatePositions this prices).
Proof. unfold identity, updatePositions, getPositionsValue. simpl. reflexivity. Qed.

Lemma closePosition_identity
    (this this' : t) (positionId : string) (exitPrice : Q)
    (exitReason : TradeExitReason) (now : Z) (trade : ClosedTrade.t) :
  closePosition this positionId exitPrice exitReason now = (this', Some trade) ->
  identity this'.
Proof.
  unfold closePosition.
  destruct (find _ (positions this)) as [position|]; [|discriminate].
  intro H. injection H as <- _.
  unfold identity, getPositionsValue. simpl. reflexivity.
Qed.

(** [openPosition] takes the entry commission out of cash and leaves
    [totalEquity] as it was. *)
Lemma openPosition_cash_value
    (this this' : t) (signal : TradeSignal.t) (currentPrice : Q)
    (uuid : string) (now : Z) (position : Position.t) :
  openPosition this signal currentPrice uuid now = Opened this' position ->
  (forall p, In p (positions this) -> Position.id p <> uuid) ->
  availableCash this' + getPositionsValue this'
  == availableCash this + getPositionsValue this
     - Position.quantity position * currentPrice
       * TradingConfig.commissionRate (config this)
  /\ totalEquity this' = totalEquity this.
Proof.
  unfold openPosition.
  destruct (negb (canOpenPosition this (TradeSignal.symbol signal))); [discriminate|].
  destruct (TradeSignal.direction signal) as [direction|]; [|discriminate].
  destruct (calculatePositionSize this _ _ direction) as [positionSize| | |];
    try discriminate.
  destruct (Qeq_bool positionSize 0); [discriminate|].
  destruct (Qltb (availableCash this) _); [discriminate|].
  intros H Hfresh. injection H as <- <-.
  split; [|reflexivity].
  rewrite !getPositionsValue_sum. cbn [positions availableCash Position.quantity].
  rewrite positions_set_fresh by (cbn [Position.id]; exact Hfresh).
  rewrite sumValue_app, sumValue_cons. unfold value. simpl.
  change (sumValue []) with 0. fold (sumValue (positions this)). lra.
Qed.

(** [closePosition] on a position it finds. *)
Lemma closePosition_found
    (this : t) (positionId : string) (exitPrice : Q)
    (exitReason : TradeExitReason) (now : Z) (position : Position.t) :
  find (fun p => String.eqb (Position.id p) positionId) (positions this)
  = Some position ->
  exists this' trade,
    closePosition this positionId exitPrice exitReason now = (this', Some trade)
    /\ ClosedTrade.id trade = Position.id position
    /\ ClosedTrade.exitPrice trade = exitPrice
    /\ ClosedTrade.exitReason trade = exitReason
    /\ closedTrades this' = closedTrades this ++ [trade].
Proof.
  intro Hfind. unfold closePosition. rewrite Hfind.
  eexists. eexists. split; [reflexivity|]. cbn. auto.
Qed.

End PortfolioFacts.

Module PortfolioProofs.
Import PortfolioService PortfolioSpec PortfolioFacts.

(** C1.  The identity [availableCash + sum (quantity * currentPrice) =
    totalEquity] after a mutation.  [updatePositions] and [closePosition]
    restore it ([updatePositions_identity], [closePosition_identity]);
    [openPosition] does not: on a new portfolio of 10000 under
    [DEFAULT_CONFIG], opening the signal (entry 100, stop 98) at 100 buys
    15 units for 1500 plus 1.5 of commission, so cash plus positions is
    9998.5 while [totalEquity] still reads 10000. *)
Theorem openPosition_leaves_totalEquity_stale :
  exists this' position,
    openPosition Scenario.portfolio Scenario.signal 100 "position-1" 0%Z
    = Opened this' position
    /\ availableCash this' + getPositionsValue this' == 9998.5
    /\ totalEquity this' == 10000
    /\ ~ identity this'.
Proof.
  eexists. eexists. split; [vm_compute; reflexivity|].
  split; [vm_compute; reflexivity|].
  split; [vm_compute; reflexivity|].
  unfold identity. vm_compute. discriminate.
Qed.

Lemma jsdiv_finite (a b : Q) : ~ b == 0 -> jsdiv a b = Fin (a / b).
Proof.
  intro Hb. unfold jsdiv. apply Qeq_bool_false in Hb. rewrite Hb. reflexivity.
Qed.



(** What an opened position records, and what it costs. *)
Lemma openPosition_opened
    (this this' : t) (signal : TradeSignal.t) (currentPrice : Q)
    (uuid : string) (now : Z) (position : Position.t) :
  openPosition this signal currentPrice uuid now = Opened this' position ->
  exists direction,
    TradeSignal.direction signal = Dir direction
    /\ calculatePositionSize this (TradeSignal.entryPrice signal)
         (TradeSignal.stopLoss signal) direction
       = Fin (Position.quantity position)
    /\ ~ Position.quantity position == 0
    /\ Position.entryPrice position = currentPrice
    /\ Position.currentPrice position = currentPrice
    /\ Position.id position = uuid
    /\ positions this' = positions_set position (positions this)
    /\ config this' = config this
    /\ totalEquity this' = totalEquity this
    /\ closedTrades this' = closedTrades this
    /\ availableCash this'
       = availableCash this
         - (Position.quantity position * currentPrice
            + Position.quantity position * currentPrice
              * TradingConfig.commissionRate (config this))
    /\ Position.quantity position * currentPrice
       + Position.quantity position * currentPrice
         * TradingConfig.commissionRate (config this)
       <= availableCash this.
Proof.
  unfold openPosition.
  destruct (negb (canOpenPosition this (TradeSignal.symbol signal))); [discriminate|].
  destruct (TradeSignal.direction signal) as [direction|]; [|discriminate].
  destruct (calculatePositionSize this _ _ direction) as [positionSize| | |] eqn:Esize;
    try discriminate.
  destruct (Qeq_bool positionSize 0) eqn:Ezero; [discriminate|].
  destruct (Qltb (availableCash this) _) eqn:Ecash; [discriminate|].
  intro H. injection H as <- <-. qbool.
  exists direction. cbn.
  split; [reflexivity|]. split; [exact Esize|]. split; [assumption|].
  repeat (split; [reflexivity|]). assumption.
Qed.




(** C5.  Closing a position that is found: gross P&L is
    (exit - entry) * quantity for LONG and (entry - exit) * quantity for
    SHORT; net P&L takes off the entry and the exit commission, each the
    notional of its leg times the commission rate; the outcome follows
    the sign of net P&L; cash receives the exit notional less the exit
    commission; the trade is appended and the position removed.  A LONG
    with entry 100, quantity 10, closed at 110 at rate 0.1%: net P&L
    97.9, a win. *)
Theorem closePosition_accounting
    (this : t) (positionId : string) (exitPrice : Q)
    (exitReason : TradeExitReason) (now : Z) (position : Position.t) :
  find (fun p => String.eqb (Position.id p) positionId) (positions this)
  = Some position ->
  let rate := TradingConfig.commissionRate (config this) in
  let entryNotional := Position.quantity position * Position.entryPrice position in
  let exitNotional := Position.quantity position * exitPrice in
  let gross :=
    match Position.direction position with
    | LONG => (exitPrice - Position.entryPrice position) * Position.quantity position
    | SHORT => (Position.entryPrice position - exitPrice) * Position.quantity position
    end in
  exists this' trade,
    closePosition this positionId exitPrice exitReason now = (this', Some trade)
    /\ ClosedTrade.pnl trade == gross - (entryNotional * rate + exitNotional * rate)
    /\ ClosedTrade.commission trade == entryNotional * rate + exitNotional * rate
    /\ (0 < ClosedTrade.pnl trade -> ClosedTrade.outcome trade = win)
    /\ (ClosedTrade.pnl trade < 0 -> ClosedTrade.outcome trade = loss)
    /\ (ClosedTrade.pnl trade == 0 -> ClosedTrade.outcome trade = breakeven)
    /\ ClosedTrade.id trade = positionId
    /\ ClosedTrade.exitPrice trade = exitPrice
    /\ ClosedTrade.exitReason trade = exitReason
    /\ availableCash this' == availableCash this + (exitNotional - exitNotional * rate)
    /\ closedTrades this' = closedTrades this ++ [trade]
    /\ positions this' = positions_delete positionId (positions this)
    /\ find (fun p => String.eqb (Position.id p) positionId) (positions this') = None
    /\ (Position.direction position = LONG ->
        Position.entryPrice position == 100 -> Position.quantity position == 10 ->
        exitPrice == 110 -> rate == 0.001 ->
        ClosedTrade.pnl trade == 97.9 /\ ClosedTrade.outcome trade = win).
Proof.
  intros Hfind rate entryNotional exitNotional gross.
  subst rate entryNotional exitNotional gross.
  assert (Hid : Position.id position = positionId).
  { apply find_some in Hfind. apply String.eqb_eq. apply Hfind. }
  unfold closePosition. rewrite Hfind.
  eexists. eexists. split; [reflexivity|]. cbn.
  set (pnl := match Position.direction position with
              | LONG => _ | SHORT => _ end - _).
  assert (Hpnl : pnl ==
                 match Position.direction position with
                 | LONG => (exitPrice - Position.entryPrice position)
                           * Position.quantity position
                 | SHORT => (Position.entryPrice position - exitPrice)
                            * Position.quantity position
                 end
                 - (Position.quantity position * Position.entryPrice position
                    * TradingConfig.commissionRate (config this)
                    + Position.quantity position * exitPrice
                      * TradingConfig.commissionRate (config this))).
  { subst pnl. destruct (Position.direction position); ring. }
  assert (Hwin : 0 < pnl ->
                 (if Qltb 0 pnl then win else if Qltb pnl 0 then loss else breakeven)
                 = win).
  { intro H. apply Qltb_true in H. rewrite H. reflexivity. }
  split; [exact Hpnl|]. split; [reflexivity|]. split; [exact Hwin|].
  split.
  { intro H. destruct (Qltb 0 pnl) eqn:E; qbool; [lra|].
    apply Qltb_true in H. rewrite H. reflexivity. }
  split.
  { intro H. destruct (Qltb 0 pnl) eqn:E; qbool; [lra|].
    destruct (Qltb pnl 0) eqn:E'; qbool; [lra|reflexivity]. }
  split; [exact Hid|]. split; [reflexivity|]. split; [reflexivity|].
  split; [reflexivity|]. split; [reflexivity|].
  split; [rewrite Hid; reflexivity|].
  split.
  { rewrite Hid. unfold positions_delete.
    destruct (find _ (filter _ (positions this))) as [p|] eqn:E; [|reflexivity].
    apply find_some in E. destruct E as [Hin Hp].
    apply filter_In in Hin. destruct Hin as [_ Hn].
    rewrite Hp in Hn. discriminate. }
  intros Hdir Hentry Hquantity Hexit Hrate.
  assert (H : pnl == 97.9).
  { rewrite Hpnl, Hdir, Hentry, Hquantity, Hexit, Hrate. reflexivity. }
  split; [exact H|]. apply Hwin. rewrite H. reflexivity.
Qed.

Lemma closePosition_accounting_witness :
  find (fun p => String.eqb (Position.id p) "position-1") (positions Scenario.holding)
  = Some Scenario.position
  /\ (exists this' trade,
        closePosition Scenario.holding "position-1" 110 take_profit 0%Z
        = (this', Some trade)
        /\ ClosedTrade.pnl trade == 97.9
        /\ ClosedTrade.outcome trade = win
        /\ availableCash this' == 8999 + (1100 - 1.1)
        /\ positions this' = []).
Proof.
  assert (Hfind : find (fun p => String.eqb (Position.id p) "position-1")
                    (positions Scenario.holding) = Some Scenario.position)
    by reflexivity.
  split; [exact Hfind|].
  destruct (closePosition_accounting Scenario.holding "position-1" 110 take_profit
              0%Z Scenario.position Hfind)
    as (this' & trade & Hclose & _ & _ & _ & _ & _ & _ & _ & _ & Hcash & _ & Hgone
        & _ & Hexample).
  exists this', trade. split; [exact Hclose|].
  destruct Hexample as [Hpnl Hwin]; try reflexivity.
  split; [exact Hpnl|]. split; [exact Hwin|].
  split; [rewrite Hcash; reflexivity|exact Hgone].
Defined.


(** *** Cash stays non-negative *)

Lemma configOk_inv (config : TradingConfig.t) :
  WellFormed.configOk config = true ->
  0 <= TradingConfig.initialCapital config
  /\ TradingConfig.commissionRate config <= 1
  /\ 0 <= TradingConfig.riskPerTradePercent config
  /\ 0 <= TradingConfig.maxPositionPercent config.
Proof.
  unfold WellFormed.configOk. rewrite !andb_true_iff.
  intros [[[H1 H2] H3] H4]. qbool. auto.
Qed.

Lemma constructor_sound (config : TradingConfig.t) :
  WellFormed.configOk config = true -> sound (constructor config).
Proof.
  intro H. destruct (configOk_inv _ H) as (Hcap & _).
  unfold sound. cbn. auto.
Qed.

Lemma Qabs_pos (x : Q) : ~ Qabs x == 0 -> 0 < Qabs x.
Proof.
  intro H. pose proof (Qabs_nonneg x) as Hn.
  apply Qnot_le_lt. intro Hle. apply H. lra.
Qed.

(** On a sound portfolio and a non-negative entry price the size is a
    non-negative finite number. *)
Lemma calculatePositionSize_nonneg
    (this : t) (entryPrice stopLoss : Q) (direction : Direction) :
  sound this -> 0 <= entryPrice ->
  exists q, calculatePositionSize this entryPrice stopLoss direction = Fin q /\ 0 <= q.
Proof.
  intros (Hcfg & _ & Hequity & _) Hentry.
  destruct (configOk_inv _ Hcfg) as (_ & _ & Hrisk & Hfraction).
  unfold calculatePositionSize.
  destruct (Qeq_bool (Qabs (entryPrice - stopLoss)) 0) eqn:Edist.
  { exists 0. split; [reflexivity|lra]. }
  qbool. apply Qabs_pos in Edist.
  set (raw := totalEquity this * TradingConfig.riskPerTradePercent (config this)
              / Qabs (entryPrice - stopLoss)).
  set (cap := totalEquity this * TradingConfig.maxPositionPercent (config this)).
  assert (Hraw : 0 <= raw).
  { unfold raw. apply Qle_shift_div_l; [exact Edist|].
    pose proof (Qmult_le_0_compat _ _ Hequity Hrisk). lra. }
  assert (Hcap : 0 <= cap) by (apply Qmult_le_0_compat; assumption).
  unfold jsdiv.
  destruct (Qeq_bool entryPrice 0) eqn:Ezero.
  - destruct (Qltb 0 cap) eqn:E1; [exists raw; auto|].
    destruct (Qltb cap 0) eqn:E2; [qbool; lra|].
    exists raw. auto.
  - qbool. assert (Hpos : 0 < entryPrice).
    { apply Qnot_le_lt. intro Hle. apply Ezero. lra. }
    destruct (Qltb (cap / entryPrice) raw); [|exists raw; auto].
    exists (cap / entryPrice). split; [reflexivity|].
    apply Qle_shift_div_l; [exact Hpos|]. lra.
Qed.

Lemma positions_set_Forall
    (P : Position.t -> Prop) (position : Position.t) (m : list Position.t) :
  P position -> Forall P m -> Forall P (positions_set position m).
Proof.
  intros Hp. induction 1 as [|p m Hhead Hm IH]; simpl.
  - constructor; [exact Hp|constructor].
  - destruct (String.eqb (Position.id p) (Position.id position));
      constructor; assumption.
Qed.

Lemma map_get_In {V : Type} (k : string) (m : list (string * V)) (v : V) :
  map_get k m = Some v -> exists k', In (k', v) m.
Proof.
  induction m as [|[k' v'] m IH]; simpl; [discriminate|].
  destruct (String.eqb k' k).
  - intro H. injection H as <-. exists k'. left. reflexivity.
  - intro H. destruct (IH H) as [k'' Hin]. exists k''. right. exact Hin.
Qed.

Lemma updatePosition_nonneg
    (config : TradingConfig.t) (prices : Prices) (p : Position.t) :
  forallb (fun kv => Qle_bool 0 (snd kv)) prices = true ->
  0 <= Position.quantity p /\ 0 <= Position.currentPrice p ->
  0 <= Position.quantity (updatePosition config prices p)
  /\ 0 <= Position.currentPrice (updatePosition config prices p).
Proof.
  intros Hprices Hp. unfold updatePosition.
  destruct (map_get (Position.symbol p) prices) as [currentPrice|] eqn:E; [|exact Hp].
  destruct (negb (truthy currentPrice)); [exact Hp|].
  cbn. split; [apply Hp|].
  destruct (map_get_In _ _ _ E) as [k Hin].
  rewrite forallb_forall in Hprices. specialize (Hprices _ Hin).
  cbn in Hprices. qbool. exact Hprices.
Qed.

Lemma apply_sound (this : t) (op : Op) :
  sound this -> WellFormed.opOk op = true ->
  exists this', apply this op = Some this' /\ sound this'.
Proof.
  intros Hsound Hop.
  pose proof Hsound as (Hcfg & Hcash & Hequity & Hpositions).
  destruct (configOk_inv _ Hcfg) as (_ & Hrate & _ & _).
  destruct op as [signal currentPrice uuid now|prices|positionId exitPrice exitReason now];
    cbn [apply WellFormed.opOk] in *.
  - apply andb_true_iff in Hop. destruct Hop as [Hentry Hprice]. qbool.
    destruct (openPosition this signal currentPrice uuid now)
      as [this' position| |] eqn:Hopen.
    + exists this'. split; [reflexivity|].
      destruct (openPosition_opened _ _ _ _ _ _ _ Hopen)
        as (direction & _ & Hsize & _ & _ & Hcurrent & _ & Hpos & Hconfig & Htotal
            & _ & Hpaid & Hafford).
      destruct (calculatePositionSize_nonneg this (TradeSignal.entryPrice signal)
                  (TradeSignal.stopLoss signal) direction Hsound Hentry)
        as (q & Hq & Hnonneg).
      rewrite Hq in Hsize. injection Hsize as Hsame.
      unfold sound. rewrite Hconfig, Htotal, Hpaid, Hpos.
      split; [exact Hcfg|]. split; [lra|]. split; [exact Hequity|].
      apply positions_set_Forall; [|exact Hpositions].
      rewrite Hcurrent, <- Hsame. split; assumption.
    + exists this. split; [reflexivity|exact Hsound].
    + exfalso. unfold openPosition in Hopen.
      destruct (negb (canOpenPosition this (TradeSignal.symbol signal)));
        [discriminate|].
      destruct (TradeSignal.direction signal) as [direction|]; [|discriminate].
      destruct (calculatePositionSize_nonneg this (TradeSignal.entryPrice signal)
                  (TradeSignal.stopLoss signal) direction Hsound Hentry)
        as (q & Hq & _).
      rewrite Hq in Hopen.
      destruct (Qeq_bool q 0); [discriminate|].
      destruct (Qltb (availableCash this) _); discriminate.
  - eexists. split; [reflexivity|].
    assert (Hnew : Forall (fun p => 0 <= Position.quantity p
                                    /\ 0 <= Position.currentPrice p)
                     (map (updatePosition (config this) prices) (positions this))).
    { apply Forall_map. revert Hpositions. apply Forall_impl.
      intros p Hp. apply updatePosition_nonneg; assumption. }
    unfold sound, updatePositions. cbn.
    split; [exact Hcfg|]. split; [exact Hcash|]. split; [|exact Hnew].
    change (0 <= availableCash this
                 + sumValue (map (updatePosition (config this) prices)
                                 (positions this))).
    pose proof (sumValue_nonneg _ Hnew). lra.
  - qbool. eexists. split; [reflexivity|].
    unfold closePosition.
    destruct (find _ (positions this)) as [position|] eqn:Hfind; [|exact Hsound].
    assert (Hp : 0 <= Position.quantity position).
    { apply find_some in Hfind. destruct Hfind as [Hin _].
      rewrite Forall_forall in Hpositions. apply (Hpositions _ Hin). }
    assert (Hrest : Forall (fun p => 0 <= Position.quantity p
                                     /\ 0 <= Position.currentPrice p)
                      (positions_delete (Position.id position) (positions this))).
    { unfold positions_delete. rewrite Forall_forall in *.
      intros p Hin. apply filter_In in Hin. apply Hpositions. apply Hin. }
    assert (Hcredit : 0 <= Position.quantity position * exitPrice
                           - Position.quantity position * exitPrice
                             * TradingConfig.commissionRate (config this)).
    { pose proof (Qmult_le_0_compat _ _ Hp Hop) as Hvalue.
      assert (Hone : 0 <= 1 - TradingConfig.commissionRate (config this)) by lra.
      pose proof (Qmult_le_0_compat _ _ Hvalue Hone). lra. }
    unfold sound. cbn.
    split; [exact Hcfg|]. split; [lra|]. split; [|exact Hrest].
    change (0 <= availableCash this
                 + (Position.quantity position * exitPrice
                    - Position.quantity position * exitPrice
                      * TradingConfig.commissionRate (config this))
                 + sumValue (positions_delete (Position.id position) (positions this))).
    pose proof (sumValue_nonneg _ Hrest). lra.
Qed.

Lemma run_sound (ops : list Op) :
  forall this, sound this -> forallb WellFormed.opOk ops = true ->
  exists this', run this ops = Some this' /\ sound this'.
Proof.
  induction ops as [|op ops IH]; intros this Hsound Hops; simpl in *.
  - exists this. split; [reflexivity|exact Hsound].
  - apply andb_true_iff in Hops. destruct Hops as [Hop Hops].
    destruct (apply_sound this op Hsound Hop) as (this1 & Happly & Hsound1).
    rewrite Happly. apply IH; assumption.
Qed.

(** C10.  Under a well-formed configuration (capital not negative,
    commission rate at most 1, risk and position fractions not negative)
    and non-negative prices, every sequence of open, update and close
    operations on a new portfolio runs to a portfolio whose
    [availableCash] is not negative. *)
Theorem availableCash_never_negative (config : TradingConfig.t) (ops : list Op) :
  WellFormed.configOk config = true ->
  forallb WellFormed.opOk ops = true ->
  exists this', run (constructor config) ops = Some this' /\ 0 <= availableCash this'.
Proof.
  intros Hconfig Hops.
  destruct (run_sound ops _ (constructor_sound _ Hconfig) Hops)
    as (this' & Hrun & _ & Hcash & _).
  exists this'. split; assumption.
Qed.

Lemma availableCash_never_negative_witness :
  WellFormed.configOk DEFAULT_CONFIG = true
  /\ forallb WellFormed.opOk Scenario.operations = true
  /\ exists this',
       run (constructor DEFAULT_CONFIG) Scenario.operations = Some this'
       /\ 0 <= availableCash this'.
Proof.
  split; [reflexivity|]. split; [reflexivity|].
  apply availableCash_never_negative; reflexivity.
Defined.


End PortfolioProofs.

(** ** Maps *)

Section StringMapFacts.
Context {V : Type}.

Lemma map_get_set_same (k : string) (v : V) (m : list (string * V)) :
  map_get k (map_set k v m) = Some v.
Proof.
  induction m as [|[k' v'] m IH]; simpl.
  - rewrite String.eqb_refl. reflexivity.
  - destruct (String.eqb k' k) eqn:E; simpl.
    + rewrite String.eqb_refl. reflexivity.
    + rewrite E. exact IH.
Qed.

Lemma map_get_set_other (k k0 : string) (v : V) (m : list (string * V)) :
  k0 <> k -> map_get k (map_set k0 v m) = map_get k m.
Proof.
  intro Hne. apply String.eqb_neq in Hne.
  induction m as [|[k' v'] m IH]; simpl.
  - rewrite Hne. reflexivity.
  - destruct (String.eqb k' k0) eqn:E; simpl.
    + apply String.eqb_eq in E. subst k'. rewrite Hne. reflexivity.
    + destruct (String.eqb k' k); [reflexivity|exact IH].
Qed.

Lemma map_get_delete_same (k : string) (m : list (string * V)) :
  map_get k (map_delete k m) = None.
Proof.
  unfold map_delete. induction m as [|[k' v'] m IH]; simpl.
  - reflexivity.
  - destruct (String.eqb k' k) eqn:E; simpl; [exact IH|].
    rewrite E. exact IH.
Qed.

Lemma map_get_delete_other (k k0 : string) (m : list (string * V)) :
  k0 <> k -> map_get k (map_delete k0 m) = map_get k m.
Proof.
  intro Hne. unfold map_delete.
  induction m as [|[k' v'] m IH]; simpl.
  - reflexivity.
  - destruct (String.eqb k' k0) eqn:E; simpl.
    + apply String.eqb_eq in E. subst k'.
      apply String.eqb_neq in Hne. rewrite Hne. exact IH.
    + destruct (String.eqb k' k); [reflexivity|exact IH].
Qed.
End StringMapFacts.

Module TraderProofs.
Import TraderService TrailingSpec.

(** ** The ratchet *)

Lemma tighter_refl (d : Direction) (s : TrailingStopState.t) : tighter d s s.
Proof. destruct d; unfold tighter; lra. Qed.

Lemma tighter_trans (d : Direction) (s1 s2 s3 : TrailingStopState.t) :
  tighter d s1 s2 -> tighter d s2 s3 -> tighter d s1 s3.
Proof. destruct d; unfold tighter; lra. Qed.

(** One update either keeps the stop or adopts the candidate computed
    from a new extreme price, and adopts it only when it improves the
    stop. *)
Lemma trail_adopts
    (config : TradingConfig.t) (position : Position.t) (currentPrice : Q)
    (s : TrailingStopState.t) :
  let s' := trail config position currentPrice s in
  TrailingStopState.currentStop s' = TrailingStopState.currentStop s
  \/ (TrailingStopState.isActive s' = true
      /\ match Position.direction position with
         | LONG =>
             TrailingStopState.highestPrice s < currentPrice
             /\ TrailingStopState.highestPrice s' = currentPrice
             /\ TrailingStopState.currentStop s'
                = currentPrice * (1 - TradingConfig.trailingStopDistance config)
             /\ TrailingStopState.currentStop s < TrailingStopState.currentStop s'
         | SHORT =>
             currentPrice < TrailingStopState.lowestPrice s
             /\ TrailingStopState.lowestPrice s' = currentPrice
             /\ TrailingStopState.currentStop s'
                = currentPrice * (1 + TradingConfig.trailingStopDistance config)
             /\ TrailingStopState.currentStop s' < TrailingStopState.currentStop s
         end).
Proof.
  unfold trail.
  set (s1 := if negb (TrailingStopState.isActive s) && _ then _ else s).
  assert (H1 : TrailingStopState.currentStop s1 = TrailingStopState.currentStop s
               /\ TrailingStopState.highestPrice s1 = TrailingStopState.highestPrice s
               /\ TrailingStopState.lowestPrice s1 = TrailingStopState.lowestPrice s).
  { subst s1. destruct (negb (TrailingStopState.isActive s) && _); cbn; auto. }
  destruct H1 as (Hstop & Hhigh & Hlow).
  clearbody s1. cbv zeta.
  destruct (TrailingStopState.isActive s1) eqn:Eactive; [|left; exact Hstop].
  destruct (Position.direction position).
  - destruct (Qltb (TrailingStopState.highestPrice s1) currentPrice) eqn:E1;
      [|left; exact Hstop].
    cbn.
    destruct (Qltb (TrailingStopState.currentStop s1) _) eqn:E2;
      [|left; exact Hstop].
    right. qbool. rewrite <- Hhigh, <- Hstop. auto.
  - destruct (Qltb currentPrice (TrailingStopState.lowestPrice s1)) eqn:E1;
      [|left; exact Hstop].
    cbn.
    destruct (Qltb _ (TrailingStopState.currentStop s1)) eqn:E2;
      [|left; exact Hstop].
    right. qbool. rewrite <- Hlow, <- Hstop. auto.
Qed.

Lemma trail_tighter
    (config : TradingConfig.t) (position : Position.t) (currentPrice : Q)
    (s : TrailingStopState.t) :
  tighter (Position.direction position) s (trail config position currentPrice s).
Proof.
  pose proof (trail_adopts config position currentPrice s) as H. cbv zeta in H.
  unfold tighter.
  destruct H as [H|[_ H]].
  - rewrite H. destruct (Position.direction position); lra.
  - destruct (Position.direction position); destruct H as (_ & _ & _ & H); lra.
Qed.

Lemma updateTrailingStop_get
    (this : t) (position : Position.t) (currentPrice : Q) (id : string)
    (d : Direction) (s' : TrailingStopState.t) :
  (Position.id position = id -> Position.direction position = d) ->
  map_get id (trailingStops (updateTrailingStop this position currentPrice)) = Some s' ->
  exists s, map_get id (trailingStops this) = Some s /\ tighter d s s'.
Proof.
  intros Hside. unfold updateTrailingStop.
  destruct (map_get (Position.id position) (trailingStops this)) as [s0|] eqn:E.
  - cbn. destruct (String.eqb (Position.id position) id) eqn:Eid.
    + apply String.eqb_eq in Eid. rewrite <- Eid. rewrite map_get_set_same.
      intro H. injection H as <-. exists s0. split; [exact E|].
      rewrite <- (Hside Eid). apply trail_tighter.
    + apply String.eqb_neq in Eid. rewrite (map_get_set_other _ _ _ _ Eid).
      intro H. exists s'. split; [exact H|apply tighter_refl].
  - intro H. exists s'. split; [exact H|apply tighter_refl].
Qed.

Lemma updateTrailingStop_portfolio
    (this : t) (position : Position.t) (currentPrice : Q) :
  portfolio (updateTrailingStop this position currentPrice) = portfolio this.
Proof.
  unfold updateTrailingStop.
  destruct (map_get (Position.id position) (trailingStops this)); reflexivity.
Qed.

Lemma closePosition_positions
    (portfolio0 : PortfolioService.t) (positionId : string) (exitPrice : Q)
    (exitReason : TradeExitReason) (now : Z) :
  incl (PortfolioService.positions
          (fst (PortfolioService.closePosition portfolio0 positionId exitPrice
                  exitReason now)))
       (PortfolioService.positions portfolio0).
Proof.
  unfold PortfolioService.closePosition.
  destruct (find _ (PortfolioService.positions portfolio0)); cbn.
  - unfold PortfolioService.positions_delete. intros p Hin.
    apply filter_In in Hin. apply Hin.
  - apply incl_refl.
Qed.

Lemma map_get_delete_some {V : Type} (k k0 : string) (m : list (string * V)) (v : V) :
  map_get k (map_delete k0 m) = Some v -> map_get k m = Some v.
Proof.
  destruct (String.eqb k0 k) eqn:E.
  - apply String.eqb_eq in E. subst k0. rewrite map_get_delete_same. discriminate.
  - apply String.eqb_neq in E. rewrite (map_get_delete_other _ _ _ E). auto.
Qed.

(** One position of the loop of [checkExits]. *)
Lemma checkExit_get
    (prices : Prices) (now : Z) (this : t) (closed : list ClosedTrade.t)
    (position : Position.t) (id : string) (d : Direction) :
  (Position.id position = id -> Position.direction position = d) ->
  let this' := fst (checkExit prices now (this, closed) position) in
  (forall s', map_get id (trailingStops this') = Some s' ->
              exists s, map_get id (trailingStops this) = Some s /\ tighter d s s')
  /\ incl (PortfolioService.positions (portfolio this'))
          (PortfolioService.positions (portfolio this)).
Proof.
  intros Hside. unfold checkExit.
  assert (Hsame : (forall s', map_get id (trailingStops this) = Some s' ->
                     exists s, map_get id (trailingStops this) = Some s
                               /\ tighter d s s')
                  /\ incl (PortfolioService.positions (portfolio this))
                          (PortfolioService.positions (portfolio this))).
  { split; [|apply incl_refl].
    intros s' H. exists s'. split; [exact H|apply tighter_refl]. }
  destruct (map_get (Position.symbol position) prices) as [currentPrice|];
    [|exact Hsame].
  destruct (negb (truthy currentPrice)); [exact Hsame|].
  clear Hsame.
  pose proof (updateTrailingStop_get this position currentPrice id d) as Hget.
  pose proof (updateTrailingStop_portfolio this position currentPrice) as Hpf.
  set (this1 := updateTrailingStop this position currentPrice) in *.
  assert (Hkept : (forall s', map_get id (trailingStops this1) = Some s' ->
                     exists s, map_get id (trailingStops this) = Some s
                               /\ tighter d s s')
                  /\ incl (PortfolioService.positions (portfolio this1))
                          (PortfolioService.positions (portfolio this))).
  { split; [intros s' H; apply (Hget s' Hside H)|rewrite Hpf; apply incl_refl]. }
  destruct (map_get (Position.id position) (trailingStops this1)) as [trailingState|];
    [|exact Hkept].
  destruct (checkExitConditions position currentPrice trailingState) as [exitReason|];
    [|exact Hkept].
  pose proof (closePosition_positions (portfolio this1) (Position.id position)
                currentPrice exitReason now) as Hincl.
  rewrite Hpf in Hincl at 2.
  destruct (PortfolioService.closePosition (portfolio this1) (Position.id position)
              currentPrice exitReason now) as [portfolio1 [closedTrade|]]; cbn in *.
  - split; [|exact Hincl].
    intros s' H. apply map_get_delete_some in H. apply (Hget s' Hside H).
  - split; [|exact Hincl].
    intros s' H. apply (Hget s' Hside H).
Qed.

Lemma checkExit_fold_get
    (prices : Prices) (now : Z) (id : string) (d : Direction)
    (snapshot : list Position.t) :
  (forall p, In p snapshot -> Position.id p = id -> Position.direction p = d) ->
  forall (this : t) (closed : list ClosedTrade.t),
  let this' := fst (fold_left (checkExit prices now) snapshot (this, closed)) in
  (forall s', map_get id (trailingStops this') = Some s' ->
              exists s, map_get id (trailingStops this) = Some s /\ tighter d s s')
  /\ incl (PortfolioService.positions (portfolio this'))
          (PortfolioService.positions (portfolio this)).
Proof.
  induction snapshot as [|position snapshot IH]; intros Hsides this closed;
    cbn [fold_left].
  - split; [|apply incl_refl].
    intros s' H. exists s'. split; [exact H|apply tighter_refl].
  - destruct (checkExit prices now (this, closed) position) as [this1 closed1] eqn:E.
    assert (Hhead : Position.id position = id -> Position.direction position = d)
      by (apply Hsides; left; reflexivity).
    destruct (checkExit_get prices now this closed position id d Hhead)
      as [Hget1 Hincl1].
    rewrite E in Hget1, Hincl1. cbn in Hget1, Hincl1.
    destruct (IH (fun p Hin => Hsides p (or_intror Hin)) this1 closed1)
      as [Hget2 Hincl2].
    split.
    + intros s' H. destruct (Hget2 s' H) as (s1 & H1 & Ht1).
      destruct (Hget1 s1 H1) as (s & H0 & Ht0).
      exists s. split; [exact H0|]. apply (tighter_trans d s s1 s'); assumption.
    + apply (incl_tran Hincl2 Hincl1).
Qed.

Lemma updatePosition_same
    (config0 : TradingConfig.t) (prices : Prices) (p : Position.t) :
  Position.id (PortfolioService.updatePosition config0 prices p) = Position.id p
  /\ Position.direction (PortfolioService.updatePosition config0 prices p)
     = Position.direction p.
Proof.
  unfold PortfolioService.updatePosition.
  destruct (map_get (Position.symbol p) prices) as [currentPrice|]; [|auto].
  destruct (negb (truthy currentPrice)); auto.
Qed.

(** One call of [checkExits]. *)
Lemma checkExits_get
    (this : t) (prices : Prices) (now : Z) (id : string) (d : Direction) :
  sides this id d ->
  (forall s', map_get id (trailingStops (fst (checkExits this prices now))) = Some s' ->
              exists s, map_get id (trailingStops this) = Some s /\ tighter d s s')
  /\ sides (fst (checkExits this prices now)) id d.
Proof.
  intro Hsides. unfold checkExits, PortfolioService.getOpenPositions.
  destruct (checkExit_fold_get prices now id d
              (PortfolioService.positions (portfolio this)) Hsides this [])
    as [Hget Hincl].
  destruct (fold_left (checkExit prices now) _ (this, [])) as [this1 closed1].
  cbn in *. split; [exact Hget|].
  intros p Hin Hid. unfold PortfolioService.updatePositions in Hin. cbn in Hin.
  apply in_map_iff in Hin. destruct Hin as (p0 & <- & Hin0).
  destruct (updatePosition_same (PortfolioService.config (portfolio this1)) prices p0)
    as [Hsame_id Hsame_dir].
  rewrite Hsame_dir. apply Hsides; [apply Hincl; exact Hin0|].
  rewrite <- Hsame_id. exact Hid.
Qed.

Lemma ticks_get (updates : list (Prices * Z)) (id : string) (d : Direction) :
  forall this : t,
  sides this id d ->
  (forall s', map_get id (trailingStops (ticks this updates)) = Some s' ->
              exists s, map_get id (trailingStops this) = Some s /\ tighter d s s')
  /\ sides (ticks this updates) id d.
Proof.
  induction updates as [|[prices now] updates IH]; intros this Hsides.
  - split; [|exact Hsides].
    intros s' H. exists s'. split; [exact H|apply tighter_refl].
  - change (ticks this ((prices, now) :: updates))
      with (ticks (tick this (prices, now)) updates).
    destruct (checkExits_get this prices now id d Hsides) as [Hget1 Hsides1].
    destruct (IH (tick this (prices, now)) Hsides1) as [Hget2 Hsides2].
    split; [|exact Hsides2].
    intros s' H. destruct (Hget2 s' H) as (s1 & H1 & Ht1).
    destruct (Hget1 s1 H1) as (s & H0 & Ht0).
    exists s. split; [exact H0|]. apply (tighter_trans d s s1 s'); assumption.
Qed.

(** C2.  Over any sequence of price updates applied by [checkExits],
    the trailing stop recorded for a position is non-decreasing for a
    LONG position and non-increasing for a SHORT one: the stop after
    the updates [before ++ after] is on the favourable side of the stop
    after [before].  And one update changes the stop only to the
    candidate computed from a new extreme price (a new high for LONG, a
    new low for SHORT) of an active trailing stop, and only when the
    candidate improves the stop. *)
Theorem trailing_stop_ratchet :
  (forall (this : t) (before after : list (Prices * Z)) (id : string)
          (d : Direction) (s1 s2 : TrailingStopState.t),
      sides this id d ->
      getTrailingStopState (ticks this before) id = Some s1 ->
      getTrailingStopState (ticks this (before ++ after)) id = Some s2 ->
      match d with
      | LONG => TrailingStopState.currentStop s1 <= TrailingStopState.currentStop s2
      | SHORT => TrailingStopState.currentStop s2 <= TrailingStopState.currentStop s1
      end)
  /\ (forall (config : TradingConfig.t) (position : Position.t) (currentPrice : Q)
             (s : TrailingStopState.t),
        let s' := trail config position currentPrice s in
        TrailingStopState.currentStop s' = TrailingStopState.currentStop s
        \/ (TrailingStopState.isActive s' = true
            /\ match Position.direction position with
               | LONG =>
                   TrailingStopState.highestPrice s < currentPrice
                   /\ TrailingStopState.highestPrice s' = currentPrice
                   /\ TrailingStopState.currentStop s'
                      = currentPrice * (1 - TradingConfig.trailingStopDistance config)
                   /\ TrailingStopState.currentStop s
                      < TrailingStopState.currentStop s'
               | SHORT =>
                   currentPrice < TrailingStopState.lowestPrice s
                   /\ TrailingStopState.lowestPrice s' = currentPrice
                   /\ TrailingStopState.currentStop s'
                      = currentPrice * (1 + TradingConfig.trailingStopDistance config)
                   /\ TrailingStopState.currentStop s'
                      < TrailingStopState.currentStop s
               end)).
Proof.
  split; [|exact trail_adopts].
  intros this before after id d s1 s2 Hsides H1 H2.
  unfold getTrailingStopState, ticks in *.
  rewrite fold_left_app in H2.
  destruct (ticks_get before id d this Hsides) as [_ Hsides1].
  destruct (ticks_get after id d (ticks this before) Hsides1) as [Hget _].
  destruct (Hget s2 H2) as (s & Hs & Ht).
  unfold ticks in Hs. rewrite H1 in Hs. injection Hs as <-.
  exact Ht.
Qed.


Lemma trailing_stop_ratchet_witness :
  sides Scenario.armed "position-1" LONG
  /\ exists s1 s2,
       getTrailingStopState (ticks Scenario.armed Scenario.rise) "position-1" = Some s1
       /\ getTrailingStopState
            (ticks Scenario.armed (Scenario.rise ++ Scenario.riseAndFall)) "position-1"
          = Some s2
       /\ TrailingStopState.currentStop s1 == 101.49
       /\ TrailingStopState.currentStop s2 == 103.48
       /\ TrailingStopState.currentStop s1 <= TrailingStopState.currentStop s2.
Proof.
  assert (Hsides : sides Scenario.armed "position-1" LONG).
  { intros p [<-|[]] _. reflexivity. }
  split; [exact Hsides|].
  destruct (getTrailingStopState (ticks Scenario.armed Scenario.rise) "position-1")
    as [s1|] eqn:E1; [|vm_compute in E1; discriminate].
  destruct (getTrailingStopState
              (ticks Scenario.armed (Scenario.rise ++ Scenario.riseAndFall))
              "position-1") as [s2|] eqn:E2; [|vm_compute in E2; discriminate].
  pose proof (proj1 trailing_stop_ratchet Scenario.armed Scenario.rise
                Scenario.riseAndFall "position-1"%string LONG s1 s2 Hsides E1 E2)
    as Hratchet.
  exists s1, s2. split; [reflexivity|]. split; [reflexivity|].
  split; [vm_compute in E1; injection E1 as <-; reflexivity|].
  split; [vm_compute in E2; injection E2 as <-; reflexivity|].
  exact Hratchet.
Defined.

(** ** The order of the exit rules *)

Lemma checkExitConditions_exitReason
    (position : Position.t) (currentPrice : Q) (trailingState : TrailingStopState.t) :
  checkExitConditions position currentPrice trailingState
  = ExitSpec.exitReason position currentPrice trailingState.
Proof.
  unfold checkExitConditions, ExitSpec.exitReason, ExitSpec.takeProfitHit,
    ExitSpec.trailingStopHit, ExitSpec.stopLossHit.
  destruct (Position.direction position); cbn.
  - destruct (Qle_bool (Position.takeProfit position) currentPrice); [reflexivity|].
    destruct (TrailingStopState.isActive trailingState && _); [reflexivity|].
    destruct (Qle_bool currentPrice (Position.stopLoss position)); reflexivity.
  - destruct (Qle_bool currentPrice (Position.takeProfit position)); [reflexivity|].
    destruct (TrailingStopState.isActive trailingState && _); [reflexivity|].
    destruct (Qle_bool (Position.stopLoss position) currentPrice); reflexivity.
Qed.

(** The loop of [checkExits] on a position it finds with its trailing
    stop: the reason found is recorded in the trade it closes. *)
Lemma checkExit_records
    (prices : Prices) (now : Z) (this : t) (closed : list ClosedTrade.t)
    (position : Position.t) (currentPrice : Q) (trailingState : TrailingStopState.t)
    (reason : TradeExitReason) :
  map_get (Position.symbol position) prices = Some currentPrice ->
  truthy currentPrice = true ->
  map_get (Position.id position) (trailingStops this) = Some trailingState ->
  find (fun p => String.eqb (Position.id p) (Position.id position))
       (PortfolioService.positions (portfolio this)) = Some position ->
  checkExitConditions position currentPrice
    (trail (config this) position currentPrice trailingState) = Some reason ->
  exists this' trade,
    checkExit prices now (this, closed) position = (this', closed ++ [trade])
    /\ ClosedTrade.id trade = Position.id position
    /\ ClosedTrade.exitPrice trade = currentPrice
    /\ ClosedTrade.exitReason trade = reason
    /\ PortfolioService.closedTrades (portfolio this')
       = PortfolioService.closedTrades (portfolio this) ++ [trade]
    /\ map_get (Position.id position) (trailingStops this') = None.
Proof.
  intros Hprice Htruthy Hstate Hfind Hreason.
  unfold checkExit. rewrite Hprice, Htruthy. cbn [negb].
  unfold updateTrailingStop. rewrite Hstate. cbn [trailingStops portfolio config].
  rewrite map_get_set_same, Hreason.
  destruct (PortfolioFacts.closePosition_found (portfolio this)
              (Position.id position) currentPrice reason now position Hfind)
    as (portfolio1 & trade & Hclose & Hid & Hexit & Hwhy & Hlog).
  rewrite Hclose. eexists. exists trade. split; [reflexivity|].
  cbn [portfolio trailingStops].
  split; [exact Hid|]. split; [exact Hexit|]. split; [exact Hwhy|].
  split; [exact Hlog|]. apply map_get_delete_same.
Qed.

Lemma find_delete_other (k k0 : string) (m : list Position.t) :
  k0 <> k ->
  find (fun p => String.eqb (Position.id p) k) (PortfolioService.positions_delete k0 m)
  = find (fun p => String.eqb (Position.id p) k) m.
Proof.
  intro Hne. unfold PortfolioService.positions_delete.
  induction m as [|p m IH]; simpl; [reflexivity|].
  destruct (String.eqb (Position.id p) k0) eqn:E0; simpl.
  - apply String.eqb_eq in E0.
    destruct (String.eqb (Position.id p) k) eqn:E; [|exact IH].
    apply String.eqb_eq in E. congruence.
  - destruct (String.eqb (Position.id p) k); [reflexivity|exact IH].
Qed.

(** What the loop does for one position leaves every other id alone. *)
Lemma checkExit_other
    (prices : Prices) (now : Z) (this : t) (closed : list ClosedTrade.t)
    (position : Position.t) (k : string) :
  Position.id position <> k ->
  let r := checkExit prices now (this, closed) position in
  config (fst r) = config this
  /\ map_get k (trailingStops (fst r)) = map_get k (trailingStops this)
  /\ find (fun p => String.eqb (Position.id p) k)
          (PortfolioService.positions (portfolio (fst r)))
     = find (fun p => String.eqb (Position.id p) k)
            (PortfolioService.positions (portfolio this))
  /\ exists more, snd r = closed ++ more.
Proof.
  intro Hne. unfold checkExit.
  assert (Hsame : config this = config this
                  /\ map_get k (trailingStops this) = map_get k (trailingStops this)
                  /\ find (fun p => String.eqb (Position.id p) k)
                          (PortfolioService.positions (portfolio this))
                     = find (fun p => String.eqb (Position.id p) k)
                            (PortfolioService.positions (portfolio this))
                  /\ exists more, closed = closed ++ more).
  { repeat (split; [reflexivity|]). exists []. rewrite app_nil_r. reflexivity. }
  destruct (map_get (Position.symbol position) prices) as [currentPrice|];
    [|exact Hsame].
  destruct (negb (truthy currentPrice)); [exact Hsame|].
  clear Hsame.
  assert (Hupdated :
            config (updateTrailingStop this position currentPrice) = config this
            /\ map_get k (trailingStops (updateTrailingStop this position currentPrice))
               = map_get k (trailingStops this)
            /\ portfolio (updateTrailingStop this position currentPrice)
               = portfolio this).
  { unfold updateTrailingStop.
    destruct (map_get (Position.id position) (trailingStops this)); cbn; auto.
    rewrite (map_get_set_other _ _ _ _ Hne). auto. }
  destruct Hupdated as (Hconfig & Hget & Hportfolio).
  set (this1 := updateTrailingStop this position currentPrice) in *.
  assert (Hkept : config this1 = config this
                  /\ map_get k (trailingStops this1) = map_get k (trailingStops this)
                  /\ find (fun p => String.eqb (Position.id p) k)
                          (PortfolioService.positions (portfolio this1))
                     = find (fun p => String.eqb (Position.id p) k)
                            (PortfolioService.positions (portfolio this))
                  /\ exists more, closed = closed ++ more).
  { split; [exact Hconfig|]. split; [exact Hget|]. split; [rewrite Hportfolio; reflexivity|].
    exists []. rewrite app_nil_r. reflexivity. }
  destruct (map_get (Position.id position) (trailingStops this1)) as [trailingState|];
    [|exact Hkept].
  destruct (checkExitConditions position currentPrice trailingState) as [exitReason|];
    [|exact Hkept].
  unfold PortfolioService.closePosition.
  destruct (find (fun p => String.eqb (Position.id p) (Position.id position))
                 (PortfolioService.positions (portfolio this1)))
    as [found|] eqn:Hfound; cbn.
  - assert (Hid : Position.id found = Position.id position).
    { apply find_some in Hfound. apply String.eqb_eq. apply Hfound. }
    split; [exact Hconfig|].
    split; [rewrite (map_get_delete_other _ _ _ Hne); exact Hget|].
    split.
    + rewrite Hid, (find_delete_other _ _ _ Hne), Hportfolio. reflexivity.
    + eexists. reflexivity.
  - split; [exact Hconfig|]. split; [exact Hget|].
    split; [rewrite Hportfolio; reflexivity|].
    exists []. rewrite app_nil_r. reflexivity.
Qed.

Lemma checkExit_fold_other
    (prices : Prices) (now : Z) (k : string) (snapshot : list Position.t) :
  (forall p, In p snapshot -> Position.id p <> k) ->
  forall (this : t) (closed : list ClosedTrade.t),
  let r := fold_left (checkExit prices now) snapshot (this, closed) in
  config (fst r) = config this
  /\ map_get k (trailingStops (fst r)) = map_get k (trailingStops this)
  /\ find (fun p => String.eqb (Position.id p) k)
          (PortfolioService.positions (portfolio (fst r)))
     = find (fun p => String.eqb (Position.id p) k)
            (PortfolioService.positions (portfolio this))
  /\ exists more, snd r = closed ++ more.
Proof.
  induction snapshot as [|position snapshot IH]; intros Hother this closed;
    cbn [fold_left].
  - repeat (split; [reflexivity|]). exists []. rewrite app_nil_r. reflexivity.
  - destruct (checkExit_other prices now this closed position k
                (Hother position (or_introl eq_refl)))
      as (Hconfig1 & Hget1 & Hfind1 & more1 & Hmore1).
    destruct (checkExit prices now (this, closed) position) as [this1 closed1].
    cbn [fst snd] in *.
    destruct (IH (fun p Hin => Hother p (or_intror Hin)) this1 closed1)
      as (Hconfig2 & Hget2 & Hfind2 & more2 & Hmore2).
    split; [congruence|]. split; [congruence|]. split; [congruence|].
    exists (more1 ++ more2). rewrite Hmore2, Hmore1, app_assoc. reflexivity.
Qed.

Lemma find_unique (m : list Position.t) (position : Position.t) :
  NoDup (map Position.id m) -> In position m ->
  find (fun p => String.eqb (Position.id p) (Position.id position)) m = Some position.
Proof.
  induction m as [|p m IH]; intros Hnodup Hin; [contradiction|].
  simpl in *. inversion Hnodup as [|x xs Hnotin Hrest]; subst.
  destruct Hin as [->|Hin].
  - rewrite String.eqb_refl. reflexivity.
  - destruct (String.eqb (Position.id p) (Position.id position)) eqn:E.
    + apply String.eqb_eq in E. exfalso. apply Hnotin. rewrite E.
      apply in_map. exact Hin.
    + apply IH; assumption.
Qed.

(** One call of [checkExits]: every open position with a known price
    and a trailing stop whose rules give a reason is closed at that
    price with that reason. *)
Lemma checkExits_records
    (this : t) (prices : Prices) (now : Z) (position : Position.t)
    (currentPrice : Q) (trailingState : TrailingStopState.t)
    (reason : TradeExitReason) :
  NoDup (map Position.id (PortfolioService.positions (portfolio this))) ->
  In position (PortfolioService.positions (portfolio this)) ->
  map_get (Position.symbol position) prices = Some currentPrice ->
  truthy currentPrice = true ->
  map_get (Position.id position) (trailingStops this) = Some trailingState ->
  checkExitConditions position currentPrice
    (trail (config this) position currentPrice trailingState) = Some reason ->
  exists trade,
    In trade (snd (checkExits this prices now))
    /\ ClosedTrade.id trade = Position.id position
    /\ ClosedTrade.exitPrice trade = currentPrice
    /\ ClosedTrade.exitReason trade = reason.
Proof.
  intros Hnodup Hin Hprice Htruthy Hstate Hreason.
  pose proof (find_unique _ _ Hnodup Hin) as Hfind.
  destruct (in_split _ _ Hin) as (earlier & later & Hsplit).
  assert (Hearlier : forall p, In p earlier -> Position.id p <> Position.id position).
  { rewrite Hsplit, map_app in Hnodup. cbn [map] in Hnodup.
    apply NoDup_remove_2 in Hnodup.
    intros p Hp Heq. apply Hnodup. apply in_or_app. left.
    rewrite <- Heq. apply in_map. exact Hp. }
  assert (Hlater : forall p, In p later -> Position.id p <> Position.id position).
  { rewrite Hsplit, map_app in Hnodup. cbn [map] in Hnodup.
    apply NoDup_remove_2 in Hnodup.
    intros p Hp Heq. apply Hnodup. apply in_or_app. right.
    rewrite <- Heq. apply in_map. exact Hp. }
  assert (Hsnd : snd (checkExits this prices now)
                 = snd (fold_left (checkExit prices now)
                          (PortfolioService.positions (portfolio this)) (this, []))).
  { unfold checkExits, PortfolioService.getOpenPositions.
    destruct (fold_left (checkExit prices now) _ (this, [])). reflexivity. }
  rewrite Hsnd. clear Hsnd.
  rewrite Hsplit. rewrite fold_left_app. cbn [fold_left].
  destruct (checkExit_fold_other prices now (Position.id position) earlier Hearlier
              this [])
    as (Hconfig1 & Hget1 & Hfind1 & _).
  destruct (fold_left (checkExit prices now) earlier (this, [])) as [this1 closed1].
  cbn [fst snd] in *.
  rewrite <- Hconfig1 in Hreason. rewrite <- Hget1 in Hstate. rewrite <- Hfind1 in Hfind.
  destruct (checkExit_records prices now this1 closed1 position currentPrice
              trailingState reason Hprice Htruthy Hstate Hfind Hreason)
    as (this2 & trade & Hstep & Hid & Hexit & Hwhy & _).
  rewrite Hstep.
  destruct (checkExit_fold_other prices now (Position.id position) later Hlater
              this2 (closed1 ++ [trade]))
    as (_ & _ & _ & more & Hmore).
  destruct (fold_left (checkExit prices now) later (this2, closed1 ++ [trade]))
    as [this3 closed3].
  cbn [fst snd] in *. subst closed3.
  exists trade. split; [|auto].
  apply in_or_app. left. apply in_or_app. right. left. reflexivity.
Qed.

(** C3.  [checkExitConditions] is the first match of the rules
    take-profit, trailing stop (only when active), stop-loss, in this
    order; a price that meets the take-profit rule gives [take_profit]
    whatever the trailing stop says; and [checkExits] closes every open
    position that has a known price and a trailing stop with the reason
    so found (on the trailing stop as updated for this price), which is
    the reason recorded in the closed trade. *)
Theorem exit_priority :
  (forall position currentPrice trailingState,
      checkExitConditions position currentPrice trailingState
      = ExitSpec.firstMatch
          [(ExitSpec.takeProfitHit position currentPrice, take_profit);
           (ExitSpec.trailingStopHit position currentPrice trailingState, trailing_stop);
           (ExitSpec.stopLossHit position currentPrice, stop_loss)])
  /\ (forall position currentPrice trailingState,
        ExitSpec.takeProfitHit position currentPrice = true ->
        checkExitConditions position currentPrice trailingState = Some take_profit)
  /\ (forall this prices now position currentPrice trailingState reason,
        NoDup (map Position.id (PortfolioService.positions (portfolio this))) ->
        In position (PortfolioService.positions (portfolio this)) ->
        map_get (Position.symbol position) prices = Some currentPrice ->
        truthy currentPrice = true ->
        map_get (Position.id position) (trailingStops this) = Some trailingState ->
        ExitSpec.exitReason position currentPrice
          (trail (config this) position currentPrice trailingState) = Some reason ->
        exists trade,
          In trade (snd (checkExits this prices now))
          /\ ClosedTrade.id trade = Position.id position
          /\ ClosedTrade.exitPrice trade = currentPrice
          /\ ClosedTrade.exitReason trade = reason).
Proof.
  split; [exact checkExitConditions_exitReason|]. split.
  - intros position currentPrice trailingState Hhit.
    rewrite checkExitConditions_exitReason. unfold ExitSpec.exitReason.
    rewrite Hhit. reflexivity.
  - intros this prices now position currentPrice trailingState reason
           Hnodup Hin Hprice Htruthy Hstate Hreason.
    rewrite <- checkExitConditions_exitReason in Hreason.
    apply (checkExits_records this prices now position currentPrice trailingState
             reason Hnodup Hin Hprice Htruthy Hstate Hreason).
Qed.

Lemma exit_priority_witness :
  ExitSpec.takeProfitHit Scenario.position 110.5 = true
  /\ (forall trailingState,
        map_get "position-1"%string (trailingStops Scenario.trader)
        = Some trailingState ->
        ExitSpec.trailingStopHit Scenario.position 110.5
          (trail DEFAULT_CONFIG Scenario.position 110.5 trailingState) = true)
  /\ exists trade,
       In trade (snd (checkExits Scenario.trader Scenario.atTarget 1%Z))
       /\ ClosedTrade.id trade = "position-1"%string
       /\ ClosedTrade.exitReason trade = take_profit.
Proof.
  assert (Htarget : ExitSpec.takeProfitHit Scenario.position 110.5 = true)
    by reflexivity.
  split; [exact Htarget|]. split.
  - intros trailingState H. vm_compute in H. injection H as <-. reflexivity.
  - destruct (map_get "position-1"%string (trailingStops Scenario.trader))
      as [trailingState|] eqn:Hstate; [|discriminate].
    destruct (proj2 (proj2 exit_priority) Scenario.trader Scenario.atTarget 1%Z
                Scenario.position 110.5 trailingState take_profit)
      as (trade & Hin & Hid & _ & Hreason).
    + repeat constructor. intros [].
    + left. reflexivity.
    + reflexivity.
    + reflexivity.
    + exact Hstate.
    + vm_compute in Hstate. injection Hstate as <-. reflexivity.
    + exists trade. split; [exact Hin|]. split; [exact Hid|exact Hreason].
Defined.

End TraderProofs.

Module FeedProofs.
Import BinanceService.

(** ** Duplicates of a closed candle *)

Lemma hasOpenTime_app (b1 b2 : list Candle.t) (openTime : Z) :
  hasOpenTime (b1 ++ b2) openTime = hasOpenTime b1 openTime || hasOpenTime b2 openTime.
Proof. unfold hasOpenTime. apply existsb_app. Qed.

(** The candle just pushed is in the buffer: [bufferSize] is not 0. *)
Lemma hasOpenTime_push (buffer : list Candle.t) (candle : Candle.t) :
  hasOpenTime (push buffer candle) (Candle.openTime candle) = true.
Proof.
  assert (Hlast : hasOpenTime [candle] (Candle.openTime candle) = true).
  { unfold hasOpenTime. simpl. rewrite Z.eqb_refl. reflexivity. }
  unfold push.
  destruct (Nat.ltb bufferSize (List.length (buffer ++ [candle]))) eqn:E.
  - destruct buffer as [|c buffer].
    + apply Nat.ltb_lt in E. unfold bufferSize in E. simpl in E. lia.
    + simpl. rewrite hasOpenTime_app, Hlast. apply orb_true_r.
  - rewrite hasOpenTime_app, Hlast. apply orb_true_r.
Qed.

Lemma getBuffer_set (this : t) (symbol : string) (buffer : list Candle.t) :
  getBuffer (set_candleBuffers this (map_set symbol buffer (candleBuffers this))) symbol
  = buffer.
Proof. unfold getBuffer. cbn. rewrite map_get_set_same. reflexivity. Qed.

Lemma handleKlineMessage_closed (this : t) (data : Kline.msg) :
  Kline.x data = true ->
  handleKlineMessage this data
  = if negb (hasOpenTime (getBuffer this (Kline.s data)) (Kline.t data)) then
      notify
        (set_candleBuffers this
           (map_set (Kline.s data)
              (push (getBuffer this (Kline.s data)) (candleOfKline data))
              (candleBuffers this)))
        (candleOfKline data)
    else this.
Proof.
  intro Hclosed. unfold handleKlineMessage, candleOfKline.
  cbn [Candle.isClosed Candle.symbol Candle.openTime].
  rewrite Hclosed. reflexivity.
Qed.

(** The push path drops a closed candle whose open time is in the
    buffer: nothing changes. *)
Lemma handleKlineMessage_duplicate (this : t) (data : Kline.msg) :
  Kline.x data = true ->
  hasOpenTime (getBuffer this (Kline.s data)) (Kline.t data) = true ->
  handleKlineMessage this data = this.
Proof.
  intros Hclosed Hpresent.
  rewrite (handleKlineMessage_closed _ _ Hclosed), Hpresent. reflexivity.
Qed.

(** The poll path does the same. *)
Lemma pollKline_duplicate
    (this : t) (symbol : string) (now : Z) (buffer : list Candle.t) (k : KlineRest.row) :
  (KlineRest.k6 k < now)%Z ->
  hasOpenTime buffer (KlineRest.k0 k) = true ->
  pollKline symbol now (this, buffer) k = (this, buffer).
Proof.
  intros Hclosed Hpresent. unfold pollKline. cbn.
  apply Z.ltb_lt in Hclosed. rewrite Hclosed, Hpresent. reflexivity.
Qed.

Lemma pollSymbol_duplicate
    (this : t) (symbol : string) (now : Z) (k : KlineRest.row) :
  (KlineRest.k6 k < now)%Z ->
  hasOpenTime (getBuffer this symbol) (KlineRest.k0 k) = true ->
  pollSymbol this symbol (Klines [k]) now = this.
Proof.
  intros Hclosed Hpresent. unfold pollSymbol. cbn [fold_left].
  rewrite (pollKline_duplicate _ _ _ _ _ Hclosed Hpresent). reflexivity.
Qed.

(** The first arrival of a closed candle on the push path, when no
    candle of the buffer has its open time: one push, one call of every
    callback; and from then on the open time is in the buffer. *)
Lemma handleKlineMessage_first (this : t) (data : Kline.msg) :
  Kline.x data = true ->
  hasOpenTime (getBuffer this (Kline.s data)) (Kline.t data) = false ->
  let this' := handleKlineMessage this data in
  getBuffer this' (Kline.s data)
  = push (getBuffer this (Kline.s data)) (candleOfKline data)
  /\ delivered this'
     = delivered this
       ++ map (fun callback => (callback, candleOfKline data)) (candleCallbacks this)
  /\ hasOpenTime (getBuffer this' (Kline.s data)) (Kline.t data) = true.
Proof.
  intros Hclosed Hnew. cbv zeta.
  rewrite (handleKlineMessage_closed _ _ Hclosed), Hnew. cbn [negb].
  assert (Hbuffer :
            getBuffer
              (notify
                 (set_candleBuffers this
                    (map_set (Kline.s data)
                       (push (getBuffer this (Kline.s data)) (candleOfKline data))
                       (candleBuffers this)))
                 (candleOfKline data)) (Kline.s data)
            = push (getBuffer this (Kline.s data)) (candleOfKline data)).
  { unfold getBuffer at 1. cbn [candleBuffers notify set_candleBuffers].
    rewrite map_get_set_same. reflexivity. }
  split; [exact Hbuffer|]. split; [reflexivity|].
  rewrite Hbuffer. apply (hasOpenTime_push _ (candleOfKline data)).
Qed.

(** What holds of the deduplication: a closed candle that arrives when
    no candle of its buffer has its open time is appended and
    dispatched once, and delivering it again, by the stream or by the
    polling loop, changes nothing. *)
Lemma closed_candle_once
    (this : t) (data : Kline.msg) (k : KlineRest.row) (now : Z) :
  Kline.x data = true ->
  hasOpenTime (getBuffer this (Kline.s data)) (Kline.t data) = false ->
  KlineRest.k0 k = Kline.t data -> (KlineRest.k6 k < now)%Z ->
  let this' := handleKlineMessage this data in
  delivered this'
  = delivered this
    ++ map (fun callback => (callback, candleOfKline data)) (candleCallbacks this)
  /\ handleKlineMessage this' data = this'
  /\ pollSymbol this' (Kline.s data) (Klines [k]) now = this'.
Proof.
  intros Hclosed Hnew Hsame Hpast.
  destruct (handleKlineMessage_first this data Hclosed Hnew) as (_ & Hlog & Hpresent).
  split; [exact Hlog|]. split.
  - apply handleKlineMessage_duplicate; assumption.
  - apply pollSymbol_duplicate; [exact Hpast|]. rewrite Hsame. exact Hpresent.
Qed.

(** C6.  The closed candle that follows its own in-progress updates is
    lost.  The stream sends the candle opened at 0 while it is in
    progress, and [handleKlineMessage] puts that update in the buffer;
    the closed candle then arrives by the stream and by the polling
    loop, and both find its open time in the buffer: no append, no call
    of the registered callback. *)
Theorem closed_candle_behind_in_progress_dropped :
  let before := run Scenario.feed [WsMessage (Some Scenario.inProgress)] in
  let after :=
    run before [WsMessage (Some Scenario.closed);
                PollTimer Scenario.answers Scenario.pollTime] in
  candleCallbacks Scenario.feed = [0%nat]
  /\ getBuffer before "BTCUSDT" = [candleOfKline Scenario.inProgress]
  /\ getBuffer after "BTCUSDT" = [candleOfKline Scenario.inProgress]
  /\ delivered after = [].
Proof. vm_compute. auto. Qed.

(** ** Reconnects *)

Lemma onOpen_resets (this : t) : reconnectAttempts (onOpen this) = 0%Z.
Proof. reflexivity. Qed.

(** At the maximum, a close stops the service: no timeout is scheduled
    and [isRunning] is cleared, for the polling loop as well. *)
Lemma onClose_at_maximum (this : t) :
  isRunning this = true ->
  (maxReconnectAttempts <= reconnectAttempts this)%Z ->
  onClose this = set_isRunning this false.
Proof.
  intros Hrunning Hmax. unfold onClose, scheduleReconnect.
  rewrite Hrunning. apply Z.leb_le in Hmax. rewrite Hmax. reflexivity.
Qed.

(** Once [isRunning] is cleared, closes and reconnect timeouts open no
    WebSocket, and the first tick of the polling timer clears it. *)
Lemma stopped_stream (this : t) :
  isRunning this = false ->
  onClose this = this
  /\ reconnectTimeout this = this
  /\ forall responses now,
       pollingInterval this = true ->
       pollingLive (pollingTick this responses now) = false
       /\ candleBuffers (pollingTick this responses now) = candleBuffers this
       /\ delivered (pollingTick this responses now) = delivered this.
Proof.
  intro Hstopped. unfold onClose, reconnectTimeout, pollingTick.
  rewrite Hstopped. cbn [negb]. split; [reflexivity|]. split; [reflexivity|].
  intros responses now Hinterval. rewrite Hinterval. cbn. auto.
Qed.

(** C7.  After the tenth reconnect the next close stops the stream for
    good (and a connection that opens resets the counter), but it stops
    the polling loop too: a started service whose ten reconnects all
    closed again is left with [isRunning] cleared; the next tick of the
    polling timer, with a new closed candle in the answer, clears the
    timer and takes nothing in, and no later tick runs. *)
Theorem polling_stops_with_the_stream :
  let stopped := run Scenario.feed Scenario.outage in
  let polled := step stopped (PollTimer Scenario.answers Scenario.pollTime) in
  isRunning Scenario.feed = true
  /\ pollingLive Scenario.feed = true
  /\ reconnectAttempts stopped = maxReconnectAttempts
  /\ connections stopped = 11%nat
  /\ reconnectTimers stopped = []
  /\ isRunning stopped = false
  /\ pollingLive stopped = true
  /\ pollingLive polled = false
  /\ getBuffer polled "BTCUSDT" = []
  /\ delivered polled = []
  /\ (forall responses now, step polled (PollTimer responses now) = polled)
  /\ getBuffer (step Scenario.feed (PollTimer Scenario.answers Scenario.pollTime))
       "BTCUSDT"
     <> [].
Proof.
  vm_compute. do 10 (split; [reflexivity|]).
  split; [intros responses now; reflexivity|discriminate].
Qed.

End FeedProofs.

Module StrategyProofs.
Import StrategyService.

(** C8, as stated, fails: with [cooldownCandles] set to 2, [evaluate]
    produces a signal on a candle and, called again on the same candle
    (no candle has elapsed since the signal it has just recorded),
    produces a signal again. *)
Lemma signal_inside_cooldown :
  exists this1 signal1 this2 signal2,
    evaluate Scenario.strategy "signal-1" "BTCUSDT" [Scenario.candle]
      Scenario.indicators Scenario.regime
    = Returned this1 (Some signal1)
    /\ TradingConfig.cooldownCandles (config this1) == 2
    /\ map_get "BTCUSDT"%string (lastSignalTime this1)
       = Some (Candle.openTime Scenario.candle)
    /\ evaluate this1 "signal-2" "BTCUSDT" [Scenario.candle]
         Scenario.indicators Scenario.regime
       = Returned this2 (Some signal2).
Proof.
  eexists. eexists. eexists. eexists.
  split; [vm_compute; reflexivity|].
  split; [reflexivity|]. split; [reflexivity|].
  vm_compute. reflexivity.
Qed.

(** C8 (amended).  [evaluate] consults [canTrade] once, after the
    regime gate and before any detector; [canTrade] answers true
    whatever the configuration and the time of the last signal, so the
    cooldown withholds nothing: unless the regime is DANGER, [evaluate]
    returns the signal of the first detector that fires (and records
    its candle), and what it produces depends neither on
    [cooldownCandles] nor on the signals recorded before. *)
Theorem cooldown_is_always_over :
  (forall this symbol candles, canTrade this symbol candles = true)
  /\ (forall this uuid symbol candles indicators regime,
        evaluate this uuid symbol candles indicators regime
        = match RegimeState.decision regime with
          | DANGER => Returned this None
          | _ =>
              match candles with
              | [] => Threw
              | _ :: _ =>
                  match firstSignal detectors uuid symbol candles indicators regime with
                  | Some signal =>
                      Returned (updateLastSignalTime this symbol candles) (Some signal)
                  | None => Returned this None
                  end
              end
          end)
  /\ (forall this1 this2 uuid symbol candles indicators regime,
        Produced.signal (evaluate this1 uuid symbol candles indicators regime)
        = Produced.signal (evaluate this2 uuid symbol candles indicators regime)).
Proof.
  split; [reflexivity|]. split.
  - intros this uuid symbol candles indicators regime. unfold evaluate.
    destruct (RegimeState.decision regime); reflexivity.
  - intros this1 this2 uuid symbol candles indicators regime. unfold evaluate.
    destruct (RegimeState.decision regime); try reflexivity; cbn [canTrade negb];
      destruct candles; try reflexivity;
      destruct (firstSignal detectors uuid symbol _ indicators regime); reflexivity.
Qed.

End StrategyProofs.

Module ApprovalProofs.
Import LLMFilterService.

(** C9.  When the call of the approval gate fails (the request is
    rejected, the answer is empty, does not parse, or lacks a field),
    [evaluateSignal] returns APPROVE with confidence 0.5, and the engine
    then executes the trade exactly as on an approval. *)
Theorem approval_gate_fails_open
    (signal : TradeSignal.t) (news : list NewsItem.t) (completion : Completion)
    (now : Z) :
  fails completion = true ->
  let result := evaluateSignal signal news completion now in
  LLMFilterResult.decision result = APPROVE
  /\ LLMFilterResult.confidence result == 0.5
  /\ LLMFilterResult.signalId result = TradeSignal.id signal
  /\ forall trader currentPrice uuid,
       TradingEngine.filterAndExecute trader signal currentPrice news completion uuid now
       = TraderService.executeTrade trader signal currentPrice uuid now.
Proof.
  intro Hfails. unfold TradingEngine.filterAndExecute, TradingEngine.executeIfApproved.
  destruct completion as [error| |error|llmResponse]; cbn in *.
  1-3: repeat split; reflexivity.
  destruct (decision llmResponse), (confidence llmResponse), (reasoning llmResponse);
    try discriminate; cbn; repeat split; reflexivity.
Qed.

Lemma approval_gate_fails_open_witness :
  fails (CreateRejects (AnError "timeout")) = true
  /\ LLMFilterResult.decision
       (evaluateSignal Scenario.signal [] (CreateRejects (AnError "timeout")) 0%Z)
     = APPROVE
  /\ exists trader position,
       TradingEngine.filterAndExecute Scenario.idle Scenario.signal 100 []
         (CreateRejects (AnError "timeout")) "position-1" 0%Z
       = Some (trader, Some position)
       /\ Position.quantity position == 15.
Proof.
  assert (Hfails : fails (CreateRejects (AnError "timeout")) = true) by reflexivity.
  destruct (approval_gate_fails_open Scenario.signal [] _ 0%Z Hfails)
    as (Hdecision & _ & _ & Hexecute).
  split; [exact Hfails|]. split; [exact Hdecision|].
  rewrite Hexecute. eexists. eexists.
  split; [vm_compute; reflexivity|]. vm_compute. reflexivity.
Defined.

End ApprovalProofs.

Module IndicatorProofs.
Import IndicatorService IndicatorSpec.

(** ** Sums and averages *)

Lemma Qnat_S (n : nat) : Qnat (S n) == Qnat n + 1.
Proof.
  unfold Qnat. rewrite Nat2Z.inj_succ, <- Z.add_1_r, inject_Z_plus. reflexivity.
Qed.

Lemma Qnat_nonneg (n : nat) : 0 <= Qnat n.
Proof.
  induction n as [|n IH]; [cbv; discriminate|]. rewrite Qnat_S. lra.
Qed.

Lemma Qnat_pos (n : nat) : (0 < n)%nat -> 1 <= Qnat n.
Proof.
  destruct n as [|n]; [lia|]. intros _. rewrite Qnat_S.
  pose proof (Qnat_nonneg n). lra.
Qed.

Lemma fold_plus_from (data : list Q) (a : Q) :
  fold_left Qplus data a == a + total data.
Proof.
  unfold total. revert a. induction data as [|x data IH]; intro a; simpl.
  - lra.
  - rewrite (IH (a + x)), (IH (0 + x)). lra.
Qed.

Lemma total_cons (x : Q) (data : list Q) : total (x :: data) == x + total data.
Proof. unfold total at 1. simpl. rewrite fold_plus_from. lra. Qed.





(** ** EMA and SMA stay inside the data *)







(** ** Wilder's smoothing keeps signs *)

Lemma total_nonneg (data : list Q) :
  Forall (fun x => 0 <= x) data -> 0 <= total data.
Proof.
  induction 1 as [|x data Hx _ IH]; [change (total []) with 0; lra|].
  rewrite total_cons. lra.
Qed.

Lemma total_zero (data : list Q) :
  Forall (fun x => x == 0) data -> total data == 0.
Proof.
  induction 1 as [|x data Hx _ IH]; [reflexivity|].
  rewrite total_cons, Hx, IH. lra.
Qed.

Lemma total_pos (data : list Q) :
  Forall (fun x => 0 < x) data -> data <> [] -> 0 < total data.
Proof.
  intros H Hne. destruct H as [|x data Hx Hrest]; [contradiction|].
  rewrite total_cons.
  assert (0 <= total data); [|lra].
  apply total_nonneg. revert Hrest. apply Forall_impl. intros a Ha. lra.
Qed.

Lemma Forall_split {A : Type} (P : A -> Prop) (n : nat) (l : list A) :
  Forall P l -> Forall P (firstn n l) /\ Forall P (skipn n l).
Proof. intro H. apply Forall_app. rewrite firstn_skipn. exact H. Qed.

Lemma wilder_nonneg (period : nat) (values : list Q) :
  (0 < period)%nat -> Forall (fun x => 0 <= x) values ->
  forall avg, 0 <= avg -> 0 <= wilder period avg values.
Proof.
  intros Hperiod. pose proof (Qnat_pos _ Hperiod) as Hp. unfold wilder.
  induction 1 as [|x values Hx _ IH]; intros avg Havg; simpl; [exact Havg|].
  apply IH. apply Qle_shift_div_l; [lra|].
  assert (0 <= avg * (Qnat period - 1)) by (apply Qmult_le_0_compat; lra).
  lra.
Qed.

Lemma wilder_zero (period : nat) (values : list Q) :
  (0 < period)%nat -> Forall (fun x => x == 0) values ->
  forall avg, avg == 0 -> wilder period avg values == 0.
Proof.
  intros Hperiod. pose proof (Qnat_pos _ Hperiod) as Hp. unfold wilder.
  induction 1 as [|x values Hx _ IH]; intros avg Havg; simpl; [exact Havg|].
  apply IH. rewrite Havg, Hx. field. lra.
Qed.

Lemma wilder_pos (period : nat) (values : list Q) :
  (0 < period)%nat -> Forall (fun x => 0 < x) values ->
  forall avg, 0 < avg -> 0 < wilder period avg values.
Proof.
  intros Hperiod. pose proof (Qnat_pos _ Hperiod) as Hp. unfold wilder.
  induction 1 as [|x values Hx _ IH]; intros avg Havg; simpl; [exact Havg|].
  apply IH. apply Qlt_shift_div_l; [lra|].
  assert (0 <= avg * (Qnat period - 1)) by (apply Qmult_le_0_compat; lra).
  lra.
Qed.

(** The average that [calculateRSI], [calculateATR] take of values. *)
Lemma average_nonneg (period : nat) (values : list Q) :
  (0 < period)%nat -> Forall (fun x => 0 <= x) values ->
  0 <= wilder period (total (firstn period values) / Qnat period)
              (skipn period values).
Proof.
  intros Hperiod Hall. pose proof (Qnat_pos _ Hperiod) as Hp.
  destruct (Forall_split _ period values Hall) as [Hfirst Hrest].
  apply wilder_nonneg; [exact Hperiod|exact Hrest|].
  apply Qle_shift_div_l; [lra|]. pose proof (total_nonneg _ Hfirst). lra.
Qed.

Lemma average_zero (period : nat) (values : list Q) :
  (0 < period)%nat -> Forall (fun x => x == 0) values ->
  wilder period (total (firstn period values) / Qnat period)
         (skipn period values) == 0.
Proof.
  intros Hperiod Hall. pose proof (Qnat_pos _ Hperiod) as Hp.
  destruct (Forall_split _ period values Hall) as [Hfirst Hrest].
  apply wilder_zero; [exact Hperiod|exact Hrest|].
  rewrite (total_zero _ Hfirst). field. lra.
Qed.

Lemma average_pos (period : nat) (values : list Q) :
  (0 < period <= List.length values)%nat -> Forall (fun x => 0 < x) values ->
  0 < wilder period (total (firstn period values) / Qnat period)
             (skipn period values).
Proof.
  intros [Hperiod Hlen] Hall. pose proof (Qnat_pos _ Hperiod) as Hp.
  destruct (Forall_split _ period values Hall) as [Hfirst Hrest].
  apply wilder_pos; [exact Hperiod|exact Hrest|].
  apply Qlt_shift_div_l; [lra|].
  assert (0 < total (firstn period values)); [|lra].
  apply total_pos; [exact Hfirst|].
  intro Hnil. apply (f_equal (@List.length Q)) in Hnil.
  rewrite (firstn_length_le values Hlen) in Hnil. simpl in Hnil. lia.
Qed.

(** ** RSI *)

Lemma gains_nonneg (changes : list Q) :
  Forall (fun x => 0 <= x) (map (fun c => if Qltb 0 c then c else 0) changes).
Proof.
  apply Forall_map, Forall_forall. intros c _.
  destruct (Qltb 0 c) eqn:E; qbool; lra.
Qed.

Lemma losses_nonneg (changes : list Q) :
  Forall (fun x => 0 <= x) (map (fun c => if Qltb c 0 then Qabs c else 0) changes).
Proof.
  apply Forall_map, Forall_forall. intros c _.
  destruct (Qltb c 0) eqn:E; [apply Qabs_nonneg|lra].
Qed.

Lemma changesOf_length (closes : list Q) :
  List.length (changesOf closes) = (List.length closes - 1)%nat.
Proof.
  induction closes as [|a [|b rest] IH]; [reflexivity|reflexivity|].
  change (changesOf (a :: b :: rest)) with ((b - a) :: changesOf (b :: rest)).
  cbn [List.length] in *. lia.
Qed.

Lemma changes_neverFalls (closes : list Q) :
  neverFalls closes -> Forall (fun c => 0 <= c) (changesOf closes).
Proof.
  unfold neverFalls.
  induction closes as [|a [|b rest] IH]; intro H; [constructor|constructor|].
  change (changesOf (a :: b :: rest)) with ((b - a) :: changesOf (b :: rest)).
  inversion H as [|? ? Hsorted Hhd]; subst. inversion Hhd; subst.
  constructor; [lra|]. apply IH. exact Hsorted.
Qed.

Lemma changes_alwaysFalls (closes : list Q) :
  alwaysFalls closes -> Forall (fun c => c < 0) (changesOf closes).
Proof.
  unfold alwaysFalls.
  induction closes as [|a [|b rest] IH]; intro H; [constructor|constructor|].
  change (changesOf (a :: b :: rest)) with ((b - a) :: changesOf (b :: rest)).
  inversion H as [|? ? Hsorted Hhd]; subst. inversion Hhd; subst.
  constructor; [lra|]. apply IH. exact Hsorted.
Qed.

(** X3.  The RSI is between 0 and 100 for every list of closes and
    every positive period. *)
Theorem calculateRSI_range (closes : list Q) (period : nat) :
  (0 < period)%nat -> 0 <= calculateRSI closes period <= 100.
Proof.
  intro Hperiod. unfold calculateRSI.
  destruct (Nat.ltb (List.length closes) (period + 1)); [lra|].
  pose proof (average_nonneg period _ Hperiod (gains_nonneg (changesOf closes)))
    as Hgain.
  pose proof (average_nonneg period _ Hperiod (losses_nonneg (changesOf closes)))
    as Hloss.
  cbv zeta.
  set (avgGain := wilder period _ _) in *.
  set (avgLoss := wilder period _ (skipn period (map (fun c => if Qltb c 0 then Qabs c else 0) _))) in *.
  destruct (Qeq_bool avgLoss 0) eqn:E; [lra|]. qbool.
  assert (Hpos : 0 < avgLoss).
  { apply Qle_lteq in Hloss. destruct Hloss as [H|H]; [exact H|].
    exfalso. apply E. symmetry. exact H. }
  assert (Hrs : 0 <= avgGain / avgLoss) by (apply Qle_shift_div_l; lra).
  assert (H1 : 0 <= 100 / (1 + avgGain / avgLoss)) by (apply Qle_shift_div_l; lra).
  assert (H2 : 100 / (1 + avgGain / avgLoss) <= 100) by (apply Qle_shift_div_r; lra).
  lra.
Qed.

Lemma calculateRSI_range_witness :
  (0 < 2)%nat /\ 0 <= calculateRSI [10; 11; 9; 12] 2 <= 100.
Proof. split; [lia|]. apply calculateRSI_range. lia. Defined.

(** X4.  When no close is below the one before it, a flat series
    included, and there are more closes than the period, the RSI is
    100: the average loss is 0 and the code returns before dividing. *)
Theorem calculateRSI_never_falling (closes : list Q) (period : nat) :
  (0 < period < List.length closes)%nat -> neverFalls closes ->
  calculateRSI closes period == 100.
Proof.
  intros [Hperiod Hlen] Hup. unfold calculateRSI.
  destruct (Nat.ltb (List.length closes) (period + 1)) eqn:Eshort;
    [apply Nat.ltb_lt in Eshort; lia|].
  cbv zeta.
  assert (Hzero :
    wilder period
      (total (firstn period (map (fun c => if Qltb c 0 then Qabs c else 0)
                                 (changesOf closes))) / Qnat period)
      (skipn period (map (fun c => if Qltb c 0 then Qabs c else 0)
                         (changesOf closes))) == 0).
  { apply average_zero; [exact Hperiod|].
    apply Forall_map. pose proof (changes_neverFalls closes Hup) as Hch.
    revert Hch. apply Forall_impl. intros c Hc.
    destruct (Qltb c 0) eqn:E; qbool; [lra|reflexivity]. }
  apply Qeq_bool_iff in Hzero. rewrite Hzero. reflexivity.
Qed.

Lemma calculateRSI_never_falling_witness :
  (0 < 2 < List.length [7; 7; 7; 7])%nat /\ neverFalls [7; 7; 7; 7]
  /\ calculateRSI [7; 7; 7; 7] 2 == 100.
Proof.
  assert (Hup : neverFalls [7; 7; 7; 7]).
  { repeat constructor; cbv; discriminate. }
  split; [simpl; lia|]. split; [exact Hup|].
  apply calculateRSI_never_falling; [simpl; lia|exact Hup].
Defined.

(** X5.  When every close is below the one before it and there are
    more closes than the period, the RSI is 0. *)
Theorem calculateRSI_always_falling (closes : list Q) (period : nat) :
  (0 < period < List.length closes)%nat -> alwaysFalls closes ->
  calculateRSI closes period == 0.
Proof.
  intros [Hperiod Hlen] Hdown. unfold calculateRSI.
  destruct (Nat.ltb (List.length closes) (period + 1)) eqn:Eshort;
    [apply Nat.ltb_lt in Eshort; lia|].
  cbv zeta.
  pose proof (changes_alwaysFalls closes Hdown) as Hch.
  assert (Hgain :
    wilder period
      (total (firstn period (map (fun c => if Qltb 0 c then c else 0)
                                 (changesOf closes))) / Qnat period)
      (skipn period (map (fun c => if Qltb 0 c then c else 0)
                         (changesOf closes))) == 0).
  { apply average_zero; [exact Hperiod|].
    apply Forall_map. revert Hch. apply Forall_impl. intros c Hc.
    destruct (Qltb 0 c) eqn:E; qbool; [lra|reflexivity]. }
  assert (Hloss :
    0 < wilder period
      (total (firstn period (map (fun c => if Qltb c 0 then Qabs c else 0)
                                 (changesOf closes))) / Qnat period)
      (skipn period (map (fun c => if Qltb c 0 then Qabs c else 0)
                         (changesOf closes)))).
  { apply average_pos.
    - rewrite length_map, changesOf_length. lia.
    - apply Forall_map. revert Hch. apply Forall_impl. intros c Hc.
      destruct (Qltb c 0) eqn:E; qbool; [|lra].
      rewrite Qabs_neg by lra. lra. }
  set (avgLoss := wilder period _ (skipn period (map (fun c => if Qltb c 0 then Qabs c else 0) _))) in *.
  destruct (Qeq_bool avgLoss 0) eqn:E; qbool; [lra|].
  rewrite Hgain. field. lra.
Qed.

Lemma calculateRSI_always_falling_witness :
  (0 < 2 < List.length [9; 8; 6; 5])%nat /\ alwaysFalls [9; 8; 6; 5]
  /\ calculateRSI [9; 8; 6; 5] 2 == 0.
Proof.
  assert (Hdown : alwaysFalls [9; 8; 6; 5]).
  { repeat constructor; cbv; reflexivity. }
  split; [simpl; lia|]. split; [exact Hdown|].
  apply calculateRSI_always_falling; [simpl; lia|exact Hdown].
Defined.

(** ** ATR and ADX *)

Lemma qmax_le_l (a b : Q) : a <= qmax a b.
Proof. unfold qmax. destruct (Qltb a b) eqn:E; qbool; lra. Qed.

Lemma qmax_le_r (a b : Q) : b <= qmax a b.
Proof. unfold qmax. destruct (Qltb a b) eqn:E; qbool; lra. Qed.

Lemma trueRanges_nonneg (highs lows closes : list Q) :
  Forall (fun x => 0 <= x) (trueRangesOf highs lows closes).
Proof.
  revert lows closes.
  induction highs as [|h0 highs IH]; intros lows closes; [constructor|].
  destruct highs as [|high highs]; [constructor|].
  destruct lows as [|l0 [|low lows]]; [constructor|constructor|].
  destruct closes as [|prevClose closes]; [constructor|].
  change (trueRangesOf (h0 :: high :: highs) (l0 :: low :: lows) (prevClose :: closes))
    with (qmax (qmax (high - low) (Qabs (high - prevClose))) (Qabs (low - prevClose))
          :: trueRangesOf (high :: highs) (low :: lows) closes).
  constructor; [|apply IH].
  apply Qle_trans with (Qabs (low - prevClose)); [apply Qabs_nonneg|apply qmax_le_r].
Qed.

(** X6.  The ATR is never negative, whatever the candles, and the
    ATR percent is not negative either when the last close is not. *)
Theorem calculateATR_nonneg (highs lows closes : list Q) (period : nat) :
  (0 < period)%nat ->
  0 <= calculateATR highs lows closes period
  /\ (0 <= lastOf closes -> 0 <= calculateATRPercent highs lows closes period).
Proof.
  intro Hperiod.
  assert (Hatr : 0 <= calculateATR highs lows closes period).
  { unfold calculateATR.
    destruct (Nat.ltb (List.length highs) (period + 1)); [lra|].
    apply average_nonneg; [exact Hperiod|apply trueRanges_nonneg]. }
  split; [exact Hatr|]. intro Hlast. unfold calculateATRPercent. cbv zeta.
  destruct (Qeq_bool (lastOf closes) 0) eqn:E; [lra|]. qbool.
  assert (Hpos : 0 < lastOf closes).
  { apply Qle_lteq in Hlast. destruct Hlast as [H|H]; [exact H|].
    exfalso. apply E. symmetry. exact H. }
  assert (0 <= calculateATR highs lows closes period / lastOf closes)
    by (apply Qle_shift_div_l; lra).
  lra.
Qed.

Lemma calculateATR_nonneg_witness :
  (0 < 2)%nat
  /\ 0 <= lastOf [9; 11; 8]
  /\ 0 <= calculateATR [10; 12; 11] [8; 9; 7] [9; 11; 8] 2
  /\ 0 <= calculateATRPercent [10; 12; 11] [8; 9; 7] [9; 11; 8] 2.
Proof.
  assert (Hperiod : (0 < 2)%nat) by lia.
  assert (Hlast : 0 <= lastOf [9; 11; 8]) by (vm_compute; discriminate).
  destruct (calculateATR_nonneg [10; 12; 11] [8; 9; 7] [9; 11; 8] 2 Hperiod)
    as [Hatr Hpercent].
  split; [exact Hperiod|]. split; [exact Hlast|]. split; [exact Hatr|].
  exact (Hpercent Hlast).
Defined.

Lemma plusDM_nonneg (highs lows : list Q) :
  Forall (fun x => 0 <= x) (plusDMOf highs lows).
Proof.
  revert lows.
  induction highs as [|prevHigh highs IH]; intros lows; [constructor|].
  destruct highs as [|high highs]; [constructor|].
  destruct lows as [|prevLow [|low lows]]; [constructor|constructor|].
  change (plusDMOf (prevHigh :: high :: highs) (prevLow :: low :: lows))
    with ((if Qltb (prevLow - low) (high - prevHigh) && Qltb 0 (high - prevHigh)
           then high - prevHigh else 0)
          :: plusDMOf (high :: highs) (low :: lows)).
  constructor; [|apply IH].
  destruct (Qltb (prevLow - low) (high - prevHigh)); simpl; [|lra].
  destruct (Qltb 0 (high - prevHigh)) eqn:E; qbool; lra.
Qed.

Lemma minusDM_nonneg (highs lows : list Q) :
  Forall (fun x => 0 <= x) (minusDMOf highs lows).
Proof.
  revert lows.
  induction highs as [|prevHigh highs IH]; intros lows; [constructor|].
  destruct highs as [|high highs]; [constructor|].
  destruct lows as [|prevLow [|low lows]]; [constructor|constructor|].
  change (minusDMOf (prevHigh :: high :: highs) (prevLow :: low :: lows))
    with ((if Qltb (high - prevHigh) (prevLow - low) && Qltb 0 (prevLow - low)
           then prevLow - low else 0)
          :: minusDMOf (high :: highs) (low :: lows)).
  constructor; [|apply IH].
  destruct (Qltb (high - prevHigh) (prevLow - low)); simpl; [|lra].
  destruct (Qltb 0 (prevLow - low)) eqn:E; qbool; lra.
Qed.

Lemma smoothed_nonneg (period : nat) (values : list Q) :
  (0 < period)%nat -> Forall (fun x => 0 <= x) values ->
  forall start, 0 <= start -> 0 <= smoothed period start values.
Proof.
  intros Hperiod. pose proof (Qnat_pos _ Hperiod) as Hp. unfold smoothed.
  induction 1 as [|x values Hx _ IH]; intros start Hstart; simpl; [exact Hstart|].
  apply IH.
  assert (start / Qnat period <= start); [|lra].
  apply Qle_shift_div_r; [lra|].
  assert (0 <= start * (Qnat period - 1)) by (apply Qmult_le_0_compat; lra).
  lra.
Qed.

Lemma smoothing_nonneg (period : nat) (values : list Q) :
  (0 < period)%nat -> Forall (fun x => 0 <= x) values ->
  0 <= smoothed period (total (firstn period values)) (skipn period values).
Proof.
  intros Hperiod Hall.
  destruct (Forall_split _ period values Hall) as [Hfirst Hrest].
  apply smoothed_nonneg; [exact Hperiod|exact Hrest|apply total_nonneg, Hfirst].
Qed.

(** X7.  The ADX (the last DX of the source) is between 0 and 100 for
    all candles and every positive period. *)
Theorem calculateADX_range (highs lows closes : list Q) (period : nat) :
  (0 < period)%nat -> 0 <= calculateADX highs lows closes period <= 100.
Proof.
  intro Hperiod. unfold calculateADX.
  destruct (Nat.ltb (List.length highs) (period + 1)); [lra|].
  pose proof (smoothing_nonneg period _ Hperiod (plusDM_nonneg highs lows)) as Hplus.
  pose proof (smoothing_nonneg period _ Hperiod (minusDM_nonneg highs lows)) as Hminus.
  pose proof (smoothing_nonneg period _ Hperiod (trueRanges_nonneg highs lows closes))
    as Htr.
  cbv zeta.
  set (smoothPlusDM := smoothed period _ (skipn period (plusDMOf _ _))) in *.
  set (smoothMinusDM := smoothed period _ (skipn period (minusDMOf _ _))) in *.
  set (smoothTR := smoothed period _ (skipn period (trueRangesOf _ _ _))) in *.
  destruct (Qeq_bool smoothTR 0) eqn:Etr.
  - replace (Qeq_bool (0 + 0) 0) with true by reflexivity. lra.
  - qbool.
    assert (Hpos : 0 < smoothTR).
    { apply Qle_lteq in Htr. destruct Htr as [H|H]; [exact H|].
      exfalso. apply Etr. symmetry. exact H. }
    set (plusDI := smoothPlusDM / smoothTR * 100).
    set (minusDI := smoothMinusDM / smoothTR * 100).
    assert (HplusDI : 0 <= plusDI).
    { subst plusDI.
      assert (0 <= smoothPlusDM / smoothTR) by (apply Qle_shift_div_l; lra). lra. }
    assert (HminusDI : 0 <= minusDI).
    { subst minusDI.
      assert (0 <= smoothMinusDM / smoothTR) by (apply Qle_shift_div_l; lra). lra. }
    destruct (Qeq_bool (plusDI + minusDI) 0) eqn:Esum; [lra|]. qbool.
    assert (Hsum : 0 < plusDI + minusDI).
    { assert (H0 : 0 <= plusDI + minusDI) by lra.
      apply Qle_lteq in H0. destruct H0 as [H|H]; [exact H|].
      exfalso. apply Esum. symmetry. exact H. }
    assert (Habs0 : 0 <= Qabs (plusDI - minusDI)) by apply Qabs_nonneg.
    assert (Habs : Qabs (plusDI - minusDI) <= plusDI + minusDI).
    { apply Qabs_Qle_condition. split; lra. }
    assert (H1 : 0 <= Qabs (plusDI - minusDI) / (plusDI + minusDI))
      by (apply Qle_shift_div_l; lra).
    assert (H2 : Qabs (plusDI - minusDI) / (plusDI + minusDI) <= 1)
      by (apply Qle_shift_div_r; lra).
    lra.
Qed.

Lemma calculateADX_range_witness :
  (0 < 2)%nat /\ 0 <= calculateADX [10; 12; 11; 13] [8; 9; 7; 10] [9; 11; 8; 12] 2 <= 100.
Proof. split; [lia|]. apply calculateADX_range. lia. Defined.

(** ** Swing points *)








End IndicatorProofs.

(** ** The market regime *)

Module RegimeProofs.
Import RegimeService.

Lemma classifyVolatility_extreme (atrPercent : Q) :
  classifyVolatility atrPercent = vol_extreme <-> 5 <= atrPercent.
Proof.
  unfold classifyVolatility.
  destruct (Qltb atrPercent (1 # 2)) eqn:E1;
    destruct (Qltb atrPercent (5 # 2)) eqn:E2;
    destruct (Qltb atrPercent 5) eqn:E3; qbool;
    split; intro H; try discriminate; try reflexivity; try lra.
Qed.

(** X9.  The decision of [evaluate] is DANGER exactly when the ATR
    percent is at least 5 and the fear and greed index is below 10; it
    is TRADE_ALLOWED otherwise and never WAIT, whatever the trend. *)
Theorem evaluate_decision
    (toFixed : nat -> Q -> string) (toString : Q -> string)
    (symbol : string) (indicators : Indicators.t) (fearGreedIndex : Q)
    (currentPrice : option Q) (now : Z) :
  let decision :=
    RegimeState.decision
      (evaluate toFixed toString symbol indicators fearGreedIndex currentPrice now) in
  (decision = DANGER <-> 5 <= Indicators.atrPercent indicators /\ fearGreedIndex < 10)
  /\ (decision = DANGER \/ decision = TRADE_ALLOWED).
Proof.
  cbn [evaluate RegimeState.decision]. unfold makeDecision.
  pose proof (classifyVolatility_extreme (Indicators.atrPercent indicators)) as Hext.
  destruct (classifyVolatility (Indicators.atrPercent indicators)).
  1-3: split; [split; [discriminate|]|right; reflexivity];
    intros [H _]; apply Hext in H; discriminate.
  destruct (Qltb fearGreedIndex 10) eqn:E; qbool.
  - split; [|left; reflexivity].
    split; [intros _|reflexivity]. split; [apply Hext; reflexivity|exact E].
  - split; [|right; reflexivity]. split; [discriminate|]. intros [_ H]. lra.
Qed.

(** X10.  A DANGER regime always carries the label Extreme Fear and
    the volatility extreme. *)
Theorem danger_is_extreme_fear
    (toFixed : nat -> Q -> string) (toString : Q -> string)
    (symbol : string) (indicators : Indicators.t) (fearGreedIndex : Q)
    (currentPrice : option Q) (now : Z) :
  let regime :=
    evaluate toFixed toString symbol indicators fearGreedIndex currentPrice now in
  RegimeState.decision regime = DANGER ->
  RegimeState.fearGreedLabel regime = "Extreme Fear"%string
  /\ RegimeState.volatility regime = vol_extreme.
Proof.
  cbn [evaluate RegimeState.decision RegimeState.fearGreedLabel RegimeState.volatility].
  unfold makeDecision, getFearGreedLabel.
  destruct (classifyVolatility (Indicators.atrPercent indicators)); try discriminate.
  destruct (Qltb fearGreedIndex 10) eqn:E; [|discriminate]. qbool. intros _.
  split; [|reflexivity].
  destruct (Qle_bool fearGreedIndex 20) eqn:E20; [reflexivity|]. qbool. lra.
Qed.

Lemma danger_is_extreme_fear_witness :
  let regime :=
    evaluate Market.silentFixed Market.silent "BTCUSDT" Market.panic 5 None 0 in
  RegimeState.decision regime = DANGER
  /\ RegimeState.fearGreedLabel regime = "Extreme Fear"%string
  /\ RegimeState.volatility regime = vol_extreme.
Proof.
  split; [reflexivity|].
  apply (danger_is_extreme_fear Market.silentFixed Market.silent). reflexivity.
Defined.

(** The price [classifyTrend] compares with the averages. *)
Lemma classifyTrend_cases (indicators : Indicators.t) (price : option Q) :
  let ema9 := Indicators.ema9 indicators in
  let ema21 := Indicators.ema21 indicators in
  let ema50 := Indicators.ema50 indicators in
  let adx14 := Indicators.adx14 indicators in
  let currentPrice := match price with Some p => p | None => ema9 end in
  let trend := classifyTrend indicators price in
  (trend = strong_up <->
     ema9 < currentPrice /\ ema21 < ema9 /\ ema50 < ema21 /\ 25 < adx14)
  /\ (trend = up <->
       (ema21 < currentPrice /\ ema21 < ema9)
       /\ ~ (ema9 < currentPrice /\ ema50 < ema21 /\ 25 < adx14))
  /\ (trend = strong_down <->
       currentPrice < ema9 /\ ema9 < ema21 /\ ema21 < ema50 /\ 25 < adx14)
  /\ (trend = down <->
       (currentPrice < ema21 /\ ema9 < ema21)
       /\ ~ (currentPrice < ema9 /\ ema21 < ema50 /\ 25 < adx14)).
Proof.
  intros ema9 ema21 ema50 adx14 currentPrice trend.
  subst trend. unfold classifyTrend.
  fold ema9 ema21 ema50 adx14. fold currentPrice.
  destruct (Qltb ema9 currentPrice) eqn:E1;
    destruct (Qltb ema21 ema9) eqn:E2;
    destruct (Qltb ema50 ema21) eqn:E3;
    destruct (Qltb 25 adx14) eqn:E4;
    destruct (Qltb ema21 currentPrice) eqn:E5;
    destruct (Qltb currentPrice ema9) eqn:E6;
    destruct (Qltb ema9 ema21) eqn:E7;
    destruct (Qltb ema21 ema50) eqn:E8;
    destruct (Qltb currentPrice ema21) eqn:E9;
    cbn [andb orb];
    try (destruct (js_lt _ _ || Qltb adx14 15));
    qbool; try (exfalso; lra);
    (split; [|split; [|split]]);
    (split; [try discriminate; intros _; repeat split; try lra; intro; lra
            | try reflexivity; intro; exfalso; intuition lra]).
Qed.

(** X11.  The trend is on the up side (strong_up or up) exactly when
    the price and the EMA 9 are both above the EMA 21, and on the down
    side exactly when both are below it; the EMA 50 and the ADX only
    tell strong from ordinary, and the test on the alignment of the
    averages changes nothing. *)
Theorem classifyTrend_sides (indicators : Indicators.t) (price : option Q) :
  let ema9 := Indicators.ema9 indicators in
  let ema21 := Indicators.ema21 indicators in
  let currentPrice := match price with Some p => p | None => ema9 end in
  let trend := classifyTrend indicators price in
  (trend = strong_up \/ trend = up <-> ema21 < currentPrice /\ ema21 < ema9)
  /\ (trend = strong_down \/ trend = down <-> currentPrice < ema21 /\ ema9 < ema21)
  /\ (trend = neutral <->
       ~ (ema21 < currentPrice /\ ema21 < ema9)
       /\ ~ (currentPrice < ema21 /\ ema9 < ema21)).
Proof.
  intros ema9 ema21 currentPrice trend.
  destruct (classifyTrend_cases indicators price) as (Hsu & Hu & Hsd & Hd).
  fold ema9 ema21 in Hsu, Hu, Hsd, Hd. fold currentPrice in Hsu, Hu, Hsd, Hd.
  fold trend in Hsu, Hu, Hsd, Hd.
  set (ema50 := Indicators.ema50 indicators) in *.
  set (adx14 := Indicators.adx14 indicators) in *.
  assert (Hup : trend = strong_up \/ trend = up <-> ema21 < currentPrice /\ ema21 < ema9).
  { split.
    - intros [H|H]; [apply Hsu in H|apply Hu in H]; intuition lra.
    - intros [H1 H2].
      destruct (Qlt_le_dec ema9 currentPrice) as [Ha|Ha];
        [destruct (Qlt_le_dec ema50 ema21) as [Hb|Hb];
         [destruct (Qlt_le_dec 25 adx14) as [Hc|Hc]|]|].
      + left. apply Hsu. intuition.
      + right. apply Hu. intuition lra.
      + right. apply Hu. intuition lra.
      + right. apply Hu. intuition lra. }
  assert (Hdown :
    trend = strong_down \/ trend = down <-> currentPrice < ema21 /\ ema9 < ema21).
  { split.
    - intros [H|H]; [apply Hsd in H|apply Hd in H]; intuition lra.
    - intros [H1 H2].
      destruct (Qlt_le_dec currentPrice ema9) as [Ha|Ha];
        [destruct (Qlt_le_dec ema21 ema50) as [Hb|Hb];
         [destruct (Qlt_le_dec 25 adx14) as [Hc|Hc]|]|].
      + left. apply Hsd. intuition.
      + right. apply Hd. intuition lra.
      + right. apply Hd. intuition lra.
      + right. apply Hd. intuition lra. }
  split; [exact Hup|]. split; [exact Hdown|].
  split.
  - intro Hn. split; intro H; [apply Hup in H|apply Hdown in H];
      destruct H as [H|H]; rewrite Hn in H; discriminate.
  - intros [Hnu Hnd].
    destruct trend eqn:E; try reflexivity; exfalso.
    + apply Hnu, Hup. left. reflexivity.
    + apply Hnu, Hup. right. reflexivity.
    + apply Hnd, Hdown. right. reflexivity.
    + apply Hnd, Hdown. left. reflexivity.
Qed.

(** X12.  When [evaluate] is called without a price, the EMA 9 stands
    for it and the trend is never strong: it is up when the EMA 9 is
    above the EMA 21, down when it is below, and neutral when they are
    equal, whatever the EMA 50 and the ADX. *)
Theorem trend_without_price
    (toFixed : nat -> Q -> string) (toString : Q -> string)
    (symbol : string) (indicators : Indicators.t) (fearGreedIndex : Q) (now : Z) :
  let ema9 := Indicators.ema9 indicators in
  let ema21 := Indicators.ema21 indicators in
  let trend :=
    RegimeState.trend
      (evaluate toFixed toString symbol indicators fearGreedIndex None now) in
  trend <> strong_up /\ trend <> strong_down
  /\ (trend = up <-> ema21 < ema9)
  /\ (trend = down <-> ema9 < ema21)
  /\ (trend = neutral <-> ema9 == ema21).
Proof.
  intros ema9 ema21 trend.
  change trend with (classifyTrend indicators None).
  destruct (classifyTrend_cases indicators None) as (Hsu & Hu & Hsd & Hd).
  fold ema9 ema21 in Hsu, Hu, Hsd, Hd.
  set (ema50 := Indicators.ema50 indicators) in *.
  set (adx14 := Indicators.adx14 indicators) in *.
  assert (Hnsu : classifyTrend indicators None <> strong_up).
  { intro H. apply Hsu in H. destruct H as [H _]. lra. }
  assert (Hnsd : classifyTrend indicators None <> strong_down).
  { intro H. apply Hsd in H. destruct H as [H _]. lra. }
  assert (Hup : classifyTrend indicators None = up <-> ema21 < ema9).
  { split; [intro H; apply Hu in H; intuition|].
    intro H. apply Hu. split; [split; exact H|]. intros [H1 _]. lra. }
  assert (Hdown : classifyTrend indicators None = down <-> ema9 < ema21).
  { split; [intro H; apply Hd in H; intuition|].
    intro H. apply Hd. split; [split; exact H|]. intros [H1 _]. lra. }
  split; [exact Hnsu|]. split; [exact Hnsd|]. split; [exact Hup|]. split; [exact Hdown|].
  split.
  - intro Hn.
    destruct (Q_dec ema9 ema21) as [[H|H]|H]; [| |exact H].
    + apply Hdown in H. congruence.
    + apply Hup in H. congruence.
  - intro Heq.
    destruct (classifyTrend indicators None) eqn:E; try reflexivity; exfalso.
    + apply Hnsu. reflexivity.
    + assert (ema21 < ema9) by (apply Hup; reflexivity). lra.
    + assert (ema9 < ema21) by (apply Hdown; reflexivity). lra.
    + apply Hnsd. reflexivity.
Qed.

End RegimeProofs.

(** ** The portfolio over its life *)

Module PortfolioLaws.
Import PortfolioService PortfolioSpec PortfolioFacts.

Lemma positions_set_length (position : Position.t) (m : list Position.t) :
  (List.length (positions_set position m) <= S (List.length m))%nat.
Proof.
  induction m as [|p m IH]; simpl; [lia|].
  destruct (String.eqb (Position.id p) (Position.id position)); simpl; lia.
Qed.

Lemma positions_delete_length (id : string) (m : list Position.t) :
  (List.length (positions_delete id m) <= List.length m)%nat.
Proof. apply filter_length_le. Qed.

(** What one mutation keeps or changes. *)
Lemma apply_frame (this this' : t) (op : Op) :
  apply this op = Some this' ->
  config this' = config this
  /\ initialCapital this' = initialCapital this
  /\ (exists more, closedTrades this' = closedTrades this ++ more)
  /\ ((List.length (positions this') <= List.length (positions this))%nat
      \/ (canOpenPosition this EmptyString = true
          /\ (List.length (positions this') <= S (List.length (positions this)))%nat)).
Proof.
  destruct op as [signal currentPrice uuid now|prices|positionId exitPrice exitReason now];
    cbn [apply].
  - unfold openPosition.
    assert (Hsame : canOpenPosition this (TradeSignal.symbol signal)
                    = canOpenPosition this EmptyString) by reflexivity.
    rewrite Hsame.
    assert (Hkeep : forall x, Some this = Some x ->
      config x = config this /\ initialCapital x = initialCapital this
      /\ (exists more, closedTrades x = closedTrades this ++ more)
      /\ ((List.length (positions x) <= List.length (positions this))%nat
          \/ (canOpenPosition this EmptyString = true
              /\ (List.length (positions x) <= S (List.length (positions this)))%nat))).
    { intros x Hx. injection Hx as <-. split; [reflexivity|]. split; [reflexivity|].
      split; [exists []; rewrite app_nil_r; reflexivity|]. left. lia. }
    destruct (canOpenPosition this EmptyString) eqn:Ecan; cbn [negb]; [|apply Hkeep].
    destruct (TradeSignal.direction signal) as [direction|]; [|apply Hkeep].
    destruct (calculatePositionSize this _ _ direction) as [positionSize| | |];
      try discriminate.
    destruct (Qeq_bool positionSize 0); [apply Hkeep|].
    destruct (Qltb (availableCash this) _); [apply Hkeep|].
    intro H. injection H as <-. cbn.
    split; [reflexivity|]. split; [reflexivity|].
    split; [exists []; rewrite app_nil_r; reflexivity|].
    right. split; [reflexivity|]. apply positions_set_length.
  - intro H. injection H as <-. cbn.
    split; [reflexivity|]. split; [reflexivity|].
    split; [exists []; rewrite app_nil_r; reflexivity|].
    left. rewrite length_map. lia.
  - unfold closePosition.
    destruct (find _ (positions this)) as [position|]; cbn [fst]; intro H;
      injection H as <-; cbn.
    + split; [reflexivity|]. split; [reflexivity|].
      split; [eexists; reflexivity|]. left. apply positions_delete_length.
    + split; [reflexivity|]. split; [reflexivity|].
      split; [exists []; rewrite app_nil_r; reflexivity|]. left. lia.
Qed.

Lemma canOpenPosition_room (this : t) (symbol : string) (max : nat) :
  TradingConfig.maxOpenPositions (config this) == inject_Z (Z.of_nat max) ->
  canOpenPosition this symbol = true ->
  (List.length (positions this) < max)%nat.
Proof.
  intros Hmax. unfold canOpenPosition.
  destruct (Qle_bool _ _) eqn:E; [discriminate|]. intros _. qbool.
  rewrite Hmax in E. rewrite <- Zlt_Qlt in E. lia.
Qed.

(** X13.  With a whole number [max] as [maxOpenPositions], a portfolio
    never holds more than [max] open positions, whatever sequence of
    openings, price updates and closings it has gone through. *)
Theorem open_positions_bounded
    (config : TradingConfig.t) (max : nat) (ops : list Op) (this : t) :
  TradingConfig.maxOpenPositions config == inject_Z (Z.of_nat max) ->
  run (constructor config) ops = Some this ->
  (List.length (getOpenPositions this) <= max)%nat.
Proof.
  intros Hmax.
  assert (Hinv : forall ops start,
    PortfolioService.config start = config ->
    (List.length (positions start) <= max)%nat ->
    run start ops = Some this ->
    (List.length (positions this) <= max)%nat).
  { clear ops. induction ops as [|op ops IH]; intros start Hconfig Hlen; cbn [run].
    - intro H. injection H as <-. exact Hlen.
    - destruct (apply start op) as [next|] eqn:Eop; [|discriminate].
      destruct (apply_frame _ _ _ Eop) as (Hc & _ & _ & Hgrow).
      apply IH; [congruence|].
      destruct Hgrow as [Hle|[Hcan Hle]]; [lia|].
      assert (List.length (positions start) < max)%nat; [|lia].
      apply (canOpenPosition_room start EmptyString); [rewrite Hconfig; exact Hmax|exact Hcan]. }
  intro Hrun. apply (Hinv ops (constructor config)); [reflexivity|simpl; lia|exact Hrun].
Qed.

Lemma open_positions_bounded_witness :
  TradingConfig.maxOpenPositions DEFAULT_CONFIG == inject_Z (Z.of_nat 12)
  /\ exists this,
       run (constructor DEFAULT_CONFIG) Scenario.operations = Some this
       /\ (List.length (getOpenPositions this) <= 12)%nat.
Proof.
  split; [reflexivity|]. eexists. split; [vm_compute; reflexivity|].
  apply (open_positions_bounded DEFAULT_CONFIG 12 Scenario.operations);
    [reflexivity|vm_compute; reflexivity].
Defined.



Lemma find_positions_set (position : Position.t) (m : list Position.t) :
  find (fun p => String.eqb (Position.id p) (Position.id position))
       (positions_set position m) = Some position.
Proof.
  induction m as [|p m IH]; simpl.
  - rewrite String.eqb_refl. reflexivity.
  - destruct (String.eqb (Position.id p) (Position.id position)) eqn:E; simpl.
    + rewrite String.eqb_refl. reflexivity.
    + rewrite E. exact IH.
Qed.

(** X15.  A position that is opened and then closed moves the cash by
    quantity * (exit price - fill price) less the two commissions,
    whatever its direction: that is the net P&L recorded for a LONG;
    for a SHORT the recorded P&L is quantity * (fill price - exit
    price) less the commissions, so the cash falls when the SHORT
    gains. *)
Theorem round_trip_cash
    (this this1 : t) (signal : TradeSignal.t) (currentPrice exitPrice : Q)
    (uuid : string) (now later : Z) (position : Position.t)
    (exitReason : TradeExitReason) :
  openPosition this signal currentPrice uuid now = Opened this1 position ->
  exists this2 trade,
    closePosition this1 uuid exitPrice exitReason later = (this2, Some trade)
    /\ ClosedTrade.commission trade
       == Position.quantity position * (currentPrice + exitPrice)
          * TradingConfig.commissionRate (config this)
    /\ availableCash this2 - availableCash this
       == Position.quantity position * (exitPrice - currentPrice)
          - ClosedTrade.commission trade
    /\ ClosedTrade.pnl trade
       == match Position.direction position with
          | LONG => Position.quantity position * (exitPrice - currentPrice)
          | SHORT => Position.quantity position * (currentPrice - exitPrice)
          end - ClosedTrade.commission trade.
Proof.
  unfold openPosition.
  destruct (negb (canOpenPosition this (TradeSignal.symbol signal))); [discriminate|].
  destruct (TradeSignal.direction signal) as [direction|]; [|discriminate].
  destruct (calculatePositionSize this _ _ direction) as [positionSize| | |];
    try discriminate.
  destruct (Qeq_bool positionSize 0); [discriminate|].
  destruct (Qltb (availableCash this) _); [discriminate|].
  intro H. injection H as <- <-.
  unfold closePosition. cbn [positions].
  match goal with
  | |- context [positions_set ?p _] =>
      pose proof (find_positions_set p (PortfolioService.positions this)) as Hfind
  end.
  cbn [Position.id] in Hfind. rewrite Hfind.
  eexists. eexists. split; [reflexivity|].
  cbn [ClosedTrade.commission ClosedTrade.pnl availableCash config
       Position.quantity Position.entryPrice Position.direction].
  split; [ring|]. split; [ring|].
  destruct direction; ring.
Qed.

Lemma round_trip_cash_witness :
  exists this1 position,
    openPosition Scenario.portfolio Market.shortSignal 100 "position-9" 0
    = Opened this1 position
    /\ exists this2 trade,
         closePosition this1 "position-9" 90 take_profit 5 = (this2, Some trade)
         /\ ClosedTrade.commission trade
            == Position.quantity position * (100 + 90)
               * TradingConfig.commissionRate (config Scenario.portfolio)
         /\ availableCash this2 - availableCash Scenario.portfolio
            == Position.quantity position * (90 - 100)
               - ClosedTrade.commission trade
         /\ ClosedTrade.pnl trade
            == match Position.direction position with
               | LONG => Position.quantity position * (90 - 100)
               | SHORT => Position.quantity position * (100 - 90)
               end - ClosedTrade.commission trade.
Proof.
  eexists. eexists. split; [vm_compute; reflexivity|].
  apply (round_trip_cash Scenario.portfolio _ Market.shortSignal 100 90
           "position-9" 0 5 _ take_profit).
  vm_compute. reflexivity.
Defined.



Lemma updatePosition_idempotent
    (config : TradingConfig.t) (prices : Prices) (position : Position.t) :
  updatePosition config prices (updatePosition config prices position)
  = updatePosition config prices position.
Proof.
  unfold updatePosition at 2.
  destruct (map_get (Position.symbol position) prices) as [currentPrice|] eqn:Eget.
  - destruct (negb (truthy currentPrice)) eqn:Etruthy.
    + unfold updatePosition. rewrite Eget, Etruthy. reflexivity.
    + unfold updatePosition. cbn [Position.symbol]. rewrite Eget, Etruthy.
      reflexivity.
  - unfold updatePosition. rewrite Eget. reflexivity.
Qed.

(** X17.  [updatePositions] is idempotent: marking the positions to
    the same prices a second time changes nothing, the total equity
    included. *)
Theorem updatePositions_idempotent (this : t) (prices : Prices) :
  updatePositions (updatePositions this prices) prices = updatePositions this prices.
Proof.
  unfold updatePositions. cbn [config positions availableCash totalEquity
                               closedTrades initialCapital].
  rewrite map_map.
  rewrite (map_ext _ _ (updatePosition_idempotent (PortfolioService.config this) prices)).
  reflexivity.
Qed.

End PortfolioLaws.

(** ** The trader over its life *)

Module TraderLaws.
Import TraderService TraderSpec.

Lemma unpriced_skips
    (prices : Prices) (now : Z) (acc : t * list ClosedTrade.t) (p : Position.t) :
  unpriced prices p -> checkExit prices now acc p = acc.
Proof.
  unfold unpriced, checkExit. destruct acc as [this closed].
  destruct (map_get (Position.symbol p) prices) as [currentPrice|]; [|reflexivity].
  intro H. unfold truthy. apply Qeq_bool_iff in H. rewrite H. reflexivity.
Qed.

Lemma unpriced_kept (config0 : TradingConfig.t) (prices : Prices) (p : Position.t) :
  unpriced prices p -> PortfolioService.updatePosition config0 prices p = p.
Proof.
  unfold unpriced, PortfolioService.updatePosition.
  destruct (map_get (Position.symbol p) prices) as [currentPrice|]; [|reflexivity].
  intro H. unfold truthy. apply Qeq_bool_iff in H. rewrite H. reflexivity.
Qed.

(** X18.  A call of [checkExits] whose prices have nothing usable for
    any open position (no price, or the price 0) closes nothing and
    leaves the open positions, the cash and every trailing stop as
    they were. *)
Theorem checkExits_without_prices (this : t) (prices : Prices) (now : Z) :
  Forall (unpriced prices) (PortfolioService.getOpenPositions (portfolio this)) ->
  let (this', closedTrades) := checkExits this prices now in
  closedTrades = []
  /\ trailingStops this' = trailingStops this
  /\ PortfolioService.positions (portfolio this')
     = PortfolioService.positions (portfolio this)
  /\ PortfolioService.availableCash (portfolio this')
     = PortfolioService.availableCash (portfolio this)
  /\ PortfolioService.closedTrades (portfolio this')
     = PortfolioService.closedTrades (portfolio this).
Proof.
  intro Hall. unfold checkExits.
  assert (Hfold : forall snapshot acc,
    Forall (unpriced prices) snapshot ->
    fold_left (checkExit prices now) snapshot acc = acc).
  { induction snapshot as [|p snapshot IH]; intros acc H; cbn [fold_left];
      [reflexivity|].
    inversion H as [|? ? Hp Hrest]; subst.
    rewrite (unpriced_skips prices now acc p Hp). apply IH. exact Hrest. }
  rewrite (Hfold _ (this, []) Hall).
  cbn [trailingStops portfolio PortfolioService.updatePositions
       PortfolioService.positions PortfolioService.availableCash
       PortfolioService.closedTrades].
  split; [reflexivity|]. split; [reflexivity|].
  split; [|split; reflexivity].
  unfold PortfolioService.getOpenPositions in Hall.
  induction (PortfolioService.positions (portfolio this)) as [|p m IH];
    [reflexivity|].
  inversion Hall as [|? ? Hp Hrest]; subst. cbn [map].
  rewrite (unpriced_kept _ prices p Hp), (IH Hrest). reflexivity.
Qed.

Lemma checkExits_without_prices_witness :
  Forall (unpriced [("ETHUSDT"%string, 2000)])
         (PortfolioService.getOpenPositions (portfolio Scenario.trader))
  /\ let (this', closedTrades) :=
       checkExits Scenario.trader [("ETHUSDT"%string, 2000)] 1 in
     closedTrades = []
     /\ trailingStops this' = trailingStops Scenario.trader
     /\ PortfolioService.positions (portfolio this')
        = PortfolioService.positions (portfolio Scenario.trader)
     /\ PortfolioService.availableCash (portfolio this')
        = PortfolioService.availableCash (portfolio Scenario.trader)
     /\ PortfolioService.closedTrades (portfolio this')
        = PortfolioService.closedTrades (portfolio Scenario.trader).
Proof.
  assert (H : Forall (unpriced [("ETHUSDT"%string, 2000)])
                (PortfolioService.getOpenPositions (portfolio Scenario.trader))).
  { repeat constructor. }
  split; [exact H|].
  apply (checkExits_without_prices Scenario.trader [("ETHUSDT"%string, 2000)] 1 H).
Defined.

(** ** Every open position has its trailing stop *)

Lemma positions_set_In (position p : Position.t) (m : list Position.t) :
  In p (PortfolioService.positions_set position m) -> p = position \/ In p m.
Proof.
  induction m as [|q m IH]; simpl.
  - intros [H|[]]. left. symmetry. exact H.
  - destruct (String.eqb (Position.id q) (Position.id position)); simpl.
    + intros [H|H]; [left; symmetry; exact H|right; right; exact H].
    + intros [H|H]; [right; left; exact H|].
      destruct (IH H) as [H'|H']; [left; exact H'|right; right; exact H'].
Qed.

Lemma updateTrailingStop_keys
    (this : t) (position : Position.t) (currentPrice : Q) (id : string) :
  map_get id (trailingStops this) <> None ->
  map_get id (trailingStops (updateTrailingStop this position currentPrice)) <> None.
Proof.
  unfold updateTrailingStop.
  destruct (map_get (Position.id position) (trailingStops this)) as [s0|] eqn:E;
    [|auto].
  cbn. destruct (String.eqb (Position.id position) id) eqn:Eid.
  - apply String.eqb_eq in Eid. rewrite <- Eid, map_get_set_same. discriminate.
  - apply String.eqb_neq in Eid. rewrite (map_get_set_other _ _ _ _ Eid). auto.
Qed.

Lemma closePosition_removes
    (portfolio0 portfolio1 : PortfolioService.t) (positionId : string)
    (exitPrice : Q) (exitReason : TradeExitReason) (now : Z)
    (trade : ClosedTrade.t) (q : Position.t) :
  PortfolioService.closePosition portfolio0 positionId exitPrice exitReason now
  = (portfolio1, Some trade) ->
  In q (PortfolioService.positions portfolio1) ->
  In q (PortfolioService.positions portfolio0) /\ Position.id q <> positionId.
Proof.
  unfold PortfolioService.closePosition.
  destruct (find _ (PortfolioService.positions portfolio0)) as [found|] eqn:Efind;
    [|discriminate].
  apply find_some in Efind. destruct Efind as [_ Hid]. apply String.eqb_eq in Hid.
  intro H. injection H as <- _. cbn [PortfolioService.positions].
  unfold PortfolioService.positions_delete. rewrite filter_In, Hid.
  intros [Hin Hne]. split; [exact Hin|].
  apply negb_true_iff, String.eqb_neq in Hne. exact Hne.
Qed.

Lemma closePosition_nothing
    (portfolio0 portfolio1 : PortfolioService.t) (positionId : string)
    (exitPrice : Q) (exitReason : TradeExitReason) (now : Z) :
  PortfolioService.closePosition portfolio0 positionId exitPrice exitReason now
  = (portfolio1, None) ->
  portfolio1 = portfolio0.
Proof.
  unfold PortfolioService.closePosition.
  destruct (find _ (PortfolioService.positions portfolio0)); [discriminate|].
  intro H. injection H as <-. reflexivity.
Qed.

Lemma checkExit_covered
    (prices : Prices) (now : Z) (this : t) (closed : list ClosedTrade.t)
    (position : Position.t) :
  covered this -> covered (fst (checkExit prices now (this, closed) position)).
Proof.
  intro Hcov. unfold checkExit.
  destruct (map_get (Position.symbol position) prices) as [currentPrice|];
    [|exact Hcov].
  destruct (negb (truthy currentPrice)); [exact Hcov|].
  assert (Hcov1 : covered (updateTrailingStop this position currentPrice)).
  { intros p Hin. unfold getTrailingStopState. apply updateTrailingStop_keys.
    apply Hcov. rewrite TraderProofs.updateTrailingStop_portfolio in Hin. exact Hin. }
  set (this1 := updateTrailingStop this position currentPrice) in *.
  destruct (map_get (Position.id position) (trailingStops this1)) as [trailingState|];
    [|exact Hcov1].
  destruct (checkExitConditions position currentPrice trailingState) as [exitReason|];
    [|exact Hcov1].
  destruct (PortfolioService.closePosition (portfolio this1) (Position.id position)
              currentPrice exitReason now) as [portfolio1 [closedTrade|]] eqn:Eclose;
    cbn [fst].
  - intros q Hin. unfold getTrailingStopState, PortfolioService.getOpenPositions in *.
    cbn [portfolio trailingStops] in *.
    destruct (closePosition_removes _ _ _ _ _ _ _ q Eclose Hin) as [Hin0 Hne].
    rewrite map_get_delete_other by (intro H; apply Hne; symmetry; exact H).
    apply Hcov1. exact Hin0.
  - apply closePosition_nothing in Eclose. subst portfolio1.
    intros q Hin. apply Hcov1. exact Hin.
Qed.

Lemma checkExits_covered (this : t) (prices : Prices) (now : Z) :
  covered this -> covered (fst (checkExits this prices now)).
Proof.
  intro Hcov. unfold checkExits.
  assert (Hfold : forall snapshot this0 closed,
    covered this0 ->
    covered (fst (fold_left (checkExit prices now) snapshot (this0, closed)))).
  { induction snapshot as [|p snapshot IH]; intros this0 closed H; cbn [fold_left];
      [exact H|].
    pose proof (checkExit_covered prices now this0 closed p H) as H1.
    destruct (checkExit prices now (this0, closed) p) as [this1 closed1].
    apply IH. exact H1. }
  pose proof (Hfold (PortfolioService.getOpenPositions (portfolio this)) this [] Hcov)
    as H.
  destruct (fold_left (checkExit prices now) _ (this, [])) as [this1 closed1].
  cbn [fst] in *. intros q Hin.
  unfold getTrailingStopState, PortfolioService.getOpenPositions in *.
  cbn [portfolio trailingStops PortfolioService.updatePositions
       PortfolioService.positions] in *.
  apply in_map_iff in Hin. destruct Hin as (q0 & <- & Hin0).
  destruct (TraderProofs.updatePosition_same
              (PortfolioService.config (portfolio this1)) prices q0) as [Hid _].
  rewrite Hid. apply H. exact Hin0.
Qed.

Lemma executeTrade_covered
    (this this' : t) (signal : TradeSignal.t) (currentPrice : Q)
    (uuid : string) (now : Z) (opened : option Position.t) :
  executeTrade this signal currentPrice uuid now = Some (this', opened) ->
  covered this -> covered this'.
Proof.
  unfold executeTrade.
  destruct (PortfolioService.openPosition (portfolio this) signal currentPrice uuid now)
    as [portfolio1 position| |] eqn:Eopen; [| |discriminate].
  - intros H Hcov. injection H as <- _.
    destruct (PortfolioProofs.openPosition_opened _ _ _ _ _ _ _ Eopen)
      as (_ & _ & _ & _ & _ & _ & _ & Hpositions & _).
    intros q Hin. unfold getTrailingStopState, PortfolioService.getOpenPositions in *.
    cbn [portfolio trailingStops] in *. rewrite Hpositions in Hin.
    destruct (String.eqb (Position.id position) (Position.id q)) eqn:Eid.
    + apply String.eqb_eq in Eid. rewrite <- Eid, map_get_set_same. discriminate.
    + apply String.eqb_neq in Eid. rewrite (map_get_set_other _ _ _ _ Eid).
      apply positions_set_In in Hin. destruct Hin as [Hq|Hq].
      * subst q. contradiction Eid. reflexivity.
      * apply Hcov. exact Hq.
  - intros H Hcov. injection H as <- _. exact Hcov.
Qed.

(** X19.  Every open position has a trailing stop state under its
    id, after any sequence of [executeTrade] and [checkExits] calls
    on a trader that started that way (a new trader has no position):
    the guard of [checkExits] for a missing state never fires. *)
Theorem open_positions_have_trailing_stops (this this' : t) (cs : list Call) :
  covered this -> calls this cs = Some this' -> covered this'.
Proof.
  revert this. induction cs as [|c cs IH]; intros this Hcov; cbn [calls].
  - intro H. injection H as <-. exact Hcov.
  - destruct (call this c) as [next|] eqn:Ecall; [|discriminate].
    apply IH. destruct c as [signal currentPrice uuid now|prices now]; cbn [call] in Ecall.
    + destruct (executeTrade this signal currentPrice uuid now) as [[this1 opened]|] eqn:E;
        [|discriminate].
      injection Ecall as <-. apply (executeTrade_covered _ _ _ _ _ _ _ E Hcov).
    + injection Ecall as <-. apply checkExits_covered. exact Hcov.
Qed.

Lemma open_positions_have_trailing_stops_witness :
  covered Scenario.idle
  /\ exists this',
       calls Scenario.idle
         [Execute Scenario.signal 100 "position-1" 0; Check [("BTCUSDT"%string, 101)] 1]
       = Some this'
       /\ PortfolioService.getOpenPositions (portfolio this') <> []
       /\ covered this'.
Proof.
  assert (H : covered Scenario.idle) by (intros p []).
  split; [exact H|]. eexists. split; [vm_compute; reflexivity|].
  split; [discriminate|].
  apply (open_positions_have_trailing_stops Scenario.idle _
           [Execute Scenario.signal 100 "position-1" 0;
            Check [("BTCUSDT"%string, 101)] 1] H).
  vm_compute. reflexivity.
Defined.

(** ** Activation is kept and the extremes only widen *)

Lemma widened_refl (s : TrailingStopState.t) : widened s s.
Proof. unfold widened. split; [auto|]. split; lra. Qed.

Lemma widened_trans (s1 s2 s3 : TrailingStopState.t) :
  widened s1 s2 -> widened s2 s3 -> widened s1 s3.
Proof. unfold widened. intros (A1 & B1 & C1) (A2 & B2 & C2). split; [auto|]. split; lra. Qed.

Lemma trail_widened
    (config0 : TradingConfig.t) (position : Position.t) (currentPrice : Q)
    (s : TrailingStopState.t) :
  widened s (trail config0 position currentPrice s).
Proof.
  unfold trail.
  set (s1 := if negb (TrailingStopState.isActive s) && _ then _ else s).
  assert (H1 : widened s s1).
  { subst s1. destruct (negb (TrailingStopState.isActive s) && _);
      [|apply widened_refl].
    unfold widened. cbn. split; [auto|]. split; lra. }
  clearbody s1. cbv zeta.
  apply (widened_trans s s1); [exact H1|].
  destruct (TrailingStopState.isActive s1) eqn:Eactive; [|apply widened_refl].
  destruct (Position.direction position).
  - destruct (Qltb (TrailingStopState.highestPrice s1) currentPrice) eqn:E;
      [|apply widened_refl].
    qbool. unfold widened. cbn. split; [auto|]. split; lra.
  - destruct (Qltb currentPrice (TrailingStopState.lowestPrice s1)) eqn:E;
      [|apply widened_refl].
    qbool. unfold widened. cbn. split; [auto|]. split; lra.
Qed.

Lemma updateTrailingStop_widened
    (this : t) (position : Position.t) (currentPrice : Q) (id : string)
    (s' : TrailingStopState.t) :
  map_get id (trailingStops (updateTrailingStop this position currentPrice)) = Some s' ->
  exists s, map_get id (trailingStops this) = Some s /\ widened s s'.
Proof.
  unfold updateTrailingStop.
  destruct (map_get (Position.id position) (trailingStops this)) as [s0|] eqn:E.
  - cbn. destruct (String.eqb (Position.id position) id) eqn:Eid.
    + apply String.eqb_eq in Eid. rewrite <- Eid. rewrite map_get_set_same.
      intro H. injection H as <-. exists s0. split; [exact E|apply trail_widened].
    + apply String.eqb_neq in Eid. rewrite (map_get_set_other _ _ _ _ Eid).
      intro H. exists s'. split; [exact H|apply widened_refl].
  - intro H. exists s'. split; [exact H|apply widened_refl].
Qed.

Lemma checkExit_widened
    (prices : Prices) (now : Z) (this : t) (closed : list ClosedTrade.t)
    (position : Position.t) (id : string) (s' : TrailingStopState.t) :
  map_get id (trailingStops (fst (checkExit prices now (this, closed) position)))
  = Some s' ->
  exists s, map_get id (trailingStops this) = Some s /\ widened s s'.
Proof.
  unfold checkExit.
  assert (Hsame : map_get id (trailingStops this) = Some s' ->
                  exists s, map_get id (trailingStops this) = Some s /\ widened s s').
  { intro H. exists s'. split; [exact H|apply widened_refl]. }
  destruct (map_get (Position.symbol position) prices) as [currentPrice|];
    [|exact Hsame].
  destruct (negb (truthy currentPrice)); [exact Hsame|]. clear Hsame.
  pose proof (updateTrailingStop_widened this position currentPrice id s') as Hget.
  set (this1 := updateTrailingStop this position currentPrice) in *.
  destruct (map_get (Position.id position) (trailingStops this1)) as [trailingState|];
    [|exact Hget].
  destruct (checkExitConditions position currentPrice trailingState) as [exitReason|];
    [|exact Hget].
  destruct (PortfolioService.closePosition (portfolio this1) (Position.id position)
              currentPrice exitReason now) as [portfolio1 [closedTrade|]]; cbn.
  - intro H. apply TraderProofs.map_get_delete_some in H. apply Hget. exact H.
  - exact Hget.
Qed.

Lemma checkExits_widened
    (this : t) (prices : Prices) (now : Z) (id : string) (s' : TrailingStopState.t) :
  map_get id (trailingStops (fst (checkExits this prices now))) = Some s' ->
  exists s, map_get id (trailingStops this) = Some s /\ widened s s'.
Proof.
  unfold checkExits.
  assert (Hfold : forall snapshot this0 closed s2,
    map_get id (trailingStops
                  (fst (fold_left (checkExit prices now) snapshot (this0, closed))))
    = Some s2 ->
    exists s, map_get id (trailingStops this0) = Some s /\ widened s s2).
  { induction snapshot as [|p snapshot IH]; intros this0 closed s2; cbn [fold_left].
    - intro H. exists s2. split; [exact H|apply widened_refl].
    - pose proof (checkExit_widened prices now this0 closed p id) as H1.
      destruct (checkExit prices now (this0, closed) p) as [this1 closed1].
      cbn [fst] in H1. intro H. destruct (IH this1 closed1 s2 H) as (s1 & Hs1 & Hw1).
      destruct (H1 s1 Hs1) as (s & Hs & Hw).
      exists s. split; [exact Hs|apply (widened_trans s s1 s2); assumption]. }
  pose proof (Hfold (PortfolioService.getOpenPositions (portfolio this)) this [] s') as H.
  destruct (fold_left (checkExit prices now) _ (this, [])) as [this1 closed1].
  cbn in *. exact H.
Qed.

Lemma ticks_widened (updates : list (Prices * Z)) (id : string) :
  forall (this : t) (s' : TrailingStopState.t),
  map_get id (trailingStops (ticks this updates)) = Some s' ->
  exists s, map_get id (trailingStops this) = Some s /\ widened s s'.
Proof.
  induction updates as [|[prices now] updates IH]; intros this s'.
  - intro H. exists s'. split; [exact H|apply widened_refl].
  - change (ticks this ((prices, now) :: updates))
      with (ticks (tick this (prices, now)) updates).
    intro H. destruct (IH _ s' H) as (s1 & Hs1 & Hw1).
    destruct (checkExits_widened this prices now id s1 Hs1) as (s & Hs & Hw).
    exists s. split; [exact Hs|apply (widened_trans s s1 s'); assumption].
Qed.

(** X20.  Over any sequence of [checkExits] calls a trailing stop
    that has become active stays active as long as its position is
    open, and its highest price never falls and its lowest price
    never rises, for a LONG and for a SHORT position alike. *)
Theorem activation_is_kept
    (this : t) (before after : list (Prices * Z)) (id : string)
    (s1 s2 : TrailingStopState.t) :
  getTrailingStopState (ticks this before) id = Some s1 ->
  getTrailingStopState (ticks this (before ++ after)) id = Some s2 ->
  (TrailingStopState.isActive s1 = true -> TrailingStopState.isActive s2 = true)
  /\ TrailingStopState.highestPrice s1 <= TrailingStopState.highestPrice s2
  /\ TrailingStopState.lowestPrice s2 <= TrailingStopState.lowestPrice s1.
Proof.
  unfold getTrailingStopState. intros H1 H2.
  unfold ticks in H2. rewrite fold_left_app in H2. fold (ticks this before) in H2.
  fold (ticks (ticks this before) after) in H2.
  destruct (ticks_widened after id _ s2 H2) as (s & Hs & Hw).
  rewrite H1 in Hs. injection Hs as <-. exact Hw.
Qed.

Lemma activation_is_kept_witness :
  exists s1 s2,
    getTrailingStopState (ticks Scenario.armed Scenario.rise) "position-1" = Some s1
    /\ getTrailingStopState
         (ticks Scenario.armed (Scenario.rise ++ Scenario.riseAndFall)) "position-1"
       = Some s2
    /\ TrailingStopState.isActive s1 = true
    /\ (TrailingStopState.isActive s1 = true -> TrailingStopState.isActive s2 = true)
    /\ TrailingStopState.highestPrice s1 <= TrailingStopState.highestPrice s2
    /\ TrailingStopState.lowestPrice s2 <= TrailingStopState.lowestPrice s1.
Proof.
  eexists. eexists. split; [vm_compute; reflexivity|].
  split; [vm_compute; reflexivity|]. split; [reflexivity|].
  apply (activation_is_kept Scenario.armed Scenario.rise Scenario.riseAndFall
           "position-1"); vm_compute; reflexivity.
Defined.

End TraderLaws.

(** ** The market feed over its life *)

Module FeedLaws.
Import BinanceService FeedSpec.



Lemma getBuffer_other
    (this : t) (symbol other : string) (buffer : list Candle.t) :
  symbol <> other ->
  getBuffer (set_candleBuffers this (map_set symbol buffer (candleBuffers this))) other
  = getBuffer this other.
Proof.
  intro Hne. unfold getBuffer. cbn. rewrite (map_get_set_other _ _ _ _ Hne).
  reflexivity.
Qed.









(** ** Reconnecting *)

Lemma scheduleReconnect_backoff (this : t) :
  backoff this -> backoff (scheduleReconnect this).
Proof.
  intros [Hattempts Htimers]. unfold scheduleReconnect.
  destruct (Z.leb maxReconnectAttempts (reconnectAttempts this)) eqn:E;
    [split; assumption|].
  apply Z.leb_gt in E. unfold backoff. cbn [reconnectAttempts reconnectTimers].
  split; [lia|]. apply Forall_app. split; [exact Htimers|].
  constructor; [|constructor].
  unfold maxReconnectAttempts, baseReconnectDelay in *.
  assert (H : (1 <= 2 ^ (reconnectAttempts this + 1 - 1))%Z).
  { change 1%Z with (2 ^ 0)%Z at 1. apply Z.pow_le_mono_r; lia. }
  lia.
Qed.

Lemma backoff_same (this this' : t) :
  reconnectAttempts this' = reconnectAttempts this ->
  reconnectTimers this' = reconnectTimers this ->
  backoff this -> backoff this'.
Proof. unfold backoff. intros -> ->. auto. Qed.

Lemma handleKlineMessage_reconnect (this : t) (data : Kline.msg) :
  reconnectAttempts (handleKlineMessage this data) = reconnectAttempts this
  /\ reconnectTimers (handleKlineMessage this data) = reconnectTimers this.
Proof.
  unfold handleKlineMessage. cbv zeta.
  repeat match goal with
         | |- context [if ?b then _ else _] => destruct b
         end; split; reflexivity.
Qed.

Lemma pollKline_reconnect
    (symbol : string) (now : Z) (this : t) (buffer : list Candle.t)
    (k : KlineRest.row) :
  reconnectAttempts (fst (pollKline symbol now (this, buffer) k))
  = reconnectAttempts this
  /\ reconnectTimers (fst (pollKline symbol now (this, buffer) k))
     = reconnectTimers this.
Proof.
  unfold pollKline. cbv zeta.
  repeat match goal with
         | |- context [if ?b then _ else _] => destruct b
         end; split; reflexivity.
Qed.

Lemma step_backoff (this : t) (e : Event) : backoff this -> backoff (step this e).
Proof.
  intro Hb. destruct e as [|message| | |responses now]; cbn [step].
  - destruct Hb as [_ Htimers]. split; [cbn; unfold maxReconnectAttempts; lia|exact Htimers].
  - destruct message as [data|]; [|exact Hb].
    destruct (handleKlineMessage_reconnect this data) as [H1 H2].
    apply (backoff_same this); assumption.
  - unfold onClose. destruct (isRunning this); [|exact Hb].
    apply scheduleReconnect_backoff. exact Hb.
  - destruct (reconnectTimers this) as [|delay timers] eqn:E; [exact Hb|].
    destruct Hb as [Hattempts Htimers]. rewrite E in Htimers.
    inversion Htimers as [|? ? _ Hrest]; subst.
    unfold reconnectTimeout. cbn. destruct (isRunning this); split; assumption.
  - destruct (pollingLive this); [|exact Hb]. unfold pollingTick.
    destruct (negb (isRunning this)); [destruct (pollingInterval this); exact Hb|].
    assert (Hpoll : forall this0 symbol response,
      backoff this0 -> backoff (pollSymbol this0 symbol response now)).
    { clear. intros this0 symbol response H0.
      destruct response as [| |data]; cbn [pollSymbol]; try exact H0.
      assert (Hfold : forall data this1 buffer,
        backoff this1 ->
        backoff (fst (fold_left (pollKline symbol now) data (this1, buffer)))).
      { clear. induction data as [|k data IH]; intros this1 buffer H1;
          cbn [fold_left]; [exact H1|].
        assert (H2 : backoff (fst (pollKline symbol now (this1, buffer) k))).
        { destruct (pollKline_reconnect symbol now this1 buffer k) as [Ha Ht].
          apply (backoff_same this1); assumption. }
        destruct (pollKline symbol now (this1, buffer) k) as [this2 buffer2].
        apply IH. exact H2. }
      apply Hfold. exact H0. }
    generalize symbols. intro l. revert this Hb.
    induction l as [|symbol l IH]; intros this Hb; cbn [fold_left]; [exact Hb|].
    apply IH. apply Hpoll. exact Hb.
Qed.

(** X22.  Whatever happens to a service, its reconnect counter stays
    between 0 and 10 and every reconnect it schedules waits between 1
    and 30 seconds. *)
Theorem reconnects_back_off (this : t) (events : list Event) :
  backoff this -> backoff (run this events).
Proof.
  revert this. unfold run.
  induction events as [|e events IH]; intros this Hb; cbn [fold_left]; [exact Hb|].
  apply IH. apply step_backoff. exact Hb.
Qed.

Lemma reconnects_back_off_witness :
  backoff Scenario.feed /\ backoff (run Scenario.feed Scenario.outage).
Proof.
  assert (H : backoff Scenario.feed).
  { split; [cbn; unfold maxReconnectAttempts; lia|constructor]. }
  split; [exact H|]. apply (reconnects_back_off Scenario.feed Scenario.outage H).
Defined.

(** ** Reading the buffer *)

(** X23.  [getRecentCandles] returns the end of the buffer of the
    symbol: the last [limit] candles, all of them when there are
    fewer, and, [slice(-0)] being [slice(0)], the whole buffer when
    the limit is 0. *)
Theorem getRecentCandles_is_the_end (this : t) (symbol : string) (limit : nat) :
  exists older,
    getBuffer this symbol = older ++ getRecentCandles this symbol limit
    /\ List.length (getRecentCandles this symbol limit)
       = match limit with
         | O => List.length (getBuffer this symbol)
         | S _ => Nat.min limit (List.length (getBuffer this symbol))
         end.
Proof.
  unfold getRecentCandles. cbv zeta.
  destruct limit as [|n]; [exists []; split; reflexivity|].
  exists (firstn (List.length (getBuffer this symbol) - S n) (getBuffer this symbol)).
  split; [symmetry; apply firstn_skipn|].
  rewrite length_skipn. lia.
Qed.

Lemma push_last (buffer : list Candle.t) (candle : Candle.t) :
  exists older, push buffer candle = older ++ [candle].
Proof.
  unfold push.
  destruct (Nat.ltb bufferSize (List.length (buffer ++ [candle]))) eqn:E;
    [|exists buffer; reflexivity].
  destruct buffer as [|c buffer].
  - apply Nat.ltb_lt in E. unfold bufferSize in E. simpl in E. lia.
  - exists buffer. reflexivity.
Qed.

Lemma getCurrentPrice_last
    (this : t) (symbol : string) (older : list Candle.t) (candle : Candle.t) :
  getBuffer this symbol = older ++ [candle] ->
  getCurrentPrice this symbol = Candle.close candle.
Proof.
  intro H. unfold getCurrentPrice. rewrite H, rev_app_distr. reflexivity.
Qed.

(** X24.  The current price of a symbol follows the stream: after a
    kline message for a candle in progress, and after one for a
    closed candle whose open time is not yet in the buffer,
    [getCurrentPrice] of the symbol is the close of that message; the
    buffers of the other symbols are untouched by any message. *)
Theorem getCurrentPrice_follows_stream (this : t) (data : Kline.msg) :
  (Kline.x data = false
   \/ hasOpenTime (getBuffer this (Kline.s data)) (Kline.t data) = false ->
   getCurrentPrice (handleKlineMessage this data) (Kline.s data) = Kline.c data)
  /\ (forall other limit,
        other <> Kline.s data ->
        getRecentCandles (handleKlineMessage this data) other limit
        = getRecentCandles this other limit).
Proof.
  split.
  - intro Hcase. unfold handleKlineMessage. cbv zeta.
    change (Candle.isClosed (candleOfKline data)) with (Kline.x data).
    change (Candle.symbol (candleOfKline data)) with (Kline.s data).
    change (Candle.openTime (candleOfKline data)) with (Kline.t data).
    change (Kline.c data) with (Candle.close (candleOfKline data)).
    destruct (Kline.x data) eqn:Ex.
    + destruct Hcase as [H|H]; [discriminate|].
      rewrite H. cbn [negb].
      destruct (push_last (getBuffer this (Kline.s data)) (candleOfKline data))
        as [older Hpush].
      apply (getCurrentPrice_last _ _ older).
      change (getBuffer (notify ?x ?c) ?s) with (getBuffer x s).
      rewrite FeedProofs.getBuffer_set. exact Hpush.
    + destruct (lastHasOpenTime (getBuffer this (Kline.s data)) (Kline.t data)).
      * apply (getCurrentPrice_last _ _ (removelast (getBuffer this (Kline.s data)))).
        rewrite FeedProofs.getBuffer_set. reflexivity.
      * destruct (push_last (getBuffer this (Kline.s data)) (candleOfKline data))
          as [older Hpush].
        apply (getCurrentPrice_last _ _ older).
        rewrite FeedProofs.getBuffer_set. exact Hpush.
  - intros other limit Hne. unfold getRecentCandles. cbv zeta.
    assert (Hbuf : getBuffer (handleKlineMessage this data) other = getBuffer this other).
    { unfold handleKlineMessage. cbv zeta.
      change (Candle.symbol (candleOfKline data)) with (Kline.s data).
      destruct (Candle.isClosed (candleOfKline data)).
      - destruct (negb (hasOpenTime _ _)); [|reflexivity].
        change (getBuffer (notify ?x ?c) ?s) with (getBuffer x s).
        apply getBuffer_other. intro H. apply Hne. symmetry. exact H.
      - apply getBuffer_other. intro H. apply Hne. symmetry. exact H. }
    rewrite Hbuf. reflexivity.
Qed.

Lemma getCurrentPrice_follows_stream_witness :
  (Kline.x Scenario.inProgress = false
   \/ hasOpenTime (getBuffer Scenario.feed (Kline.s Scenario.inProgress))
        (Kline.t Scenario.inProgress) = false)
  /\ getCurrentPrice (handleKlineMessage Scenario.feed Scenario.inProgress)
       (Kline.s Scenario.inProgress)
     = Kline.c Scenario.inProgress.
Proof.
  split; [left; reflexivity|].
  apply (getCurrentPrice_follows_stream Scenario.feed Scenario.inProgress).
  left. reflexivity.
Defined.

End FeedLaws.

(** ** The signals of the strategy *)

Module SignalLaws.
Import StrategyService SignalSpec.

Lemma side_Some
    (condition : bool) (rr : jsnum) (floor : Q) (s signal : TradeSignal.t) :
  side condition rr floor s = Some signal ->
  condition = true /\ js_ge rr floor = true /\ signal = s.
Proof.
  unfold side. destruct condition; [|discriminate].
  destruct (js_ge rr floor); [|discriminate].
  intro H. injection H as <-. auto.
Qed.

Lemma orElse_Some (a b : option TradeSignal.t) (signal : TradeSignal.t) :
  orElse a b = Some signal -> a = Some signal \/ b = Some signal.
Proof. destruct a; simpl; auto. Qed.

(** The ratio of a reward to a positive risk is finite; it reaches
    0.4 when it passed a floor of at least 0.4. *)
Lemma ratio_floor (reward risk floor : Q) :
  0 < risk -> 0.4 <= floor -> js_ge (jsdiv reward risk) floor = true ->
  exists ratio, jsdiv reward risk = Fin ratio /\ 0.4 <= ratio.
Proof.
  intros Hrisk Hfloor. rewrite PortfolioProofs.jsdiv_finite by lra.
  cbn [js_ge]. intro H. qbool. exists (reward / risk). split; [reflexivity|lra].
Qed.

Lemma ratio_fixed (reward risk : Q) :
  0 < risk -> 0.4 * risk <= reward ->
  exists ratio, jsdiv reward risk = Fin ratio /\ 0.4 <= ratio.
Proof.
  intros Hrisk H. rewrite PortfolioProofs.jsdiv_finite by lra.
  exists (reward / risk). split; [reflexivity|]. apply Qle_shift_div_l; assumption.
Qed.

Lemma qmin_le (x z : Q) : qmin x z <= x /\ qmin x z <= z.
Proof. unfold qmin. destruct (Qltb z x) eqn:E; qbool; lra. Qed.

Lemma qmax_ge (x z : Q) : x <= qmax x z /\ z <= qmax x z.
Proof. unfold qmax. destruct (Qltb x z) eqn:E; qbool; lra. Qed.

Lemma fold_qmin_start (xs : list Q) (x : Q) : fold_left qmin xs x <= x.
Proof.
  revert x. induction xs as [|z xs IH]; intro x; simpl; [lra|].
  apply Qle_trans with (qmin x z); [apply IH|apply qmin_le].
Qed.

Lemma fold_qmax_start (xs : list Q) (x : Q) : x <= fold_left qmax xs x.
Proof.
  revert x. induction xs as [|z xs IH]; intro x; simpl; [lra|].
  apply Qle_trans with (qmax x z); [apply qmax_ge|apply IH].
Qed.

Lemma fold_qmin_le (xs : list Q) (y : Q) :
  In y xs -> forall x, fold_left qmin xs x <= y.
Proof.
  induction xs as [|z xs IH]; [intros []|]. intros [Hy|Hy] x; simpl.
  - subst z. apply Qle_trans with (qmin x y); [apply fold_qmin_start|apply qmin_le].
  - apply IH. exact Hy.
Qed.

Lemma fold_qmax_ge (xs : list Q) (y : Q) :
  In y xs -> forall x, y <= fold_left qmax xs x.
Proof.
  induction xs as [|z xs IH]; [intros []|]. intros [Hy|Hy] x; simpl.
  - subst z. apply Qle_trans with (qmax x y); [apply qmax_ge|apply fold_qmax_start].
  - apply IH. exact Hy.
Qed.

Lemma minOf_le (xs : list Q) (y : Q) : In y xs -> minOf xs <= y.
Proof.
  destruct xs as [|x xs]; [intros []|]. intros [<-|H]; simpl.
  - apply fold_qmin_start.
  - apply fold_qmin_le. exact H.
Qed.

Lemma maxOf_ge (xs : list Q) (y : Q) : In y xs -> y <= maxOf xs.
Proof.
  destruct xs as [|x xs]; [intros []|]. intros [<-|H]; simpl.
  - apply fold_qmax_start.
  - apply fold_qmax_ge. exact H.
Qed.

Lemma last_in_lastTen (candles : list Candle.t) :
  candles <> [] -> In (fromEnd candles 1) (lastTen candles).
Proof.
  intro Hne. unfold fromEnd, lastTen.
  assert (Hlen : (0 < List.length candles)%nat).
  { destruct candles; [contradiction|simpl; lia]. }
  replace (List.length candles - 1)%nat
    with ((List.length candles - 10) + (List.length candles - 1 - (List.length candles - 10)))%nat
    by lia.
  rewrite <- nth_skipn. apply nth_In. rewrite length_skipn. lia.
Qed.

Section Detectors.

Variables (uuid symbol : string) (candles : list Candle.t).
Variables (indicators : Indicators.t) (regime : RegimeState.t).
Variable signal : TradeSignal.t.

Hypothesis atr_positive : 0 < Indicators.atr14 indicators.
Hypothesis last_candle :
  Candle.low (fromEnd candles 1) <= Candle.close (fromEnd candles 1)
  /\ Candle.close (fromEnd candles 1) <= Candle.high (fromEnd candles 1).

Ltac long_side :=
  unfold geometry;
  cbn [createSignal TradeSignal.entryPrice TradeSignal.direction
       TradeSignal.stopLoss TradeSignal.takeProfit TradeSignal.riskRewardRatio];
  split; [reflexivity|].

Ltac sides H :=
  apply orElse_Some in H; destruct H as [H|H];
  apply side_Some in H; destruct H as (Hcond & Hrr & ->); long_side.

Lemma checkEMACrossover_geometry :
  checkEMACrossover uuid symbol candles indicators regime = Some signal ->
  geometry candles signal.
Proof.
  unfold checkEMACrossover.
  destruct (Nat.ltb (List.length candles) 3); [discriminate|]. cbv zeta.
  destruct (Qltb _ _ && Qltb _ _ && Qltb _ _).
  - intro H. injection H as <-. long_side.
    split; [split; lra|]. apply ratio_fixed; lra.
  - destruct (Qltb _ _ && Qltb _ _ && Qltb _ _); [|discriminate].
    intro H. injection H as <-. long_side.
    split; [split; lra|]. apply ratio_fixed; lra.
Qed.

Lemma checkRSIReversal_geometry :
  checkRSIReversal uuid symbol candles indicators regime = Some signal ->
  geometry candles signal.
Proof.
  unfold checkRSIReversal. cbv zeta.
  destruct (Qltb (Indicators.rsi14 indicators) 48).
  - intro H. injection H as <-. long_side.
    split; [split; lra|]. apply ratio_fixed; lra.
  - destruct (Qltb 52 (Indicators.rsi14 indicators)); [|discriminate].
    intro H. injection H as <-. long_side.
    split; [split; lra|]. apply ratio_fixed; lra.
Qed.

Lemma checkMomentumBreakout_geometry :
  checkMomentumBreakout uuid symbol candles indicators regime = Some signal ->
  geometry candles signal.
Proof.
  unfold checkMomentumBreakout.
  destruct (Nat.ltb (List.length candles) 5); [discriminate|]. cbv zeta.
  destruct (Qltb (Indicators.volumeRatio indicators) 0.8); [discriminate|].
  destruct (Qltb _ 0.3); [discriminate|].
  intro H. sides H.
  - split; [split; lra|]. apply (ratio_floor _ _ 0.5); [lra|lra|exact Hrr].
  - split; [split; lra|]. apply (ratio_floor _ _ 0.5); [lra|lra|exact Hrr].
Qed.

Lemma checkStructureBreak_geometry :
  checkStructureBreak uuid symbol candles indicators regime = Some signal ->
  geometry candles signal.
Proof.
  unfold checkStructureBreak.
  destruct (Nat.ltb (List.length candles) 20) eqn:Elen; [discriminate|]. cbv zeta.
  assert (Hne : candles <> []).
  { intro H. rewrite H in Elen. discriminate. }
  pose proof (last_in_lastTen candles Hne) as Hin.
  assert (Hlow : minOf (map Candle.low (lastTen candles))
                 <= Candle.low (fromEnd candles 1)).
  { apply minOf_le. apply in_map. exact Hin. }
  assert (Hhigh : Candle.high (fromEnd candles 1)
                  <= maxOf (map Candle.high (lastTen candles))).
  { apply maxOf_ge. apply in_map. exact Hin. }
  intro H. sides H.
  - split; [split; lra|]. apply (ratio_floor _ _ 0.5); [lra|lra|exact Hrr].
  - split; [split; lra|]. apply (ratio_floor _ _ 0.5); [lra|lra|exact Hrr].
Qed.

Lemma checkEMABounce_geometry :
  checkEMABounce uuid symbol candles indicators regime = Some signal ->
  geometry candles signal.
Proof.
  unfold checkEMABounce.
  destruct (Nat.ltb (List.length candles) 5); [discriminate|]. cbv zeta.
  destruct (Qltb _ 20 || Qltb 80 _); [discriminate|].
  destruct (Qltb (Indicators.atr14 indicators * 1.5) _); [discriminate|].
  intro H. sides H.
  - split; [split; lra|]. apply (ratio_floor _ _ 0.5); [lra|lra|exact Hrr].
  - split; [split; lra|]. apply (ratio_floor _ _ 0.5); [lra|lra|exact Hrr].
Qed.

Lemma checkMeanReversion_geometry :
  checkMeanReversion uuid symbol candles indicators regime = Some signal ->
  geometry candles signal.
Proof.
  unfold checkMeanReversion.
  destruct (Nat.ltb (List.length candles) 10); [discriminate|]. cbv zeta.
  destruct (js_lt _ 1.0); [discriminate|].
  intro H. sides H.
  - apply andb_true_iff in Hcond. destruct Hcond as [Hcond _].
    apply andb_true_iff in Hcond. destruct Hcond as [Hdev _]. qbool.
    match type of Hdev with
    | ?dev < 0 => assert (Habs : Qabs dev == - dev) by (apply Qabs_neg; lra)
    end.
    split; [split; lra|]. apply (ratio_floor _ _ 0.5); [lra|lra|exact Hrr].
  - apply andb_true_iff in Hcond. destruct Hcond as [Hcond _].
    apply andb_true_iff in Hcond. destruct Hcond as [Hdev _]. qbool.
    match type of Hdev with
    | 0 < ?dev => assert (Habs : Qabs dev == dev) by (apply Qabs_pos; lra)
    end.
    split; [split; lra|]. apply (ratio_floor _ _ 0.5); [lra|lra|exact Hrr].
Qed.

Lemma checkCandleTrend_geometry :
  checkCandleTrend uuid symbol candles indicators regime = Some signal ->
  geometry candles signal.
Proof.
  unfold checkCandleTrend.
  destruct (Nat.ltb (List.length candles) 3); [discriminate|]. cbv zeta.
  assert (Hmin : qmin (Candle.low (fromEnd candles 1)) (Candle.low (fromEnd candles 2))
                 <= Candle.low (fromEnd candles 1)).
  { unfold qmin. destruct (Qltb _ _) eqn:E; qbool; lra. }
  assert (Hmax : Candle.high (fromEnd candles 1)
                 <= qmax (Candle.high (fromEnd candles 1))
                         (Candle.high (fromEnd candles 2))).
  { unfold qmax. destruct (Qltb _ _) eqn:E; qbool; lra. }
  intro H. sides H.
  - split; [split; lra|]. apply (ratio_floor _ _ 0.5); [lra|lra|exact Hrr].
  - split; [split; lra|]. apply (ratio_floor _ _ 0.5); [lra|lra|exact Hrr].
Qed.

Lemma checkQuickScalp_geometry :
  checkQuickScalp uuid symbol candles indicators regime = Some signal ->
  geometry candles signal.
Proof.
  unfold checkQuickScalp.
  destruct (Nat.ltb (List.length candles) 2); [discriminate|]. cbv zeta.
  destruct (Qltb _ (Indicators.atr14 indicators * 0.15)); [discriminate|].
  intro H. sides H.
  - split; [split; lra|]. apply (ratio_floor _ _ 0.4); [lra|lra|exact Hrr].
  - split; [split; lra|]. apply (ratio_floor _ _ 0.4); [lra|lra|exact Hrr].
Qed.

Lemma firstSignal_geometry :
  firstSignal detectors uuid symbol candles indicators regime = Some signal ->
  geometry candles signal.
Proof.
  unfold detectors. cbn [firstSignal].
  destruct (checkEMACrossover _ _ _ _ _) eqn:E1;
    [intro H; injection H as ->; apply checkEMACrossover_geometry, E1|].
  destruct (checkRSIReversal _ _ _ _ _) eqn:E2;
    [intro H; injection H as ->; apply checkRSIReversal_geometry, E2|].
  destruct (checkMomentumBreakout _ _ _ _ _) eqn:E3;
    [intro H; injection H as ->; apply checkMomentumBreakout_geometry, E3|].
  destruct (checkStructureBreak _ _ _ _ _) eqn:E4;
    [intro H; injection H as ->; apply checkStructureBreak_geometry, E4|].
  destruct (checkEMABounce _ _ _ _ _) eqn:E5;
    [intro H; injection H as ->; apply checkEMABounce_geometry, E5|].
  destruct (checkMeanReversion _ _ _ _ _) eqn:E6;
    [intro H; injection H as ->; apply checkMeanReversion_geometry, E6|].
  destruct (checkCandleTrend _ _ _ _ _) eqn:E7;
    [intro H; injection H as ->; apply checkCandleTrend_geometry, E7|].
  destruct (checkQuickScalp _ _ _ _ _) eqn:E8;
    [intro H; injection H as ->; apply checkQuickScalp_geometry, E8|].
  discriminate.
Qed.

End Detectors.

(** X25.  Every signal [evaluate] returns, from whichever of the
    eight detectors, is entered at the close of the last candle, is
    LONG with its stop below and its target above the entry or SHORT
    with the two the other way round, and has a finite risk:reward
    ratio of at least 0.4, when the ATR is positive and the close of
    the last candle lies between its low and its high. *)
Theorem evaluate_signal_geometry
    (this this' : t) (uuid symbol : string) (candles : list Candle.t)
    (indicators : Indicators.t) (regime : RegimeState.t) (signal : TradeSignal.t) :
  0 < Indicators.atr14 indicators ->
  Candle.low (fromEnd candles 1) <= Candle.close (fromEnd candles 1)
  /\ Candle.close (fromEnd candles 1) <= Candle.high (fromEnd candles 1) ->
  evaluate this uuid symbol candles indicators regime = Returned this' (Some signal) ->
  geometry candles signal.
Proof.
  intros Hatr Hlast. unfold evaluate.
  destruct (RegimeState.decision regime); try discriminate;
    cbn [canTrade negb]; (destruct candles as [|c rest] eqn:Ec; [discriminate|]);
    rewrite <- Ec in *;
    (destruct (firstSignal detectors uuid symbol candles indicators regime) as [s|] eqn:E;
     [|discriminate]);
    intro H; injection H as _ <-;
    apply (firstSignal_geometry uuid symbol candles indicators regime s Hatr Hlast E).
Qed.

Lemma evaluate_signal_geometry_witness :
  exists this' signal,
    evaluate Scenario.strategy "signal-9" "BTCUSDT" SignalSpec.candles
      Scenario.indicators Scenario.regime
    = Returned this' (Some signal)
    /\ 0 < Indicators.atr14 Scenario.indicators
    /\ (Candle.low (fromEnd SignalSpec.candles 1)
        <= Candle.close (fromEnd SignalSpec.candles 1)
        /\ Candle.close (fromEnd SignalSpec.candles 1)
           <= Candle.high (fromEnd SignalSpec.candles 1))
    /\ geometry SignalSpec.candles signal.
Proof.
  assert (Hatr : 0 < Indicators.atr14 Scenario.indicators) by reflexivity.
  assert (Hlast : Candle.low (fromEnd SignalSpec.candles 1)
                  <= Candle.close (fromEnd SignalSpec.candles 1)
                  /\ Candle.close (fromEnd SignalSpec.candles 1)
                     <= Candle.high (fromEnd SignalSpec.candles 1)).
  { split; vm_compute; discriminate. }
  eexists. eexists. split; [vm_compute; reflexivity|].
  split; [exact Hatr|]. split; [exact Hlast|].
  apply (evaluate_signal_geometry Scenario.strategy
           (updateLastSignalTime Scenario.strategy "BTCUSDT" SignalSpec.candles)
           "signal-9" "BTCUSDT" SignalSpec.candles Scenario.indicators Scenario.regime
           _ Hatr Hlast).
  vm_compute. reflexivity.
Defined.

End SignalLaws.

(** ** The answers of the approval gate *)

Module ApprovalLaws.
Import LLMFilterService.



Lemma readDecision_APPROVE (text : string) :
  readDecision text = APPROVE -> text = "APPROVE"%string.
Proof.
  unfold readDecision.
  destruct (String.eqb text "APPROVE") eqn:E; [intros _; apply String.eqb_eq, E|].
  destruct (String.eqb text "REJECT"); [discriminate|].
  destruct (String.eqb text "DELAY"); discriminate.
Qed.

(** X27.  A complete answer of the model whose decision is anything
    but the text APPROVE (REJECT, DELAY, or a text outside the three)
    opens no position and leaves the trader as it was. *)
Theorem only_APPROVE_trades
    (trader : TraderService.t) (signal : TradeSignal.t) (currentPrice : Q)
    (news : list NewsItem.t) (llmResponse : LLMResponse) (text : string)
    (uuid : string) (now : Z) :
  fails (Parsed llmResponse) = false ->
  decision llmResponse = Some text ->
  text <> "APPROVE"%string ->
  TradingEngine.filterAndExecute trader signal currentPrice news (Parsed llmResponse)
    uuid now
  = Some (trader, None).
Proof.
  intros Hfails Hdecision Htext.
  unfold TradingEngine.filterAndExecute, TradingEngine.executeIfApproved.
  cbn [evaluateSignal fails] in *. rewrite Hdecision in *.
  destruct (confidence llmResponse); [|discriminate].
  destruct (reasoning llmResponse); [|discriminate].
  cbn [LLMFilterResult.decision].
  destruct (readDecision text) eqn:E; try reflexivity.
  apply readDecision_APPROVE in E. contradiction.
Qed.

Lemma only_APPROVE_trades_witness :
  let answer :=
    {| decision := Some "approve"%string; confidence := Some 0.9;
       reasoning := Some "Strong setup"%string; delayMinutes := None |} in
  fails (Parsed answer) = false
  /\ decision answer = Some "approve"%string
  /\ "approve"%string <> "APPROVE"%string
  /\ TradingEngine.filterAndExecute Scenario.idle Scenario.signal 100 []
       (Parsed answer) "position-1" 0%Z
     = Some (Scenario.idle, None).
Proof.
  cbv zeta. split; [reflexivity|]. split; [reflexivity|]. split; [discriminate|].
  apply (only_APPROVE_trades Scenario.idle Scenario.signal 100 [] _ "approve");
    [reflexivity|reflexivity|discriminate].
Defined.

End ApprovalLaws.

(** ** The log of errors of the engine *)

Module EngineErrorLaws.
Import EngineErrors.

Lemma lastOnes_length (n : nat) (xs : list string) :
  List.length (lastOnes n xs) = Nat.min n (List.length xs).
Proof. unfold lastOnes. rewrite length_skipn. lia. Qed.

Lemma lastOnes_all (n : nat) (xs : list string) :
  (List.length xs <= n)%nat -> lastOnes n xs = xs.
Proof.
  intro H. unfold lastOnes.
  replace (List.length xs - n)%nat with 0%nat by lia. reflexivity.
Qed.

Lemma lastOnes_app (n : nat) (xs ys : list string) :
  lastOnes n (lastOnes n xs ++ ys) = lastOnes n (xs ++ ys).
Proof.
  destruct (Nat.le_gt_cases (List.length xs) n) as [Hshort|Hlong].
  - rewrite (lastOnes_all n xs Hshort). reflexivity.
  - unfold lastOnes at 1 3. rewrite !length_app, lastOnes_length.
    replace (Nat.min n (List.length xs)) with n by lia.
    unfold lastOnes.
    rewrite (skipn_app (List.length xs + List.length ys - n)).
    rewrite (skipn_app (n + List.length ys - n)).
    rewrite length_skipn.
    replace (List.length xs - (List.length xs - n))%nat with n by lia.
    replace (n + List.length ys - n - n)%nat with (List.length ys - n)%nat by lia.
    replace (List.length xs + List.length ys - n - List.length xs)%nat
      with (List.length ys - n)%nat by lia.
    f_equal. rewrite skipn_skipn. f_equal. lia.
Qed.

Lemma handleError_errors (this : t) (failure : Failure) :
  errors (handleError this failure) = lastOnes 100 (errors this ++ [line failure]).
Proof.
  unfold handleError. cbn [errors].
  destruct (Nat.ltb 100 (List.length (errors this ++ [line failure]))) eqn:E;
    [reflexivity|].
  apply Nat.ltb_ge in E. symmetry. apply lastOnes_all. exact E.
Qed.

Lemma handleError_status (this : t) (failure : Failure) :
  status (handleError this failure)
  = if Nat.ltb 50 (List.length (errors (handleError this failure)))
    then error else status this.
Proof. reflexivity. Qed.

Lemma handleErrors_errors (failures : list Failure) (this : t) :
  (List.length (errors this) <= 100)%nat ->
  errors (handleErrors this failures)
  = lastOnes 100 (errors this ++ map line failures).
Proof.
  unfold handleErrors. revert this.
  induction failures as [|failure failures IH]; intros this Hlen; cbn [fold_left map].
  - rewrite app_nil_r. symmetry. apply lastOnes_all. exact Hlen.
  - rewrite IH.
    + rewrite handleError_errors, lastOnes_app, <- app_assoc. reflexivity.
    + rewrite handleError_errors, lastOnes_length. lia.
Qed.

Lemma handleErrors_snoc (this : t) (failures : list Failure) (failure : Failure) :
  handleErrors this (failures ++ [failure])
  = handleError (handleErrors this failures) failure.
Proof. unfold handleErrors. rewrite fold_left_app. reflexivity. Qed.

Lemma handleErrors_status (failures : list Failure) (this : t) :
  (List.length (errors this) <= 100)%nat ->
  failures <> [] ->
  status (handleErrors this failures)
  = if Nat.ltb 50 (List.length (errors (handleErrors this failures)))
    then error else status this.
Proof.
  intros Hlen. induction failures as [|failure failures IH] using rev_ind;
    [intro H; contradiction|]. intros _.
  rewrite handleErrors_snoc, handleError_status.
  destruct (Nat.ltb 50 (List.length
              (errors (handleError (handleErrors this failures) failure)))) eqn:E;
    [reflexivity|].
  apply Nat.ltb_ge in E. rewrite handleError_errors, lastOnes_length in E.
  rewrite length_app in E. cbn [List.length] in E.
  destruct failures as [|f0 failures]; [reflexivity|].
  rewrite IH by discriminate.
  destruct (Nat.ltb 50 (List.length (errors (handleErrors this (f0 :: failures)))))
    eqn:E2; [|reflexivity].
  apply Nat.ltb_lt in E2. lia.
Qed.

(** X28.  The engine keeps the last 100 errors, newest last: after
    any number of [handleError] calls on a log of at most 100 lines,
    the log is the last 100 lines of the old log followed by the new
    lines, [getState] shows the last 10 of them, and once a call
    leaves more than 50 lines the status is error. *)
Theorem errors_log_bounded (this : t) (failures : list Failure) :
  (List.length (errors this) <= 100)%nat ->
  let this' := handleErrors this failures in
  let all := errors this ++ map line failures in
  errors this' = lastOnes 100 all
  /\ List.length (errors this') = Nat.min 100 (List.length all)
  /\ shownErrors this' = lastOnes 10 all
  /\ (failures <> [] ->
      status this' = if Nat.ltb 50 (List.length all) then error else status this).
Proof.
  intros Hlen this' all.
  assert (Herrors : errors this' = lastOnes 100 all)
    by (apply handleErrors_errors; exact Hlen).
  split; [exact Herrors|]. split; [rewrite Herrors; apply lastOnes_length|].
  split.
  - unfold shownErrors. rewrite Herrors. unfold lastOnes.
    rewrite skipn_skipn, length_skipn. f_equal. lia.
  - intro Hne. subst this'. rewrite (handleErrors_status failures this Hlen Hne).
    rewrite Herrors, lastOnes_length.
    destruct (Nat.ltb 50 (Nat.min 100 (List.length all))) eqn:E1;
      destruct (Nat.ltb 50 (List.length all)) eqn:E2; try reflexivity;
      [apply Nat.ltb_lt in E1; apply Nat.ltb_ge in E2; lia
      |apply Nat.ltb_ge in E1; apply Nat.ltb_lt in E2; lia].
Qed.

Lemma errors_log_bounded_witness :
  (List.length (errors healthy) <= 100)%nat
  /\ repeat timeout 120 <> []
  /\ List.length (errors (handleErrors healthy (repeat timeout 120))) = 100%nat
  /\ status (handleErrors healthy (repeat timeout 120)) = error.
Proof.
  assert (Hlen : (List.length (errors healthy) <= 100)%nat) by (simpl; lia).
  assert (Hne : repeat timeout 120 <> []) by discriminate.
  destruct (errors_log_bounded healthy (repeat timeout 120) Hlen)
    as (_ & Hlength & _ & Hstatus).
  split; [exact Hlen|]. split; [exact Hne|].
  split; [rewrite Hlength; reflexivity|].
  rewrite (Hstatus Hne). reflexivity.
Defined.

End EngineErrorLaws.
